(** * DataFactory: pipeline executor, validation score, fixer strategies, cache

    A shallow embedding of the parts of [Scripts/DataFactory] that the
    specification's testable properties talk about:

    - [fixers.py]: [FixerStrategy.fix], [OutlierFixerStrategy],
      [DomainLoanFixerStrategy], [DomainFraudFixerStrategy],
      [DomainMarketFixerStrategy], [DomainMacroFixerStrategy],
      [DataConsistencyFixerStrategy], [FixerPipeline];
    - [validators.py]: [ValidationStrategy.validate], [ValidationPipelineStep],
      [ValidationPipeline.process], [DomainSpecificValidationStrategy],
      [DataQualityValidationStrategy._check_data_consistency];
    - [engine.py]: [CacheManager], [DataValidationStep], [PipelineExecutor],
      [PipelineFactory], [OrchestrationService._process_dataset].

    Conventions.  A pandas DataFrame is an ordered list of named columns; a
    column carries its dtype and its cells.  float64 values are idealised as
    rationals ([Q]); int64 values are integers of the 64-bit range, and the
    operations that overflow on them ([abs], [*], [+]) wrap around.  [NA]
    stands for NaN/None/NaT.  An exception is the [None] of an option; code
    that keeps a counter while it may raise runs in the monad [FixM].
    Logging is not modelled, the fix counter is. *)

From Stdlib Require Import QArith Qround Qabs Lqa ZArith String List Bool Lia Ascii.
From stdpp Require Import gmap strings list pretty.

Local Open Scope string_scope.
Local Open Scope Q_scope.

(* ================================================================== *)
(** * 1. Tables *)
(* ================================================================== *)

Inductive cell :=
| Num (q : Q)        (* an int64 or float64 value *)
| Str (s : string)   (* a Python str *)
| Date (t : Z)       (* a timestamp, as an offset from the epoch *)
| NA.                (* NaN, None or NaT *)

(** The dtypes of the columns: float64, object, datetime64[ns] without a
    time zone, int64, and datetime64[ns, tz]. *)
Inductive dtype := number | object | datetime | int64 | datetimetz.

Record Series := mkSeries { dt : dtype; cells : list cell }.

(** Column order is the DataFrame's column order. *)
Definition Table := list (string * Series).

Definition columns (df : Table) : list string := map fst df.

(** [col in df.columns] *)
Definition has_col (df : Table) (c : string) : bool :=
  existsb (String.eqb c) (columns df).

(** [df[c]]; [None] is the KeyError of an absent column. *)
Fixpoint get_col (df : Table) (c : string) : option Series :=
  match df with
  | [] => None
  | (n, s) :: df' => if String.eqb c n then Some s else get_col df' c
  end.

(** [df[c] = s]: replaces the column in place, or appends a new one. *)
Fixpoint set_col (df : Table) (c : string) (s : Series) : Table :=
  match df with
  | [] => [(c, s)]
  | (n, s') :: df' =>
      if String.eqb c n then (n, s) :: df' else (n, s') :: set_col df' c s
  end.

Definition nrows (df : Table) : nat :=
  match df with
  | [] => 0%nat
  | (_, s) :: _ => length (cells s)
  end.

(** [df.empty]: no column or no row. *)
Definition empty (df : Table) : bool :=
  match df with
  | [] => true
  | _ => Nat.eqb (nrows df) 0
  end.

(** The int64 range, and the value an int64 operation leaves when its
    exact result is [z]. *)
Definition int64_min : Z := (- 2 ^ 63)%Z.
Definition int64_max : Z := (2 ^ 63 - 1)%Z.

Definition wrap64 (z : Z) : Z := ((z - int64_min) mod 2 ^ 64 + int64_min)%Z.

(** A number that an int64 column can hold. *)
Definition int64_value (q : Q) : bool :=
  Qeq_bool q (inject_Z (Qfloor q))
  && Z.leb int64_min (Qfloor q) && Z.leb (Qfloor q) int64_max.

Definition int64_cell (c : cell) : bool :=
  match c with
  | Num q => int64_value q
  | _ => false
  end.

(** Every column has one cell per row; a column of dtype [number] (a
    datetime dtype) holds numbers (timestamps) and missing values only, and
    an int64 column holds int64 values and no missing value. *)
Definition cell_fits (d : dtype) (c : cell) : bool :=
  match d, c with
  | int64, _ => int64_cell c
  | _, NA => true
  | number, Num _ => true
  | datetime, Date _ => true
  | datetimetz, Date _ => true
  | object, _ => true
  | _, _ => false
  end.

Definition wf_series (n : nat) (s : Series) : bool :=
  Nat.eqb (length (cells s)) n && forallb (cell_fits (dt s)) (cells s).

Definition wf_table (df : Table) : bool :=
  forallb (fun p => wf_series (nrows df) (snd p)) df.

(** The cell of column [c] at row [i]. *)
Definition cell_at (df : Table) (c : string) (i : nat) : option cell :=
  match get_col df c with
  | Some s => nth_error (cells s) i
  | None => None
  end.

(* ------------------------------------------------------------------ *)
(** ** Boolean masks *)

Definition mask_sum (m : list bool) : nat := length (List.filter (fun b => b) m).
Definition mask_any (m : list bool) : bool := existsb (fun b => b) m.

Fixpoint mask_and (a b : list bool) : list bool :=
  match a, b with
  | x :: a', y :: b' => (x && y) :: mask_and a' b'
  | _, _ => []
  end.

Fixpoint mask_or (a b : list bool) : list bool :=
  match a, b with
  | x :: a', y :: b' => (x || y) :: mask_or a' b'
  | _, _ => []
  end.

(** [s.loc[mask] = f(s)], cell by cell. *)
Fixpoint assign (mask : list bool) (f : cell -> cell) (old : list cell) : list cell :=
  match mask, old with
  | m :: mask', o :: old' => (if m then f o else o) :: assign mask' f old'
  | _, _ => old
  end.

(** [s.loc[mask] = other.loc[mask]], aligned on the row index. *)
Fixpoint assign_from (mask : list bool) (new old : list cell) : list cell :=
  match mask, new, old with
  | m :: mask', n :: new', o :: old' =>
      (if m then n else o) :: assign_from mask' new' old'
  | _, _, _ => old
  end.

(** The rows of [cs] that [mask] selects. *)
Fixpoint select {A} (mask : list bool) (cs : list A) : list A :=
  match mask, cs with
  | m :: mask', c :: cs' => if m then c :: select mask' cs' else select mask' cs'
  | _, _ => []
  end.

(** The dtype of a column after the cells [written] were stored in it.  The
    code only ever stores numbers in numeric columns and timestamps in
    datetime columns.  So a column keeps its dtype, but for an int64 column:
    it stays int64 as long as every stored value is an int64 value (also a
    float such as [100.0]), and the first other number, or NaN, turns it
    into a float64 column.  Storing nothing changes nothing. *)
Definition retype (d : dtype) (written : list cell) : dtype :=
  match d with
  | int64 => if forallb int64_cell written then int64 else number
  | _ => d
  end.

(** [df.loc[mask, c] = v] *)
Definition loc_set (df : Table) (mask : list bool) (c : string) (f : cell -> cell) : Table :=
  match get_col df c with
  | Some s =>
      set_col df c (mkSeries (retype (dt s) (select mask (map f (cells s))))
                             (assign mask f (cells s)))
  | None => df
  end.

Definition loc_set_from (df : Table) (mask : list bool) (c : string) (new : list cell) : Table :=
  match get_col df c with
  | Some s =>
      set_col df c (mkSeries (retype (dt s) (select mask new))
                             (assign_from mask new (cells s)))
  | None => df
  end.

(* ------------------------------------------------------------------ *)
(** ** Comparisons *)

(** [x == q] for a number [q]: never raises, and is false for a missing
    value and for a value of another type. *)
Definition cell_eq_q (q : Q) (c : cell) : bool :=
  match c with
  | Num x => Qeq_bool x q
  | _ => false
  end.

(** Row [i] of column [c] holds the number [q]. *)
Definition cell_is (df : Table) (c : string) (i : nat) (q : Q) : bool :=
  match cell_at df c i with
  | Some x => cell_eq_q q x
  | None => false
  end.

(** [x < q] and [x > q]: false for a missing value, TypeError for a string
    or a timestamp. *)
Definition cell_lt_q (q : Q) (c : cell) : option bool :=
  match c with
  | Num x => Some (negb (Qle_bool q x))
  | NA => Some false
  | _ => None
  end.

Definition cell_gt_q (q : Q) (c : cell) : option bool :=
  match c with
  | Num x => Some (negb (Qle_bool x q))
  | NA => Some false
  | _ => None
  end.

Fixpoint mapM {A B : Type} (f : A -> option B) (l : list A) : option (list B) :=
  match l with
  | [] => Some []
  | x :: l' =>
      match f x with
      | Some y => match mapM f l' with Some ys => Some (y :: ys) | None => None end
      | None => None
      end
  end.

(** [s == q] *)
Definition eq_scalar (s : Series) (q : Q) : list bool := map (cell_eq_q q) (cells s).

(** [s < q], [s > q]: a datetime column cannot be compared with a number at
    all; an object column is compared cell by cell. *)
Definition lt_scalar (s : Series) (q : Q) : option (list bool) :=
  match dt s with
  | datetime | datetimetz => None
  | _ => mapM (cell_lt_q q) (cells s)
  end.

Definition gt_scalar (s : Series) (q : Q) : option (list bool) :=
  match dt s with
  | datetime | datetimetz => None
  | _ => mapM (cell_gt_q q) (cells s)
  end.

Definition notna (s : Series) : list bool :=
  map (fun c => match c with NA => false | _ => true end) (cells s).

(* ================================================================== *)
(** * 2. Configuration *)
(* ================================================================== *)

(** The keys of the configuration provider that the modelled code reads,
    each with the value [get_config] returns for it. *)
Record Config := mkConfig {
  current_dataset : string;
  outlier_threshold : Q;
  enable_caching : bool;
  checkpointing : bool
}.

(* ================================================================== *)
(** * 3. fixers.py *)
(* ================================================================== *)

(** A computation of a fixer: it reads and updates [self._fix_count] and
    either returns or raises.  The counter survives an exception. *)
Definition FixM (A : Type) : Type := nat -> option A * nat.

Definition ret {A} (x : A) : FixM A := fun n => (Some x, n).
Definition raise {A} : FixM A := fun n => (None, n).
Definition bind {A B} (m : FixM A) (k : A -> FixM B) : FixM B :=
  fun n => match m n with
           | (Some x, n') => k x n'
           | (None, n') => (None, n')
           end.
(** An operation that may raise but leaves the counter alone. *)
Definition lift {A} (o : option A) : FixM A := fun n => (o, n).

Declare Scope fix_scope.
Delimit Scope fix_scope with fixm.
Notation "'let*' x ':=' m 'in' k" := (bind m (fun x => k))
  (at level 10, x name, m at level 100, k at level 200) : fix_scope.
Notation "m ';;' k" := (bind m (fun _ => k))
  (at level 100, k at level 200, right associativity) : fix_scope.

(** [FixerStrategy._log_fixes] *)
Definition _log_fixes (fix_count : nat) : FixM unit :=
  fun n => (Some tt, if Nat.ltb 0 fix_count then (n + fix_count)%nat else n).

Definition whenM (b : bool) (m : Table -> FixM Table) (df : Table) : FixM Table :=
  if b then m df else ret df.

(** [df[c]] inside a fixer. *)
Definition col (df : Table) (c : string) : FixM Series := lift (get_col df c).

(** A fixer strategy: its class name and its [_fix]. *)
Record FixerStrategy := mkFixer {
  name : string;
  _fix : Table -> FixM Table
}.

(** [FixerStrategy.fix] ([fix] is a keyword here, hence the underscore).
    [fix_count] is the counter left by earlier calls.  [_fix] works on
    [df.copy()], so [df] itself is what the handler returns. *)
Definition fix_ (s : FixerStrategy) (df : Table) (fix_count : nat) : Table * nat :=
  let fix_count := 0%nat in
  if empty df then (df, fix_count)
  else match _fix s df fix_count with
       | (Some result_df, n) => (result_df, n)
       | (None, n) => (df, n)
       end.

(** The idiom [if mask.sum() > 0: df.loc[mask, c] = ...; self._log_fixes(mask.sum(), ...)]. *)
Definition fix_where (df : Table) (mask : list bool) (c : string) (f : cell -> cell)
  : FixM Table :=
  if Nat.ltb 0 (mask_sum mask)
  then (_log_fixes (mask_sum mask) ;; ret (loc_set df mask c f))%fixm
  else ret df.

(* ------------------------------------------------------------------ *)
(** ** Numeric columns *)

(** A column of a numeric dtype (float64 or int64) whose cells are numbers
    and missing values: its comparisons with a number do not raise. *)
Definition numeric_cell (c : cell) : bool :=
  match c with
  | Num _ | NA => true
  | _ => false
  end.

Definition numeric_series (s : Series) : bool :=
  match dt s with
  | number | int64 => forallb numeric_cell (cells s)
  | _ => false
  end.

(** [x < q] and [x > q] on the cells of such a column. *)
Definition ltb_q (q : Q) (c : cell) : bool :=
  match c with
  | Num x => negb (Qle_bool q x)
  | _ => false
  end.

Definition gtb_q (q : Q) (c : cell) : bool :=
  match c with
  | Num x => negb (Qle_bool x q)
  | _ => false
  end.

(** The table with [g] applied to every cell of column [c]. *)
Definition map_col (df : Table) (c : string) (g : cell -> cell) : Table :=
  match get_col df c with
  | Some s => set_col df c (mkSeries (dt s) (map g (cells s)))
  | None => df
  end.

(** The same, with the dtype [d] that the stores left in the column. *)
Definition map_col_to (df : Table) (c : string) (d : dtype) (g : cell -> cell) : Table :=
  match get_col df c with
  | Some s => set_col df c (mkSeries d (map g (cells s)))
  | None => df
  end.

(** What storing numbers can do to a dtype: nothing, or int64 to float64. *)
Definition retyped (d d' : dtype) : Prop := d' = d \/ (d = int64 /\ d' = number).

(** The dtype of column [c], float64 when there is no such column. *)
Definition col_dtype (df : Table) (c : string) : dtype :=
  match get_col df c with
  | Some s => dt s
  | None => number
  end.

(** What a masked assignment does to one cell: [f] where the cell is below
    [q], above [q], or strictly between [a] and [b]. *)
Definition when_lt (q : Q) (f : cell -> cell) (x : cell) : cell :=
  if ltb_q q x then f x else x.

Definition when_gt (q : Q) (f : cell -> cell) (x : cell) : cell :=
  if gtb_q q x then f x else x.

Definition when_between (a b : Q) (f : cell -> cell) (x : cell) : cell :=
  if gtb_q a x && ltb_q b x then f x else x.

Definition numeric_preserving (g : cell -> cell) : Prop :=
  forall x, numeric_cell x = true -> numeric_cell (g x) = true.

(* ------------------------------------------------------------------ *)
(** ** Statistics of a column *)

(** The non-missing values of a column, as numbers; a string or a
    timestamp among them is the TypeError of the reduction. *)
Fixpoint numeric_values (cs : list cell) : option (list Q) :=
  match cs with
  | [] => Some []
  | Num q :: cs' => option_map (cons q) (numeric_values cs')
  | NA :: cs' => numeric_values cs'
  | _ :: _ => None
  end.

Fixpoint insert_sorted (x : Q) (l : list Q) : list Q :=
  match l with
  | [] => [x]
  | y :: l' => if Qle_bool x y then x :: l else y :: insert_sorted x l'
  end.

Definition sort_values (l : list Q) : list Q := fold_right insert_sorted [] l.

(** The quantile of sorted values at [q], with linear interpolation
    between the two nearest ranks; [NA] when there is no value. *)
Definition quantile_sorted (sorted : list Q) (q : Q) : cell :=
  match sorted with
  | [] => NA
  | x0 :: _ =>
      let pos := q * inject_Z (Z.of_nat (length sorted - 1)) in
      let lo := Z.to_nat (Qfloor pos) in
      let frac := pos - inject_Z (Qfloor pos) in
      let a := nth lo sorted x0 in
      let b := nth (S lo) sorted a in
      Num (a + (b - a) * frac)
  end.

(** [s.quantile(q)] *)
Definition quantile (s : Series) (q : Q) : option cell :=
  option_map (fun vs => quantile_sorted (sort_values vs) q) (numeric_values (cells s)).

(** [s.median()]: the middle value, or the mean of the two middle values. *)
Definition median_sorted (sorted : list Q) : cell :=
  match sorted with
  | [] => NA
  | x0 :: _ =>
      let n := length sorted in
      if Nat.even n
      then Num ((nth (n / 2 - 1) sorted x0 + nth (n / 2) sorted x0) / 2)
      else Num (nth (n / 2) sorted x0)
  end.

Definition median (s : Series) : option cell :=
  option_map (fun vs => median_sorted (sort_values vs)) (numeric_values (cells s)).

(** Whether [abs] overflows on the value [x] of a column of dtype [d]: on
    an int64 column the absolute value of [-2^63] wraps around to [-2^63]. *)
Definition abs_overflows (d : dtype) (x : Q) : bool :=
  match d with
  | int64 => Qeq_bool x (inject_Z int64_min)
  | _ => false
  end.

(** [s.abs()] on a cell of a column of dtype [d]. *)
Definition cell_abs (d : dtype) (c : cell) : cell :=
  match c with
  | Num x => if abs_overflows d x then Num x else Num (Qabs x)
  | _ => c
  end.

(** [x.round()] on a cell: to the nearest integer, halves to the even one. *)

Definition round_half_even (x : Q) : Q :=
  let f := Qfloor x in
  let r := x - inject_Z f in
  if Qle_bool r (1 # 2) && negb (Qeq_bool r (1 # 2)) then inject_Z f
  else if negb (Qle_bool r (1 # 2)) then inject_Z (f + 1)
  else if Z.even f then inject_Z f else inject_Z (f + 1).

Definition cell_round (c : cell) : cell :=
  match c with
  | Num x => Num (round_half_even x)
  | _ => c
  end.

(** [sub in s] for strings. *)
Fixpoint contains (sub s : string) : bool :=
  String.prefix sub s ||
  match s with
  | EmptyString => false
  | String _ s' => contains sub s'
  end.

Module DomainLoanFixerStrategy.

Definition _fix_age_values (df : Table) : FixM Table :=
  (let* age := col df "Age" in
   let* negative_mask := lift (lt_scalar age 0) in
   let* df :=
     if Nat.ltb 0 (mask_sum negative_mask)
     then let* m := lift (median age) in
          _log_fixes (mask_sum negative_mask) ;;
          ret (loc_set df negative_mask "Age" (fun _ => m))
     else ret df in
   let* age := col df "Age" in
   let* high_mask := lift (gt_scalar age 100) in
   let* df := fix_where df high_mask "Age" (fun _ => Num 100) in
   let* age := col df "Age" in
   let* above := lift (gt_scalar age 0) in
   let* below := lift (lt_scalar age 18) in
   let low_mask := mask_and above below in
   fix_where df low_mask "Age" (fun _ => Num 18))%fixm.

Definition _fix_loan_amount (df : Table) : FixM Table :=
  (let* amount := col df "LoanAmount" in
   let* negative_mask := lift (lt_scalar amount 0) in
   let* df := fix_where df negative_mask "LoanAmount" (cell_abs (dt amount)) in
   let* amount := col df "LoanAmount" in
   let* high_mask := lift (gt_scalar amount 10000000) in
   fix_where df high_mask "LoanAmount" (fun _ => Num 10000000))%fixm.

Definition _fix_interest_rate (df : Table) : FixM Table :=
  (let* rate := col df "InterestRate" in
   let* negative_mask := lift (lt_scalar rate 0) in
   let* df := fix_where df negative_mask "InterestRate" (cell_abs (dt rate)) in
   let* rate := col df "InterestRate" in
   let* high_mask := lift (gt_scalar rate 100) in
   fix_where df high_mask "InterestRate" (fun _ => Num 100))%fixm.

Definition _fix_credit_score (df : Table) : FixM Table :=
  (let* score := col df "CreditScore" in
   let* negative_mask := lift (lt_scalar score 0) in
   let* df := fix_where df negative_mask "CreditScore" (fun _ => Num 300) in
   let* score := col df "CreditScore" in
   let* above := lift (gt_scalar score 0) in
   let* below := lift (lt_scalar score 300) in
   let low_mask := mask_and above below in
   let* df := fix_where df low_mask "CreditScore" (fun _ => Num 300) in
   let* score := col df "CreditScore" in
   let* high_mask := lift (gt_scalar score 850) in
   fix_where df high_mask "CreditScore" (fun _ => Num 850))%fixm.

Definition _fix_annual_income (df : Table) : FixM Table :=
  (let* income := col df "AnnualIncome" in
   let* negative_mask := lift (lt_scalar income 0) in
   let* df := fix_where df negative_mask "AnnualIncome" (cell_abs (dt income)) in
   let* income := col df "AnnualIncome" in
   let* high_mask := lift (gt_scalar income 100000000) in
   fix_where df high_mask "AnnualIncome" (fun _ => Num 100000000))%fixm.

(** [min(x, 20)] for the quantile [x]: Python keeps [x] unless [20 < x]. *)
Definition min_with_20 (x : cell) : cell :=
  match x with
  | Num a => if Qle_bool a 20 then Num a else Num 20
  | _ => x
  end.

Definition _fix_num_loans (df : Table) : FixM Table :=
  (let* loans := col df "NumLoans" in
   let* negative_mask := lift (lt_scalar loans 0) in
   let* df := fix_where df negative_mask "NumLoans" (fun _ => Num 0) in
   let* loans := col df "NumLoans" in
   let* high_mask := lift (gt_scalar loans 100) in
   if Nat.ltb 0 (mask_sum high_mask)
   then let* q99 := lift (quantile loans (99 # 100)) in
        let cap_value := min_with_20 q99 in
        _log_fixes (mask_sum high_mask) ;;
        ret (loc_set df high_mask "NumLoans" (fun _ => cap_value))
   else ret df)%fixm.

(** [isinstance(x, float) and x % 1 != 0]: a number that is not whole; a
    NaN of a numeric column counts as well. *)
Definition non_integer (d : dtype) (c : cell) : bool :=
  match c with
  | Num x => negb (Qeq_bool x (inject_Z (Qfloor x)))
  | NA => match d with number => true | _ => false end
  | _ => false
  end.

Definition is_count_column (c : string) : bool :=
  String.prefix "Num_" c || contains "Count" c || contains "Number" c.

(** The body of [for col in count_cols]. *)
Definition fix_count_column (df : Table) (c : string) : FixM Table :=
  if negb (has_col df c) then ret df
  else
    (let* s := col df c in
     let* negative_mask := lift (lt_scalar s 0) in
     let* df := fix_where df negative_mask c (fun _ => Num 0) in
     let* s := col df c in
     let non_integer_mask := map (non_integer (dt s)) (cells s) in
     fix_where df non_integer_mask c cell_round)%fixm.

Fixpoint for_each (cols : list string) (body : Table -> string -> FixM Table)
    (df : Table) : FixM Table :=
  match cols with
  | [] => ret df
  | c :: cols' => (let* df := body df c in for_each cols' body df)%fixm
  end.

Definition _fix_count_columns (df : Table) : FixM Table :=
  let count_cols := List.filter is_count_column (columns df) in
  for_each count_cols fix_count_column df.

Definition _fix (df : Table) : FixM Table :=
  if empty df then ret df
  else
    (let* df := whenM (has_col df "Age") _fix_age_values df in
     let* df := whenM (has_col df "LoanAmount") _fix_loan_amount df in
     let* df := whenM (has_col df "InterestRate") _fix_interest_rate df in
     let* df := whenM (has_col df "CreditScore") _fix_credit_score df in
     let* df := whenM (has_col df "AnnualIncome") _fix_annual_income df in
     let* df := whenM (has_col df "NumLoans") _fix_num_loans df in
     _fix_count_columns df)%fixm.

Definition strategy : FixerStrategy := mkFixer "DomainLoanFixerStrategy" _fix.

End DomainLoanFixerStrategy.

(* ------------------------------------------------------------------ *)
(** ** More column operations *)

(** The numbers of a numeric column, missing values dropped. *)
Fixpoint number_values (cs : list cell) : list Q :=
  match cs with
  | [] => []
  | Num q :: cs' => q :: number_values cs'
  | _ :: cs' => number_values cs'
  end.

(** [x == y] on cells: a missing value equals nothing, not even itself. *)
Definition cell_eqb (x y : cell) : bool :=
  match x, y with
  | Num a, Num b => Qeq_bool a b
  | Str a, Str b => String.eqb a b
  | Date a, Date b => Z.eqb a b
  | _, _ => false
  end.

Definition is_na (c : cell) : bool :=
  match c with
  | NA => true
  | _ => false
  end.

(** The distinct non-missing values, in order of first appearance. *)
Fixpoint unique (cs : list cell) : list cell :=
  match cs with
  | [] => []
  | c :: cs' =>
      if is_na c then unique cs'
      else c :: List.filter (fun x => negb (cell_eqb x c)) (unique cs')
  end.

(** [s.nunique()] *)
Definition nunique (s : Series) : nat := length (unique (cells s)).

(** [s.isnull().mean() > 0.5] *)
Definition mostly_null (s : Series) : bool :=
  Nat.ltb (length (cells s)) (2 * length (List.filter is_na (cells s))).

Definition count_of_value (v : cell) (cs : list cell) : nat :=
  length (List.filter (cell_eqb v) cs).

(** Insertion by decreasing count, in front of the entries that have the
    same count. *)
Fixpoint insert_by_count (p : cell * nat) (l : list (cell * nat)) : list (cell * nat) :=
  match l with
  | [] => [p]
  | q :: l' => if Nat.leb (snd q) (snd p) then p :: l else q :: insert_by_count p l'
  end.

(** [s.value_counts()]: each distinct non-missing value with its number of
    occurrences, most frequent first; equally frequent values keep their
    order of first appearance (the distinct values are inserted last to
    first, each in front of the entries with the same count). *)
Definition value_counts (cs : list cell) : list (cell * nat) :=
  fold_right insert_by_count [] (map (fun v => (v, count_of_value v cs)) (unique cs)).

(** An order on cells for sorting group keys: numbers, then strings, then
    timestamps. *)
Definition cell_leb (x y : cell) : bool :=
  match x, y with
  | Num a, Num b => Qle_bool a b
  | Num _, _ => true
  | Str a, Str b => String.leb a b
  | Str _, Num _ => false
  | Str _, _ => true
  | Date a, Date b => Z.leb a b
  | Date _, NA => true
  | Date _, _ => false
  | NA, NA => true
  | NA, _ => false
  end.

Fixpoint insert_cell (x : cell) (l : list cell) : list cell :=
  match l with
  | [] => [x]
  | y :: l' => if cell_leb x y then x :: l else y :: insert_cell x l'
  end.

(** The group keys of [df.groupby(key)]: the distinct non-missing values of
    the key column, sorted. *)
Definition group_ids (key_cells : list cell) : list cell :=
  fold_right insert_cell [] (unique key_cells).

Fixpoint insert_string (x : string) (l : list string) : list string :=
  match l with
  | [] => [x]
  | y :: l' => if String.leb x y then x :: l else y :: insert_string x l'
  end.

(** [sorted(names)] *)
Definition sorted_strings (l : list string) : list string := fold_right insert_string [] l.

(** [c.lower()] on ASCII. *)
Definition lower_ascii (a : ascii) : ascii :=
  let n := nat_of_ascii a in
  if Nat.leb 65 n && Nat.leb n 90 then ascii_of_nat (n + 32) else a.

Fixpoint lower (s : string) : string :=
  match s with
  | EmptyString => EmptyString
  | String a s' => String (lower_ascii a) (lower s')
  end.

Module OutlierFixerStrategy.
Section Impl.
Variable config : Config.

Definition default_id_columns : list string :=
  ["Customer_ID"; "CustomerID"; "ID"; "User_ID"; "UserID"; "UserName"].

Definition _find_groupby_key_cached (column_names_tuple : list string) : option string :=
  let id_columns :=
    List.filter (fun col => existsb (String.eqb (lower col)) (map lower default_id_columns))
      column_names_tuple in
  match id_columns with
  | [] => None
  | c :: _ => Some c
  end.

Definition _find_groupby_key (df : Table) : option string :=
  _find_groupby_key_cached (sorted_strings (columns df)).

Definition domain_specific_columns (dataset_name : string) : option (list string) :=
  if String.eqb dataset_name "Loan"
  then Some ["Age"; "AnnualIncome"; "CreditScore"; "InterestRate"; "LoanAmount";
             "DebtToIncomeRatio"]
  else if String.eqb dataset_name "Fraud" then Some ["TransactionAmount"; "DistanceFromHome"]
  else if String.eqb dataset_name "Market"
  then Some ["OpenValue"; "CloseValue"; "HighestValue"; "LowestValue"; "VIX"; "TEDSpread"]
  else if String.eqb dataset_name "Macro" then Some ["UnemploymentRate"; "GDP"; "InflationRate"]
  else None.

(** Called on the names of [numeric_cols] only, which are columns of [df]. *)
Definition _should_skip_column (col : string) (df : Table) (dataset_name : string) : bool :=
  match get_col df col with
  | None => true
  | Some s =>
      if (contains "id" (lower col) && negb (contains "ratio" (lower col)))
         || Nat.leb (nunique s) 2
         || mostly_null s
      then true
      else
        match domain_specific_columns dataset_name with
        | Some cols => existsb (String.eqb col) cols
        | None => false
        end
  end.

(** [_calculate_bounds_cached]; [None] stands for [(None, None)], returned
    when the IQR is zero, and also for the NaN bounds of a column without
    values, which no value is below or above. *)
Definition _calculate_bounds_cached (q1 q3 : cell) (threshold : Q) : option (Q * Q) :=
  match q1, q3 with
  | Num q1, Num q3 =>
      let iqr := q3 - q1 in
      if Qeq_bool iqr 0 then None
      else Some (q1 - threshold * iqr, q3 + threshold * iqr)
  | _, _ => None
  end.

(** [_calculate_bounds], on a column of dtype number. *)
Definition _calculate_bounds (series : Series) (threshold : Q) : option (Q * Q) :=
  let values := sort_values (number_values (cells series)) in
  let q1 := quantile_sorted values (1 # 4) in
  let q3 := quantile_sorted values (3 # 4) in
  _calculate_bounds_cached q1 q3 threshold.

(** [_fix_outliers_with_bounds] without a condition: both masks are taken
    before either assignment.  Returns the table and [fix_count]. *)
Definition _fix_outliers_with_bounds (df : Table) (col : string) (lower_bound upper_bound : Q)
  : Table * nat :=
  match get_col df col with
  | None => (df, 0%nat)
  | Some s =>
      let lower_mask := map (ltb_q lower_bound) (cells s) in
      let upper_mask := map (gtb_q upper_bound) (cells s) in
      let '(df, fix_count) :=
        if mask_any lower_mask
        then (loc_set df lower_mask col (fun _ => Num lower_bound), mask_sum lower_mask)
        else (df, 0%nat) in
      if mask_any upper_mask
      then (loc_set df upper_mask col (fun _ => Num upper_bound),
            (fix_count + mask_sum upper_mask)%nat)
      else (df, fix_count)
  end.

Definition _fix_global_outliers (df : Table) (col : string) (threshold : Q) : Table * nat :=
  match get_col df col with
  | None => (df, 0%nat)
  | Some s =>
      match _calculate_bounds s threshold with
      | None => (df, 0%nat)
      | Some (lower_bound, upper_bound) =>
          _fix_outliers_with_bounds df col lower_bound upper_bound
      end
  end.

(** The body of [for group_id, group_df in df.groupby(groupby_key)].
    [key0] and [col0] are the two columns as the groupby saw them; the
    masks are taken on the table as it is now. *)
Definition fix_group (col groupby_key : string) (key0 col0 : list cell)
    (acc : Table * nat) (group_id : cell) : Table * nat :=
  let '(df, total_fix_count) := acc in
  let members := map (cell_eqb group_id) key0 in
  let n := mask_sum members in
  if Nat.ltb n 3 then acc
  else
    match value_counts (select members col0) with
    | (expected_value, top) :: _ =>
        if Nat.leb (n - 2) top then
          match get_col df groupby_key, get_col df col with
          | Some k, Some c =>
              let group_condition :=
                mask_and (map (cell_eqb group_id) (cells k))
                         (map (fun x => negb (cell_eqb x expected_value)) (cells c)) in
              let fix_count := mask_sum group_condition in
              if Nat.ltb 0 fix_count
              then (loc_set df group_condition col (fun _ => expected_value),
                    (total_fix_count + fix_count)%nat)
              else acc
          | _, _ => acc
          end
        else acc
    | [] => acc
    end.

Definition _fix_group_outliers (df : Table) (col groupby_key : string) (threshold : Q)
  : Table * nat :=
  match get_col df groupby_key, get_col df col with
  | Some k, Some c =>
      fold_left (fix_group col groupby_key (cells k) (cells c))
        (group_ids (cells k)) (df, 0%nat)
  | _, _ => (df, 0%nat)
  end.

(** [select_dtypes(include=['number']).columns] *)
Definition numeric_cols (df : Table) : list string :=
  map fst (List.filter (fun p => match dt (snd p) with number | int64 => true | _ => false end)
             df).

(** Step 1 of the loop body: the group correction, when a key exists. *)
Definition group_stage (groupby_key : option string) (df : Table) (col : string)
  : Table * nat :=
  match groupby_key with
  | Some key => _fix_group_outliers df col key (outlier_threshold config)
  | None => (df, 0%nat)
  end.

(** The body of [for col in numeric_cols]. *)
Definition fix_column (groupby_key : option string) (acc : Table * nat) (col : string)
  : Table * nat :=
  let '(df, total) := acc in
  if _should_skip_column col df (current_dataset config) then acc
  else
    let '(df, group_fix_count) := group_stage groupby_key df col in
    let '(df, fix_count) := _fix_global_outliers df col (outlier_threshold config) in
    (df, (total + group_fix_count + fix_count)%nat).

(** [_fix] proper: the table and the number of fixes it logs. *)
Definition fix_columns (df : Table) : Table * nat :=
  if empty df then (df, 0%nat)
  else fold_left (fix_column (_find_groupby_key df)) (numeric_cols df) (df, 0%nat).

(** No comparison of this strategy raises: it only compares columns of
    dtype number with numbers. *)
Definition _fix (df : Table) : FixM Table :=
  fun n => let '(df, fixes) := fix_columns df in (Some df, (n + fixes)%nat).

Definition strategy : FixerStrategy := mkFixer "OutlierFixerStrategy" _fix.

End Impl.
End OutlierFixerStrategy.

(* ------------------------------------------------------------------ *)
(** ** Comparing two columns *)

(** [x < y] on cells: false when either is missing, TypeError across types. *)
Definition cell_lt (x y : cell) : option bool :=
  match x, y with
  | NA, _ | _, NA => Some false
  | Num a, Num b => Some (negb (Qle_bool b a))
  | Str a, Str b => Some (String.ltb a b)
  | Date a, Date b => Some (Z.ltb a b)
  | _, _ => None
  end.

Fixpoint zipM {A B C : Type} (f : A -> B -> option C) (l1 : list A) (l2 : list B)
  : option (list C) :=
  match l1, l2 with
  | x :: l1', y :: l2' =>
      match f x y with
      | Some z => match zipM f l1' l2' with Some zs => Some (z :: zs) | None => None end
      | None => None
      end
  | _, _ => Some []
  end.

(** [a < b] and [a > b] for two columns of one table. *)
Definition lt_series (a b : Series) : option (list bool) := zipM cell_lt (cells a) (cells b).
Definition gt_series (a b : Series) : option (list bool) := lt_series b a.

(** [x > t] and [x < t] for a timestamp [t], on a cell of a datetime
    column: false for a missing value. *)
Definition after (t : Z) (c : cell) : bool :=
  match c with
  | Date d => Z.ltb t d
  | _ => false
  end.

Definition before (t : Z) (c : cell) : bool :=
  match c with
  | Date d => Z.ltb d t
  | _ => false
  end.

(** [s > t] and [s < t] for the naive timestamp [t] that [datetime.now()]
    returns.  A datetime column without a time zone is compared cell by
    cell; a column with a time zone cannot be compared with a naive
    timestamp (TypeError), and neither can a column of numbers; an object
    column is compared cell by cell and raises on a cell that is no
    timestamp. *)
Definition cmp_timestamp (f : cell -> bool) (s : Series) : option (list bool) :=
  match dt s with
  | datetime => Some (map f (cells s))
  | object =>
      mapM (fun c => match c with
                     | Date _ => Some (f c)
                     | NA => Some false
                     | _ => None
                     end) (cells s)
  | _ => None
  end.

Definition gt_timestamp (s : Series) (t : Z) : option (list bool) := cmp_timestamp (after t) s.
Definition lt_timestamp (s : Series) (t : Z) : option (list bool) := cmp_timestamp (before t) s.

(** [pd.api.types.is_datetime64_any_dtype] *)
Definition is_datetime64_any_dtype (s : Series) : bool :=
  match dt s with
  | datetime | datetimetz => true
  | _ => false
  end.

(** The date column [c] can be compared with a tz-naive timestamp once the
    date fixers have converted it: it is absent, or a tz-naive datetime
    column, or a column of no datetime dtype that [pd.to_datetime] either
    rejects or turns into a tz-naive datetime column. *)
Definition naive_dates (to_datetime : Series -> option Series) (df : Table) (c : string)
  : bool :=
  match get_col df c with
  | None => true
  | Some s =>
      match dt s with
      | datetime => true
      | datetimetz => false
      | _ => match to_datetime s with
             | None => true
             | Some s' => match dt s' with datetime => true | _ => false end
             end
      end
  end.

(** No cell of column [c] is the smallest int64 of an int64 column, the one
    value on which [abs] overflows. *)
Definition no_abs_overflow (df : Table) (c : string) : bool :=
  match get_col df c with
  | Some s =>
      forallb (fun x => match x with
                        | Num r => negb (abs_overflows (dt s) r)
                        | _ => true
                        end) (cells s)
  | None => true
  end.

(** The larger and the smaller of two cells, missing values skipped. *)
Definition cell_max (x y : cell) : cell :=
  match x, y with
  | Num a, Num b => if Qle_bool a b then Num b else Num a
  | Num a, _ => Num a
  | _, _ => y
  end.

Definition cell_min (x y : cell) : cell :=
  match x, y with
  | Num a, Num b => if Qle_bool a b then Num a else Num b
  | Num a, _ => Num a
  | _, _ => y
  end.

Fixpoint map2 {A : Type} (f : A -> A -> A) (l1 l2 : list A) : list A :=
  match l1, l2 with
  | x :: l1', y :: l2' => f x y :: map2 f l1' l2'
  | _, _ => []
  end.

Module DomainMarketFixerStrategy.
Section Impl.
(** [datetime.now()], and [pd.to_datetime] on a column ([None]: it raises). *)
Variable now : Z.
Variable to_datetime : Series -> option Series.

Definition price_cols : list string :=
  ["OpenValue"; "CloseValue"; "HighestValue"; "LowestValue"].

(** [q1 - m * iqr] and [q3 + m * iqr] on the quartiles, NaN going through. *)
Definition below_q1 (q1 q3 : cell) (m : Q) : cell :=
  match q1, q3 with
  | Num a, Num b => Num (a - m * (b - a))
  | _, _ => NA
  end.

Definition above_q3 (q1 q3 : cell) (m : Q) : cell :=
  match q1, q3 with
  | Num a, Num b => Num (b + m * (b - a))
  | _, _ => NA
  end.

(** [max(0, x)]: Python keeps 0 unless [x > 0], so also for a NaN. *)
Definition max_with_0 (x : cell) : Q :=
  match x with
  | Num a => if Qle_bool a 0 then 0 else a
  | _ => 0
  end.

(** [df[col] > upper_bound], all false for a NaN bound. *)
Definition gt_bound (s : Series) (upper_bound : cell) : option (list bool) :=
  match upper_bound with
  | Num u => gt_scalar s u
  | _ => Some (map (fun _ => false) (cells s))
  end.

(** STEP 2, the body of [for col in price_cols]. *)
Definition cap_price_outliers (df : Table) (c : string) : FixM Table :=
  (let* s := col df c in
   let* q1 := lift (quantile s (1 # 4)) in
   let* q3 := lift (quantile s (3 # 4)) in
   let m := if String.eqb c "HighestValue" then 1 else 3 # 2 in
   let lower_bound := max_with_0 (below_q1 q1 q3 m) in
   let upper_bound := above_q3 q1 q3 m in
   let* below := lift (lt_scalar s lower_bound) in
   let* above := lift (gt_bound s upper_bound) in
   let outliers := mask_or below above in
   if mask_any outliers then
     let df := loc_set df below c (fun _ => Num lower_bound) in
     let* s := col df c in
     let* above := lift (gt_bound s upper_bound) in
     let df := loc_set df above c (fun _ => upper_bound) in
     _log_fixes (mask_sum outliers) ;; ret df
   else ret df)%fixm.

(** STEP 3, the body of [for col in ['OpenValue', 'CloseValue']]. *)
Definition clamp_to_range (valid_mask : list bool) (df : Table) (c : string) : FixM Table :=
  (let* s := col df c in
   let* high := col df "HighestValue" in
   let* above := lift (gt_series s high) in
   let too_high := mask_and valid_mask above in
   let* df :=
     if mask_any too_high
     then _log_fixes (mask_sum too_high) ;; ret (loc_set_from df too_high c (cells high))
     else ret df in
   let* s := col df c in
   let* low := col df "LowestValue" in
   let* below := lift (lt_series s low) in
   let too_low := mask_and valid_mask below in
   if mask_any too_low
   then _log_fixes (mask_sum too_low) ;; ret (loc_set_from df too_low c (cells low))
   else ret df)%fixm.

Fixpoint for_each (cols : list string) (body : Table -> string -> FixM Table)
    (df : Table) : FixM Table :=
  match cols with
  | [] => ret df
  | c :: cols' => (let* df := body df c in for_each cols' body df)%fixm
  end.

Definition _fix_price_relationships (df : Table) : FixM Table :=
  if negb (forallb (has_col df) price_cols) then ret df
  else
    (let* open := col df "OpenValue" in
     let* close := col df "CloseValue" in
     let* high := col df "HighestValue" in
     let* low := col df "LowestValue" in
     let valid_mask :=
       mask_and (mask_and (notna open) (notna close)) (mask_and (notna high) (notna low)) in
     if negb (mask_any valid_mask) then ret df
     else
       (* STEP 1 *)
       let* inverted := lift (lt_series high low) in
       let invalid_high_low := mask_and valid_mask inverted in
       let* df :=
         if mask_any invalid_high_low then
           let invalid_count := mask_sum invalid_high_low in
           let temp := cells high in
           let df := loc_set_from df invalid_high_low "HighestValue" (cells low) in
           let df := loc_set_from df invalid_high_low "LowestValue" temp in
           let* high := col df "HighestValue" in
           let* low := col df "LowestValue" in
           let* inverted := lift (lt_series high low) in
           let still_invalid := mask_and valid_mask inverted in
           let* df :=
             if mask_any still_invalid then
               let* open := col df "OpenValue" in
               let* close := col df "CloseValue" in
               let highest :=
                 map2 cell_max (map2 cell_max (cells open) (cells close))
                      (map2 cell_max (cells high) (cells low)) in
               let df := loc_set_from df still_invalid "HighestValue" highest in
               let* high := col df "HighestValue" in
               let lowest :=
                 map2 cell_min (map2 cell_min (cells open) (cells close))
                      (map2 cell_min (cells high) (cells low)) in
               ret (loc_set_from df still_invalid "LowestValue" lowest)
             else ret df in
           _log_fixes invalid_count ;; ret df
         else ret df in
       (* STEP 2 *)
       let* df := for_each price_cols cap_price_outliers df in
       (* STEP 3 *)
       let* df := for_each ["OpenValue"; "CloseValue"] (clamp_to_range valid_mask) df in
       (* FINAL CHECK: a residual inversion is logged, nothing is changed *)
       let* high := col df "HighestValue" in
       let* low := col df "LowestValue" in
       let* inverted := lift (lt_series high low) in
       ret df)%fixm.

Definition _fix_negative_prices (df : Table) (c : string) : FixM Table :=
  (let* s := col df c in
   let* negative_mask := lift (lt_scalar s 0) in
   fix_where df negative_mask c (cell_abs (dt s)))%fixm.

Definition _fix_interest_rates (df : Table) : FixM Table :=
  (let* rate := col df "InterestRate" in
   let* negative_mask := lift (lt_scalar rate 0) in
   let* df := fix_where df negative_mask "InterestRate" (fun _ => Num 0) in
   let* rate := col df "InterestRate" in
   let* high_mask := lift (gt_scalar rate 30) in
   fix_where df high_mask "InterestRate" (fun _ => Num 30))%fixm.

Definition _fix_market_dates (df : Table) : FixM Table :=
  (let* dates := col df "MarketDate" in
   let converted :=
     if is_datetime64_any_dtype dates then Some df
     else option_map (set_col df "MarketDate") (to_datetime dates) in
   match converted with
   | None => ret df
   | Some df =>
       let* dates := col df "MarketDate" in
       let today := now in
       let* future_mask := lift (gt_timestamp dates today) in
       fix_where df future_mask "MarketDate" (fun _ => Date today)
   end)%fixm.

Definition _fix (df : Table) : FixM Table :=
  if empty df then ret df
  else
    (let* df := whenM (forallb (has_col df) price_cols) _fix_price_relationships df in
     let* df :=
       for_each price_cols
         (fun df c => whenM (has_col df c) (fun df => _fix_negative_prices df c) df) df in
     let* df := whenM (has_col df "InterestRate") _fix_interest_rates df in
     whenM (has_col df "MarketDate") _fix_market_dates df)%fixm.

Definition strategy : FixerStrategy := mkFixer "DomainMarketFixerStrategy" _fix.

End Impl.
End DomainMarketFixerStrategy.

(** Group keys that are pairwise different. *)
Fixpoint distinct (l : list cell) : Prop :=
  match l with
  | [] => True
  | x :: l' => Forall (fun y => cell_eqb y x = false) l' /\ distinct l'
  end.

(** The invariant of the loop over the groups: the key column is the one the
    groupby saw, and the corrected column still has one cell per row. *)
Definition group_inv (col key : string) (key0 : list cell) (df : Table) : Prop :=
  (exists k, get_col df key = Some k /\ cells k = key0) /\
  (exists c, get_col df col = Some c /\ length (cells c) = length key0).

(** The columns [DomainLoanFixerStrategy] compares with numbers. *)
Definition loan_field (c : string) : bool :=
  existsb (String.eqb c)
    ["Age"; "LoanAmount"; "InterestRate"; "CreditScore"; "AnnualIncome"; "NumLoans"]
  || DomainLoanFixerStrategy.is_count_column c.

Definition loan_columns_numeric (df : Table) : bool :=
  forallb (fun p => negb (loan_field (fst p)) || numeric_series (snd p)) df.

(** The median the fixer would store in place of a negative age. *)
Definition median_or_na (df : Table) (c : string) : cell :=
  match get_col df c with
  | Some s => match median s with Some m => m | None => NA end
  | None => NA
  end.

(** What [_fix_age_values] does to one cell, for the median [m] of the
    column, and what [_fix_credit_score] does to one cell. *)
Definition age_cell (m : cell) (x : cell) : cell :=
  when_between 0 18 (fun _ => Num 18)
    (when_gt 100 (fun _ => Num 100) (when_lt 0 (fun _ => m) x)).

Definition score_cell (x : cell) : cell :=
  when_gt 850 (fun _ => Num 850)
    (when_between 0 300 (fun _ => Num 300) (when_lt 0 (fun _ => Num 300) x)).

(** What [_fix_loan_amount], [_fix_interest_rate] and [_fix_annual_income]
    do to one cell of a column of dtype [d], for their cap. *)
Definition abs_cap_cell (d : dtype) (cap : Q) (x : cell) : cell :=
  when_gt cap (fun _ => Num cap) (when_lt 0 (cell_abs d) x).

(** What [_fix_num_loans] does to one cell, for the 99th percentile [q99]
    that it takes, and that percentile: the one of the column after its
    negative counts were set to 0. *)
Definition num_loans_cell (q99 : cell) (x : cell) : cell :=
  when_gt 100 (fun _ => DomainLoanFixerStrategy.min_with_20 q99)
    (when_lt 0 (fun _ => Num 0) x).

Definition num_loans_q99 (df : Table) : cell :=
  match get_col df "NumLoans" with
  | Some s =>
      match quantile (mkSeries (dt s) (map (when_lt 0 (fun _ => Num 0)) (cells s)))
                     (99 # 100) with
      | Some q => q
      | None => NA
      end
  | None => NA
  end.

Module DataConsistencyFixerStrategy.
Section Impl.
Variable config : Config.
(** The Loan and Market branches divide columns by one another and so
    depend on float infinities; the properties proved here hold whatever
    they do. *)
Variable _fix_loan_consistency : Table -> FixM Table.
Variable _fix_market_consistency : Table -> FixM Table.

Definition _fix_fraud_indicator_consistency (df : Table) : FixM Table :=
  (let* online := col df "IsOnlineTransaction" in
   let* chip := col df "IsUsedChip" in
   let online_with_chip := mask_and (eq_scalar online 1) (eq_scalar chip 1) in
   let* df :=
     if Nat.ltb 0 (mask_sum online_with_chip)
     then _log_fixes (mask_sum online_with_chip) ;;
          ret (loc_set df online_with_chip "IsUsedChip" (fun _ => Num 0))
     else ret df in
   let* online := col df "IsOnlineTransaction" in
   let* pin := col df "IsUsedPIN" in
   let online_with_pin := mask_and (eq_scalar online 1) (eq_scalar pin 1) in
   if Nat.ltb 0 (mask_sum online_with_pin)
   then _log_fixes (mask_sum online_with_pin) ;;
        ret (loc_set df online_with_pin "IsUsedPIN" (fun _ => Num 0))
   else ret df)%fixm.

Definition _fix_fraud_consistency (df : Table) : FixM Table :=
  if forallb (has_col df)
       ["IsFraudulent"; "IsOnlineTransaction"; "IsUsedChip"; "IsUsedPIN"]
  then _fix_fraud_indicator_consistency df
  else ret df.

Definition _fix (df : Table) : FixM Table :=
  if empty df then ret df
  else
    let dataset_name := current_dataset config in
    if String.eqb dataset_name "Loan" then _fix_loan_consistency df
    else if String.eqb dataset_name "Market" then _fix_market_consistency df
    else if String.eqb dataset_name "Fraud" then _fix_fraud_consistency df
    else ret df.

Definition strategy : FixerStrategy :=
  mkFixer "DataConsistencyFixerStrategy" _fix.
End Impl.
End DataConsistencyFixerStrategy.


(* ================================================================== *)
(** * 4. validators.py *)
(* ================================================================== *)

(** An entry of a result's ["issues"] list (its ["details"] are left out). *)
Record Issue := mkIssue {
  issue_type : string;
  message : string;
  severity : string;
  field : option string
}.

(** What [ValidationStrategy.validate] returns.  ["quality_metrics"] stays
    the empty dict in every strategy of the repository and is left out. *)
Record StrategyResult := mkStrategyResult {
  status : string;
  issues : list Issue;
  tests_passed : nat;
  tests_failed : nat
}.

(** A validation strategy is its class name and its [_validate_impl], which
    only reads the table: it returns the issues it added, in order, and the
    number of [_test_passed] calls, or raises ([inl], with [str(e)]). *)
Record ValidationStrategy := mkValidationStrategy {
  vname : string;
  _validate_impl : Table -> string + (list Issue * nat)
}.

Definition has_severity (sev : string) (i : Issue) : bool := String.eqb (severity i) sev.

(** [ValidationStrategy.validate] *)
Definition validate (s : ValidationStrategy) (df : Table) : StrategyResult :=
  match _validate_impl s df with
  | inr (_issues, passed) =>
      let status :=
        if existsb (has_severity "critical") _issues then "failed"
        else if existsb (has_severity "warning") _issues then "warning"
        else "passed" in
      mkStrategyResult status _issues passed (length _issues)
  | inl e =>
      mkStrategyResult "error" [mkIssue "exception" e "critical" None] 0 1
  end.

(** [ValidationPipelineStep.execute]: the result of [validate] is dropped. *)
Definition ValidationPipelineStep_execute (strategy : ValidationStrategy) (df : Table) : Table :=
  let validation_result := validate strategy df in
  df.

(** An entry of ["steps"]: name, status and number of issues of one step. *)
Record StepSummary := mkStepSummary {
  step_name : string;
  step_status : string;
  step_issues_count : nat
}.

(** The dict [ValidationPipeline.process] returns (timings left out).  The
    score is the float [100.0] or the int [max(0, 100 - penalty)]. *)
Record ValidationResults := mkValidationResults {
  v_status : string;
  v_steps : list StepSummary;
  v_issues : list Issue;
  validation_pass : nat;
  dataset_quality_score : Z;
  report_generated : bool;
  issues_count : option nat
}.

(** The local variables of the loop of [ValidationPipeline.process]. *)
Record ProcessLoop := mkProcessLoop {
  l_status : string;
  l_steps : list StepSummary;
  all_issues : list Issue;
  critical_count : nat;
  warning_count : nat
}.

(** [for issue in issues: ...] *)
Fixpoint count_severities (issues : list Issue) (critical warning : nat) : nat * nat :=
  match issues with
  | [] => (critical, warning)
  | issue :: rest =>
      if String.eqb (severity issue) "critical"
      then count_severities rest (S critical) warning
      else if String.eqb (severity issue) "warning"
      then count_severities rest critical (S warning)
      else count_severities rest critical warning
  end.

(** The counters of the loop count the issues gathered so far. *)
Definition loop_inv (acc : ProcessLoop) : Prop :=
  critical_count acc = length (List.filter (has_severity "critical") (all_issues acc)) /\
  warning_count acc = length (List.filter (has_severity "warning") (all_issues acc)).

(** One iteration of [for step_idx, step in enumerate(self._steps)].  Its
    handler is never entered: [validate] catches every exception itself. *)
Definition process_step (df : Table) (acc : ProcessLoop) (strategy : ValidationStrategy)
  : ProcessLoop :=
  let step_result := validate strategy df in
  let steps := (l_steps acc ++
    [mkStepSummary (vname strategy) (status step_result) (length (issues step_result))])%list in
  let issues := issues step_result in
  let '(all_issues, (critical, warning)) :=
    match issues with
    | [] => (all_issues acc, (critical_count acc, warning_count acc))
    | _ => ((all_issues acc ++ issues)%list,
            count_severities issues (critical_count acc) (warning_count acc))
    end in
  let status :=
    if String.eqb (status step_result) "failed" then "failed"
    else if String.eqb (status step_result) "warning"
            && negb (String.eqb (l_status acc) "failed")
    then "warning"
    else l_status acc in
  mkProcessLoop status steps all_issues critical warning.

(** [ValidationPipeline.process], on the pipeline's steps and its
    [_validation_count]; returns the results and the new count. *)
Definition process (steps : list ValidationStrategy) (_validation_count : nat) (df : Table)
  : ValidationResults * nat :=
  let _validation_count := S _validation_count in
  if empty df then
    (mkValidationResults "failed" []
       [mkIssue "empty_dataframe" "Empty dataframe provided for validation" "critical" None]
       _validation_count 100 false None,
     _validation_count)
  else
    let acc := fold_left (process_step df) steps (mkProcessLoop "passed" [] [] 0 0) in
    let score :=
      match all_issues acc with
      | [] => 100%Z
      | _ =>
          let penalty := (Z.of_nat (critical_count acc) * 10
                          + Z.of_nat (warning_count acc) * 2)%Z in
          Z.max 0 (100 - penalty)
      end in
    (mkValidationResults (l_status acc) (l_steps acc) (all_issues acc)
       _validation_count score false (Some (length (all_issues acc))),
     _validation_count).

(** The issues returned by the strategies that a validation run executes:
    none is executed on an empty table. *)
Definition strategy_issues (steps : list ValidationStrategy) (df : Table) : list Issue :=
  if empty df then [] else flat_map (fun s => issues (validate s df)) steps.

Definition count_severity (sev : string) (l : list Issue) : Z :=
  Z.of_nat (length (List.filter (has_severity sev) l)).

(* ================================================================== *)
(** * 5. engine.py *)
(* ================================================================== *)

(** ** CacheManager *)

(** The memory tier, the files [<key>.pkl] of the cache directory, keyed by
    [<key>], and whether that directory can be written. *)
Record CacheManager := mkCacheManager {
  _memory_cache : gmap string Table;
  disk_cache : gmap string Table;
  disk_writable : bool;
  _enabled : bool
}.

(** [f"{dataset_name}_{step_name}"] *)
Definition cache_key (dataset_name step_name : string) : string :=
  dataset_name ++ "_" ++ step_name.

Definition get_from_cache (cm : CacheManager) (dataset_name step_name : string)
  : option Table * CacheManager :=
  if negb (_enabled cm) then (None, cm)
  else
    let key := cache_key dataset_name step_name in
    match _memory_cache cm !! key with
    | Some df => (Some df, cm)
    | None =>
        match disk_cache cm !! key with
        | Some df =>
            (Some df,
             mkCacheManager (<[key := df]> (_memory_cache cm)) (disk_cache cm)
               (disk_writable cm) (_enabled cm))
        | None => (None, cm)
        end
    end.

Definition save_to_cache (cm : CacheManager) (df : Table) (dataset_name step_name : string)
  : CacheManager :=
  if negb (_enabled cm) || empty df then cm
  else
    let key := cache_key dataset_name step_name in
    mkCacheManager (<[key := df]> (_memory_cache cm))
      (if disk_writable cm then <[key := df]> (disk_cache cm) else disk_cache cm)
      (disk_writable cm) (_enabled cm).

(** [k.startswith(f"{dataset_name}_")]; the glob [f"{dataset_name}_*.pkl"]
    selects the same keys on disk for a name without glob metacharacters. *)
Definition key_of_dataset (dataset_name key : string) : bool :=
  String.prefix (dataset_name ++ "_") key.

Definition drop_dataset (dataset_name : string) (m : gmap string Table) : gmap string Table :=
  filter (fun kv => key_of_dataset dataset_name (fst kv) = false) m.

(** [clear_cache]; [None] and the empty name both take the [else] branch. *)
Definition clear_cache (cm : CacheManager) (dataset_name : option string) : CacheManager :=
  if negb (_enabled cm) then cm
  else
    match dataset_name with
    | Some (String a n) =>
        mkCacheManager (drop_dataset (String a n) (_memory_cache cm))
          (drop_dataset (String a n) (disk_cache cm)) (disk_writable cm) (_enabled cm)
    | _ => mkCacheManager ∅ ∅ (disk_writable cm) (_enabled cm)
    end.

(** ** Pipeline steps *)

(** A [ValidationPipeline] object: its identity, and its steps.  Its
    [_validation_count] lives in the store of the executor, because the
    pre-fix and the post-fix step share one pipeline. *)
Record ValidationPipeline := mkValidationPipeline {
  pipeline_id : nat;
  pipeline_steps : list ValidationStrategy
}.

Record DataValidationStep := mkDataValidationStep {
  _validator : ValidationPipeline;
  _post_fixing : bool;
  _last_validation_results : option ValidationResults
}.

(** [DataValidationStep.execute]: returns the table, the step with its
    stored results, and the pipeline's new [_validation_count]. *)
Definition DataValidationStep_execute (step : DataValidationStep) (_validation_count : nat)
    (df : Table) : Table * DataValidationStep * nat :=
  if empty df then (df, step, _validation_count)
  else
    let '(results, n) := process (pipeline_steps (_validator step)) _validation_count df in
    (df, mkDataValidationStep (_validator step) (_post_fixing step) (Some results), n).

(** A step of the executor: a [DataValidationStep], or any other
    [IPipelineStep], given by its name and its [execute] ([None]: raises). *)
Inductive PipelineStep :=
| ValidationStep (s : DataValidationStep)
| OtherStep (name : string) (execute : Table -> option Table).

Definition pipeline_step_name (s : PipelineStep) : string :=
  match s with
  | ValidationStep v => if _post_fixing v then "DataValidation_Post" else "DataValidation_Pre"
  | OtherStep n _ => n
  end.

(** ** PipelineExecutor *)

(** What a call of [execute] hands back: Python lets one function return a
    3-tuple on one path and a bare bool on another. *)
Inductive ExecuteReturn :=
| ReturnTuple (success : bool) (final_df : option Table)
    (last_validation_results : option ValidationResults)
| ReturnBool (b : bool).

Record PipelineExecutor := mkPipelineExecutor {
  _steps : list PipelineStep;
  _cache_manager : CacheManager;
  _dataset_name : string;
  (** [_validation_count] of each validation pipeline, by [pipeline_id] *)
  validation_counts : gmap nat nat
}.

(** How the loop over the steps ends. *)
Inductive LoopExit :=
| Completed (df : Table)
| EmptyResult              (* a step left an empty table *)
| Raised.                  (* a step raised *)

Section Execute.
(** The collaborators: [DataLoader.load], [DataSaver.save] and the
    checkpointing flag of the configuration. *)
Variable load : string -> Table.
Variable save : Table -> string -> bool.
Variable config : Config.

Definition count_of (counts : gmap nat nat) (p : ValidationPipeline) : nat :=
  default 0%nat (counts !! pipeline_id p).

(** The body of [for step in self._steps], on the rest of the steps.
    It threads the table, the cache, the counts and
    [last_validation_results], and rebuilds the steps it has run. *)
Fixpoint run_steps (dataset_name output_path : string) (steps : list PipelineStep)
    (df : Table) (cm : CacheManager) (counts : gmap nat nat)
    (last : option ValidationResults)
  : LoopExit * list PipelineStep * CacheManager * gmap nat nat * option ValidationResults :=
  match steps with
  | [] => (Completed df, [], cm, counts, last)
  | step :: rest =>
      let '(cached_df, cm) := get_from_cache cm dataset_name (pipeline_step_name step) in
      let executed :=
        match cached_df with
        | Some cached => Some (cached, step, cm, counts)
        | None =>
            match step with
            | ValidationStep v =>
                let '(df', v', n) := DataValidationStep_execute v (count_of counts (_validator v)) df in
                Some (df', ValidationStep v',
                      save_to_cache cm df' dataset_name (pipeline_step_name step),
                      <[pipeline_id (_validator v) := n]> counts)
            | OtherStep _ execute =>
                match execute df with
                | Some df' =>
                    Some (df', step,
                          save_to_cache cm df' dataset_name (pipeline_step_name step), counts)
                | None => None
                end
            end
        end in
      match executed with
      | None => (Raised, step :: rest, cm, counts, last)
      | Some (df, step, cm, counts) =>
          let last :=
            match step with
            | ValidationStep v => _last_validation_results v
            | OtherStep _ _ => last
            end in
          if empty df then (EmptyResult, step :: rest, cm, counts, last)
          else
            let _ := if checkpointing config
                     then save df (output_path ++ "_" ++ pipeline_step_name step ++ "_checkpoint")
                     else true in
            let '(exit, rest, cm, counts, last) :=
              run_steps dataset_name output_path rest df cm counts last in
            (exit, step :: rest, cm, counts, last)
      end
  end.

(** [PipelineExecutor.execute]: the value returned, and the executor
    after the call. *)
Definition execute (ex : PipelineExecutor) (input_path output_path : string)
  : ExecuteReturn * PipelineExecutor :=
  let df := load input_path in
  if empty df then (ReturnTuple false None None, ex)
  else
    let '(exit, steps, cm, counts, last_validation_results) :=
      run_steps (_dataset_name ex) output_path (_steps ex) df
                (_cache_manager ex) (validation_counts ex) None in
    let ex := mkPipelineExecutor steps cm (_dataset_name ex) counts in
    match exit with
    | EmptyResult => (ReturnBool false, ex)
    | Raised => (ReturnTuple false None last_validation_results, ex)
    | Completed df =>
        let final_df := df in
        let success := save df output_path in
        (ReturnTuple success (Some final_df) last_validation_results, ex)
    end.
End Execute.

(* ================================================================== *)
(** * 6. Concrete inputs *)
(* ================================================================== *)

(** A strategy that logs two fixes and then raises, and a one-cell table. *)
Definition raising_strategy : FixerStrategy :=
  mkFixer "RaisingStrategy" (fun _ => _log_fixes 2 ;; raise)%fixm.

Definition one_cell_table : Table := [("Age", mkSeries number [Num 41])].

(** A Fraud table: row 0 is an online transaction flagged with chip and PIN. *)
Definition fraud_table : Table :=
  [("IsFraudulent", mkSeries number [Num 0; Num 1]);
   ("IsOnlineTransaction", mkSeries number [Num 1; Num 0]);
   ("IsUsedChip", mkSeries number [Num 1; Num 1]);
   ("IsUsedPIN", mkSeries number [Num 1; Num 0])].

Definition fraud_config : Config := mkConfig "Fraud" 3 true false.

(** A step that filters every row out, as a transformation that matches
    nothing does. *)
Definition drop_all_rows (df : Table) : option Table :=
  Some (map (fun p => (fst p, mkSeries (dt (snd p)) [])) df).

(** An executor with that single step and an empty, enabled cache. *)
Definition filtering_executor : PipelineExecutor :=
  mkPipelineExecutor [OtherStep "Transformation" drop_all_rows]
    (mkCacheManager ∅ ∅ true true) "Loan" ∅.

Definition empty_cache : CacheManager := mkCacheManager ∅ ∅ true true.

(** Two strategies: one reports a critical and a warning issue, one raises. *)
Definition two_issue_strategy : ValidationStrategy :=
  mkValidationStrategy "SchemaValidationStrategy"
    (fun _ => inr ([mkIssue "missing_columns" "Missing required columns: Age" "critical" None;
                    mkIssue "type_mismatch" "Column 'Age'" "warning" (Some "Age")], 1%nat)).

Definition failing_strategy : ValidationStrategy :=
  mkValidationStrategy "DataQualityValidationStrategy" (fun _ => inl "boom").

(** A Loan table whose first row has a zero age and a zero credit score;
    ages and scores are integers, the rates are floats. *)
Definition loan_table : Table :=
  [("Age", mkSeries int64 [Num 0; Num 25; Num 130]);
   ("CreditScore", mkSeries int64 [Num 0; Num 700; Num 900]);
   ("InterestRate", mkSeries number [Num (-5); Num 12; Num 250])].

(** An int64 column of interest rates that holds the smallest int64. *)
Definition overflow_table : Table :=
  [("InterestRate", mkSeries int64 [Num (inject_Z int64_min); Num (-7); Num 250])].

(** Customer balances: customer 1 has five rows, customer 2 three, customer
    3 one, with a balance of 1000. *)
Definition balance_table : Table :=
  [("CustomerID", mkSeries number
      [Num 1; Num 1; Num 1; Num 1; Num 1; Num 2; Num 2; Num 2; Num 3]);
   ("Balance", mkSeries number
      [Num 4; Num 5; Num 10; Num 10; Num 10; Num 6; Num 10; Num 10; Num 1000])].

Definition customer_config : Config := mkConfig "Customer" 3 true false.

(** Five trading days with consistent prices (low <= open, close <= high
    in every row); the last day trades far above the others. *)
Definition market_table : Table :=
  [("OpenValue", mkSeries number [Num 5; Num 6; Num 9; Num 9; Num 45]);
   ("CloseValue", mkSeries number [Num 5; Num 6; Num 9; Num 9; Num 45]);
   ("HighestValue", mkSeries number [Num 10; Num 10; Num 10; Num 10; Num 50]);
   ("LowestValue", mkSeries number [Num 1; Num 5; Num 9; Num 9; Num 40])].

(** Incomes without any ID column: no group-by key is found. *)
Definition income_table : Table :=
  [("Income", mkSeries number [Num 1; Num 2; Num 3; Num 4; Num 100])].

(** The CreditScore column of the specification's first scenario. *)
Definition credit_score_table : Table :=
  [("CreditScore", mkSeries number [Num (-10); Num 300; Num 850; Num 900; Num 750])].


(** A two-step executor (cleaning, then transformation) whose steps return
    their input, and a cache that already holds a result for both. *)
Definition passthrough_executor (cm : CacheManager) : PipelineExecutor :=
  mkPipelineExecutor
    [OtherStep "DataCleaning" (fun df => Some df); OtherStep "Transformation" (fun df => Some df)]
    cm "Loan" ∅.

Definition warm_cache : CacheManager :=
  mkCacheManager
    (<[cache_key "Loan" "DataCleaning" := loan_table]>
       (<[cache_key "Loan" "Transformation" := credit_score_table]> ∅))
    ∅ true true.

Definition disabled_cache : CacheManager := mkCacheManager ∅ ∅ true false.

(** A cache whose only entry is a file on disk. *)
Definition disk_only_cache : CacheManager :=
  mkCacheManager ∅ (<[cache_key "Loan" "DataCleaning" := loan_table]> ∅) true true.

(** A table on which [two_issue_strategy] is run between two strategies
    that raise. *)
Definition passing_strategy : ValidationStrategy :=
  mkValidationStrategy "DomainSpecificValidationStrategy" (fun _ => inr ([], 3%nat)).

(* ================================================================== *)
(** * 7. More of fixers.py *)
(* ================================================================== *)

(** The columns named in [fields] hold numbers and missing values only. *)
Definition columns_numeric (fields : list string) (df : Table) : bool :=
  forallb (fun p => negb (existsb (String.eqb (fst p)) fields) || numeric_series (snd p)) df.

(** ** DomainMacroFixerStrategy *)

Module DomainMacroFixerStrategy.
Section Impl.
(** [datetime.now()], and [pd.to_datetime] on a column ([None]: it raises). *)
Variable now : Z.
Variable to_datetime : Series -> option Series.

Definition cap_of (c : string) : Q :=
  if String.eqb c "UnemploymentRate" then 50
  else if String.eqb c "InflationRate" then 100
  else if existsb (String.eqb c) ["DebtRatio"; "DeficitRatio"] then 200
  else 100.

Definition _fix_ratio_values (df : Table) (c : string) : FixM Table :=
  if contains "inflation" (lower c) then ret df
  else
    (let* s := col df c in
     let* negative_mask := lift (lt_scalar s 0) in
     let* df := fix_where df negative_mask c (cell_abs (dt s)) in
     let cap := cap_of c in
     let* s := col df c in
     let* high_mask := lift (gt_scalar s cap) in
     fix_where df high_mask c (fun _ => Num cap))%fixm.

Definition _fix_gdp_values (df : Table) : FixM Table :=
  (let* gdp := col df "GDP" in
   let* negative_mask := lift (lt_scalar gdp 0) in
   fix_where df negative_mask "GDP" (cell_abs (dt gdp)))%fixm.

Definition _fix_index_values (df : Table) (c : string) : FixM Table :=
  (let* s := col df c in
   let* negative_mask := lift (lt_scalar s 0) in
   fix_where df negative_mask c (cell_abs (dt s)))%fixm.

Definition _fix_report_dates (df : Table) : FixM Table :=
  (let* dates := col df "ReportDate" in
   let converted :=
     if is_datetime64_any_dtype dates then Some df
     else option_map (set_col df "ReportDate") (to_datetime dates) in
   match converted with
   | None => ret df
   | Some df =>
       let* dates := col df "ReportDate" in
       let today := now in
       let* future_mask := lift (gt_timestamp dates today) in
       fix_where df future_mask "ReportDate" (fun _ => Date today)
   end)%fixm.

Definition _fix (df : Table) : FixM Table :=
  if empty df then ret df
  else
    (let* df :=
       DomainLoanFixerStrategy.for_each
         ["UnemploymentRate"; "InflationRate"; "DebtRatio"; "DeficitRatio"]
         (fun df c => whenM (has_col df c) (fun df => _fix_ratio_values df c) df) df in
     let* df := whenM (has_col df "GDP") _fix_gdp_values df in
     let* df :=
       DomainLoanFixerStrategy.for_each ["ConsumerPriceIndex"; "HousePriceIndex"]
         (fun df c => whenM (has_col df c) (fun df => _fix_index_values df c) df) df in
     whenM (has_col df "ReportDate") _fix_report_dates df)%fixm.

Definition strategy : FixerStrategy := mkFixer "DomainMacroFixerStrategy" _fix.

End Impl.
End DomainMacroFixerStrategy.

(** The columns [DomainMacroFixerStrategy] compares with numbers. *)
Definition macro_fields : list string :=
  ["UnemploymentRate"; "DebtRatio"; "DeficitRatio"; "GDP"; "ConsumerPriceIndex";
   "HousePriceIndex"].

(** What the ratio fix does to one cell of a column of dtype [d]. *)
Definition ratio_cell (d : dtype) (cap : Q) (x : cell) : cell :=
  when_gt cap (fun _ => Num cap) (when_lt 0 (cell_abs d) x).

(** The six columns as [DomainMacroFixerStrategy._fix] leaves them, for
    the dtypes [ds] that the stores leave. *)
Definition macro_columns (df : Table) (ds : list dtype) : Table :=
  let d k := nth k ds number in
  map_col_to (map_col_to (map_col_to (map_col_to (map_col_to (map_col_to df
    "UnemploymentRate" (d 0%nat) (ratio_cell (col_dtype df "UnemploymentRate") 50))
    "DebtRatio" (d 1%nat) (ratio_cell (col_dtype df "DebtRatio") 200))
    "DeficitRatio" (d 2%nat) (ratio_cell (col_dtype df "DeficitRatio") 200))
    "GDP" (d 3%nat) (when_lt 0 (cell_abs (col_dtype df "GDP"))))
    "ConsumerPriceIndex" (d 4%nat) (when_lt 0 (cell_abs (col_dtype df "ConsumerPriceIndex"))))
    "HousePriceIndex" (d 5%nat) (when_lt 0 (cell_abs (col_dtype df "HousePriceIndex"))).

(** Four quarterly reports; the dates are days since the epoch. *)
Definition macro_table : Table :=
  [("UnemploymentRate", mkSeries number [Num (-4); Num 7; Num 80; NA]);
   ("InflationRate", mkSeries number [Num (-30); Num 2; Num 500; Num 3]);
   ("DebtRatio", mkSeries number [Num 60; Num (-250); Num 120; Num 300]);
   ("GDP", mkSeries number [Num (-1000); Num 0; Num 2000; Num 2100]);
   ("ReportDate", mkSeries datetime [Date 19000; Date 19090; Date 19180; Date 99999])].

(** ** DomainFraudFixerStrategy *)

Module DomainFraudFixerStrategy.
Section Impl.
(** [datetime.now()]; one day, in the unit of the timestamps;
    [pd.to_datetime] on a column ([None]: it raises); and, for a non-empty
    str [x], whether [float(x) >= 0.5] ([None]: [float(x)] raises). *)
Variable now : Z.
Variable day : Z.
Variable to_datetime : Series -> option Series.
Variable float_ge_half : string -> option bool.

(** [x in [0, 1]] *)
Definition isin_0_1 (x : cell) : bool := cell_eq_q 0 x || cell_eq_q 1 x.

(** [lambda x: 1 if x and float(x) >= 0.5 else 0]: a number is falsy when
    it is zero, a str when it is empty; a timestamp is no float. *)
Definition to_indicator (x : cell) : option cell :=
  match x with
  | Num q => Some (if negb (Qeq_bool q 0) && Qle_bool (1 # 2) q then Num 1 else Num 0)
  | Str EmptyString => Some (Num 0)
  | Str s => option_map (fun b : bool => if b then Num 1 else Num 0) (float_ge_half s)
  | Date _ => None
  | NA => Some (Num 0)
  end.

(** [s.loc[mask].apply(f)] written back to [s.loc[mask]]; it raises when
    [f] raises on a selected cell. *)
Fixpoint apply_where (mask : list bool) (f : cell -> option cell) (old : list cell)
  : option (list cell) :=
  match mask, old with
  | m :: mask', o :: old' =>
      match (if m then f o else Some o), apply_where mask' f old' with
      | Some y, Some ys => Some (y :: ys)
      | _, _ => None
      end
  | _, _ => Some old
  end.

Definition _fix_binary_indicators (df : Table) (c : string) : FixM Table :=
  (let* s := col df c in
   let invalid_mask := map (fun x => negb (isin_0_1 x) && negb (is_na x)) (cells s) in
   let* df :=
     if Nat.ltb 0 (mask_sum invalid_mask)
     then let* fixed := lift (apply_where invalid_mask to_indicator (cells s)) in
          _log_fixes (mask_sum invalid_mask) ;;
          ret (set_col df c (mkSeries (dt s) fixed))
     else ret df in
   let* s := col df c in
   let missing_mask := map is_na (cells s) in
   fix_where df missing_mask c (fun _ => Num 0))%fixm.

Definition _fix_distance_from_home (df : Table) : FixM Table :=
  (let* distance := col df "DistanceFromHome" in
   let* negative_mask := lift (lt_scalar distance 0) in
   let* df := fix_where df negative_mask "DistanceFromHome" (cell_abs (dt distance)) in
   let* distance := col df "DistanceFromHome" in
   let* high_mask := lift (gt_scalar distance 20000) in
   fix_where df high_mask "DistanceFromHome" (fun _ => Num 20000))%fixm.

Definition _fix_distance_from_last (df : Table) : FixM Table :=
  (let* distance := col df "DistanceFromLastTransaction" in
   let* negative_mask := lift (lt_scalar distance 0) in
   let* df := fix_where df negative_mask "DistanceFromLastTransaction" (cell_abs (dt distance)) in
   let* distance := col df "DistanceFromLastTransaction" in
   let* high_mask := lift (gt_scalar distance 20000) in
   fix_where df high_mask "DistanceFromLastTransaction" (fun _ => Num 20000))%fixm.

Definition _fix_transaction_dates (df : Table) : FixM Table :=
  (let* dates := col df "TransactionDate" in
   let converted :=
     if is_datetime64_any_dtype dates then Some df
     else option_map (set_col df "TransactionDate") (to_datetime dates) in
   match converted with
   | None => ret df
   | Some df =>
       let today := now in
       let* dates := col df "TransactionDate" in
       let* future_mask := lift (gt_timestamp dates today) in
       let* df := fix_where df future_mask "TransactionDate" (fun _ => Date today) in
       let ten_years_ago := (today - 365 * 10 * day)%Z in
       let* dates := col df "TransactionDate" in
       let* old_mask := lift (lt_timestamp dates ten_years_ago) in
       fix_where df old_mask "TransactionDate" (fun _ => Date ten_years_ago)
   end)%fixm.

Definition binary_columns : list string :=
  ["IsFraudulent"; "IsOnlineTransaction"; "IsUsedChip"; "IsUsedPIN"].

Definition _fix (df : Table) : FixM Table :=
  if empty df then ret df
  else
    (let* df :=
       DomainLoanFixerStrategy.for_each binary_columns
         (fun df c => whenM (has_col df c) (fun df => _fix_binary_indicators df c) df) df in
     let* df := whenM (has_col df "DistanceFromHome") _fix_distance_from_home df in
     let* df :=
       whenM (has_col df "DistanceFromLastTransaction") _fix_distance_from_last df in
     whenM (has_col df "TransactionDate") _fix_transaction_dates df)%fixm.

Definition strategy : FixerStrategy := mkFixer "DomainFraudFixerStrategy" _fix.

End Impl.
End DomainFraudFixerStrategy.

(** The columns of a Fraud table that hold numbers. *)
Definition fraud_fields : list string :=
  DomainFraudFixerStrategy.binary_columns
  ++ ["DistanceFromHome"; "DistanceFromLastTransaction"].

(** What the indicator fix does to one cell of a numeric column. *)
Definition indicator_cell (x : cell) : cell :=
  match x with
  | Num q => if negb (Qeq_bool q 0) && Qle_bool (1 # 2) q then Num 1 else Num 0
  | _ => Num 0
  end.

Definition binary_cell (x : cell) : cell :=
  let y := if negb (DomainFraudFixerStrategy.isin_0_1 x) && negb (is_na x)
           then indicator_cell x else x in
  if is_na y then Num 0 else y.

(** The six columns as [DomainFraudFixerStrategy._fix] leaves them, for
    the dtypes [ds] that the stores leave. *)
Definition fraud_columns (df : Table) (ds : list dtype) : Table :=
  let d k := nth k ds number in
  map_col_to (map_col_to (map_col_to (map_col_to (map_col_to (map_col_to df
    "IsFraudulent" (d 0%nat) binary_cell)
    "IsOnlineTransaction" (d 1%nat) binary_cell)
    "IsUsedChip" (d 2%nat) binary_cell)
    "IsUsedPIN" (d 3%nat) binary_cell)
    "DistanceFromHome" (d 4%nat) (ratio_cell (col_dtype df "DistanceFromHome") 20000))
    "DistanceFromLastTransaction" (d 5%nat)
      (ratio_cell (col_dtype df "DistanceFromLastTransaction") 20000).

(** What the date fix of the Fraud fixer does to one cell: a date after
    [hi] becomes [hi], then a date before [lo] becomes [lo]. *)
Definition clamp_date (lo hi : Z) (x : cell) : cell :=
  (fun y => if before lo y then Date lo else y) (if after hi x then Date hi else x).

(** Four card transactions; the dates are days since the epoch. *)
Definition fraud_raw_table : Table :=
  [("IsFraudulent", mkSeries number [Num 0; Num 1; NA; Num 2]);
   ("IsOnlineTransaction", mkSeries number [Num 1; Num (3 # 10); Num (-1); Num 1]);
   ("DistanceFromHome", mkSeries number [Num (-5); Num 30000; Num 12; NA]);
   ("TransactionDate", mkSeries datetime [Date 19000; Date 30000; Date 100; NA])].

(** Two trading days with a negative open and interest rates out of range. *)
Definition market_rates_table : Table :=
  [("OpenValue", mkSeries number [Num (-5); Num 6]);
   ("InterestRate", mkSeries number [Num (-2); Num 45])].

(** ** DataConsistencyFixerStrategy: the Market branch *)

(** [a + s * b] for the floats [a] and [b], on a cell of a numeric column:
    the result is a float; a missing value stays missing. *)
Definition cell_affine (a b : Q) (x : cell) : cell :=
  match x with
  | Num t => Num (a + t * b)
  | _ => x
  end.

(** [a + s * b] for the Python ints [a] and [b], on a cell of a column of
    dtype [d]: on an int64 column the product and the sum are int64
    operations, which wrap around. *)
Definition cell_affine_int (d : dtype) (a b : Z) (x : cell) : cell :=
  match x with
  | Num t =>
      match d with
      | int64 => Num (inject_Z (wrap64 (a + wrap64 (Qfloor t * b))))
      | _ => Num (inject_Z a + t * inject_Z b)
      end
  | _ => x
  end.

(** The idiom [if mask.sum() > 0: df.loc[mask, c] = other.loc[mask]; self._log_fixes(...)]. *)
Definition fix_where_from (df : Table) (mask : list bool) (c : string) (new : list cell)
  : FixM Table :=
  if Nat.ltb 0 (mask_sum mask)
  then (_log_fixes (mask_sum mask) ;; ret (loc_set_from df mask c new))%fixm
  else ret df.

Definition _fix_market_indicator_consistency (df : Table) : FixM Table :=
  (let* vix := col df "VIX" in
   let* vix_high := lift (gt_scalar vix 50) in
   let* ted := col df "TEDSpread" in
   let* ted_low := lift (lt_scalar ted (1 # 2)) in
   let mask := mask_and vix_high ted_low in
   let* df :=
     fix_where_from df mask "VIX" (map (cell_affine_int (dt ted) 30 40) (cells ted)) in
   let* ted := col df "TEDSpread" in
   let* ted_high := lift (gt_scalar ted 2) in
   let* vix := col df "VIX" in
   let* vix_low := lift (lt_scalar vix 20) in
   let mask := mask_and ted_high vix_low in
   fix_where_from df mask "TEDSpread" (map (cell_affine (1 # 2) (1 # 40)) (cells vix)))%fixm.

Definition _fix_market_consistency (df : Table) : FixM Table :=
  if forallb (has_col df) ["VIX"; "TEDSpread"]
  then _fix_market_indicator_consistency df
  else ret df.

(** What the two rules leave in a row, from its VIX and TED spread; [d] is
    the dtype of the TED spread column. *)
Definition vix_cell (d : dtype) (vix ted : cell) : cell :=
  if gtb_q 50 vix && ltb_q (1 # 2) ted then cell_affine_int d 30 40 ted else vix.

Definition ted_cell (vix ted : cell) : cell :=
  if gtb_q 2 ted && ltb_q 20 vix then cell_affine (1 # 2) (1 # 40) vix else ted.

Definition market_config : Config := mkConfig "Market" 3 true false.

(** Three days: a VIX spike with a calm TED spread, a TED spike with a calm
    VIX, and a day on which both are high. *)
Definition indicator_table : Table :=
  [("VIX", mkSeries number [Num 80; Num 12; Num 70]);
   ("TEDSpread", mkSeries number [Num (1 # 4); Num 3; Num 4])].

(** ** DomainLoanFixerStrategy, once more *)

(** Four loans, with a column the Loan fixer has no rule for. *)
Definition loan_amount_table : Table :=
  [("LoanAmount", mkSeries number [Num (-5000); Num 20000000; Num 1000; NA]);
   ("AnnualIncome", mkSeries number [Num 40000; Num (-1); Num 900000000; Num 0]);
   ("NumLoans", mkSeries number [Num 3; Num 100; Num 101; Num (-2)]);
   ("Purpose", mkSeries object [Str "car"; Str "home"; NA; Str "car"])].

(** Column names in the order of [sorted(names)]. *)
Fixpoint sorted_names (l : list string) : Prop :=
  match l with
  | [] => True
  | x :: l' => Forall (fun y => String.leb x y = true) l' /\ sorted_names l'
  end.

(** A column name that [_find_groupby_key] accepts. *)
Definition is_id_column (c : string) : bool :=
  existsb (String.eqb (lower c)) (map lower OutlierFixerStrategy.default_id_columns).

(** The same customers as [balance_table], with the columns swapped and a
    second ID column. *)
Definition swapped_balance_table : Table :=
  [("Balance", mkSeries number
      [Num 4; Num 5; Num 10; Num 10; Num 10; Num 6; Num 10; Num 10; Num 1000]);
   ("UserID", mkSeries number
      [Num 7; Num 7; Num 7; Num 7; Num 7; Num 8; Num 8; Num 8; Num 9]);
   ("CustomerID", mkSeries number
      [Num 1; Num 1; Num 1; Num 1; Num 1; Num 2; Num 2; Num 2; Num 3])].

(* ================================================================== *)
(** * 8. More of validators.py: DomainSpecificValidationStrategy *)
(* ================================================================== *)

(** What a check contributes: the issues it adds, in order, and its
    [_test_passed] calls; [None]: a comparison raises. *)
Definition Check : Type := option (list Issue * nat).

Definition no_check : Check := Some ([], 0%nat).

(** [if count > 0: self._add_issue(...) else: self._test_passed()] *)
Definition report (count : nat) (issue : Issue) : Check :=
  Some (if Nat.ltb 0 count then ([issue], 0%nat) else ([], 1%nat)).

(** One check after another. *)
Definition and_then (a b : Check) : Check :=
  '(i1, p1) ← a; '(i2, p2) ← b; Some ((i1 ++ i2)%list, (p1 + p2)%nat).

Fixpoint all_checks (l : list Check) : Check :=
  match l with
  | [] => no_check
  | c :: l' => and_then c (all_checks l')
  end.

(** [x <= q]: false for a missing value, TypeError for a string or a timestamp. *)
Definition cell_le_q (q : Q) (c : cell) : option bool :=
  match c with
  | Num x => Some (Qle_bool x q)
  | NA => Some false
  | _ => None
  end.

Definition le_scalar (s : Series) (q : Q) : option (list bool) :=
  match dt s with
  | datetime | datetimetz => None
  | _ => mapM (cell_le_q q) (cells s)
  end.

(** [((s < lo) | (s > hi)).sum()] *)
Definition range_count (s : Series) (lo hi : Q) : option nat :=
  below ← lt_scalar s lo; above ← gt_scalar s hi; Some (mask_sum (mask_or below above)).

(** [k * x] for the Python int [k] and a cell of a column of dtype [d]; on
    an int64 column the product wraps around. *)
Definition cell_scale (d : dtype) (k : Z) (x : cell) : cell :=
  match x with
  | Num t =>
      match d with
      | int64 => Num (inject_Z (wrap64 (k * Qfloor t)))
      | _ => Num (inject_Z k * t)
      end
  | _ => x
  end.

(** [k * s] for a column that the caller also compares with a number: on a
    column that holds a string or a timestamp one of the two raises. *)
Definition mul_scalar (k : Z) (s : Series) : option Series :=
  match dt s with
  | datetime | datetimetz => None
  | d =>
      if forallb numeric_cell (cells s)
      then Some (mkSeries d (map (cell_scale d k) (cells s)))
      else None
  end.

(** [(~s.isin([0, 1])).sum()] *)
Definition not_binary_count (s : Series) : nat :=
  mask_sum (map (fun x => negb (DomainFraudFixerStrategy.isin_0_1 x)) (cells s)).

Module DomainSpecificValidationStrategy.
Section Impl.
Variable config : Config.
(** [str(e)] of the exception that the checks raise on a table; its text is
    pandas's. *)
Variable error_message : Table -> string.

Definition _validate_loan_data (df : Table) : Check :=
  all_checks
    [ if has_col df "CreditScore" then
        s ← get_col df "CreditScore";
        invalid_scores ← range_count s 300 850;
        report invalid_scores
          (mkIssue "invalid_credit_scores"
             ("Found " ++ pretty invalid_scores ++ " invalid credit scores (not between 300-850)")
             "warning" (Some "CreditScore"))
      else no_check;
      if has_col df "LoanAmount" && has_col df "AnnualIncome" then
        amount ← get_col df "LoanAmount";
        income ← get_col df "AnnualIncome";
        ten_incomes ← mul_scalar 10 income;
        high ← gt_series amount ten_incomes;
        positive ← gt_scalar income 0;
        let high_loan_ratio := mask_sum (mask_and high positive) in
        report high_loan_ratio
          (mkIssue "high_loan_to_income_ratio"
             ("Found " ++ pretty high_loan_ratio ++ " loans with amount > 10x annual income")
             "warning" None)
      else no_check;
      if has_col df "InterestRate" then
        s ← get_col df "InterestRate";
        invalid_rates ← range_count s 0 100;
        report invalid_rates
          (mkIssue "invalid_interest_rates"
             ("Found " ++ pretty invalid_rates ++ " invalid interest rates (not between 0-100%)")
             "warning" (Some "InterestRate"))
      else no_check ].

(** The body of [for col in ['IsFraudulent', ...]]. *)
Definition check_binary_indicator (df : Table) (c : string) : Check :=
  if has_col df c then
    s ← get_col df c;
    let invalid_values := not_binary_count s in
    report invalid_values
      (mkIssue "invalid_binary_indicators"
         ("Found " ++ pretty invalid_values ++ " invalid values in " ++ c ++ " (not 0 or 1)")
         "warning" (Some c))
  else no_check.

Definition _validate_fraud_data (df : Table) : Check :=
  all_checks
    ((if has_col df "TransactionAmount" then
        s ← get_col df "TransactionAmount";
        negative ← lt_scalar s 0;
        let negative_amounts := mask_sum negative in
        report negative_amounts
          (mkIssue "negative_transaction_amounts"
             ("Found " ++ pretty negative_amounts ++ " negative transaction amounts")
             "warning" (Some "TransactionAmount"))
      else no_check)
     :: map (check_binary_indicator df)
          ["IsFraudulent"; "IsOnlineTransaction"; "IsUsedChip"; "IsUsedPIN"]).

(** The body of [for col in price_columns]. *)
Definition check_negative_prices (df : Table) (c : string) : Check :=
  if has_col df c then
    s ← get_col df c;
    negative ← lt_scalar s 0;
    let negative_prices := mask_sum negative in
    report negative_prices
      (mkIssue "negative_prices"
         ("Found " ++ pretty negative_prices ++ " negative values in " ++ c)
         "warning" (Some c))
  else no_check.

(** A column restricted to the rows of [valid_rows]. *)
Definition loc_rows (valid_rows : list bool) (s : Series) : Series :=
  mkSeries (dt s) (select valid_rows (cells s)).

Definition _validate_market_data (df : Table) : Check :=
  all_checks
    (map (check_negative_prices df)
       ["OpenValue"; "CloseValue"; "HighestValue"; "LowestValue"; "GoldPrice"; "OilPrice"]
     ++ [ if has_col df "HighestValue" && has_col df "LowestValue" then
            high ← get_col df "HighestValue";
            low ← get_col df "LowestValue";
            inverted ← lt_series high low;
            let invalid_high_low := mask_sum inverted in
            report invalid_high_low
              (mkIssue "invalid_high_low_relationship"
                 ("Found " ++ pretty invalid_high_low
                  ++ " cases where HighestValue < LowestValue")
                 "warning" None)
          else no_check;
          if forallb (has_col df) ["OpenValue"; "CloseValue"; "HighestValue"; "LowestValue"]
          then
            open ← get_col df "OpenValue";
            close ← get_col df "CloseValue";
            high ← get_col df "HighestValue";
            low ← get_col df "LowestValue";
            let valid_rows :=
              mask_and (mask_and (mask_and (notna open) (notna close)) (notna high))
                       (notna low) in
            if mask_any valid_rows then
              open_high ← gt_series (loc_rows valid_rows open) (loc_rows valid_rows high);
              open_low ← lt_series (loc_rows valid_rows open) (loc_rows valid_rows low);
              close_high ← gt_series (loc_rows valid_rows close) (loc_rows valid_rows high);
              close_low ← lt_series (loc_rows valid_rows close) (loc_rows valid_rows low);
              let out_of_range :=
                mask_sum (mask_or (mask_or (mask_or open_high open_low) close_high)
                                  close_low) in
              report out_of_range
                (mkIssue "prices_out_of_range"
                   ("Found " ++ pretty out_of_range
                    ++ " cases where Open/Close are outside High/Low range")
                   "warning" None)
            else Some ([], 1%nat)
          else no_check ])%list.

Definition _validate_macro_data (df : Table) : Check :=
  all_checks
    [ if has_col df "UnemploymentRate" then
        s ← get_col df "UnemploymentRate";
        invalid_rates ← range_count s 0 100;
        report invalid_rates
          (mkIssue "invalid_unemployment_rates"
             ("Found " ++ pretty invalid_rates
              ++ " invalid unemployment rates (not between 0-100%)")
             "warning" (Some "UnemploymentRate"))
      else no_check;
      if has_col df "GDP" then
        s ← get_col df "GDP";
        not_positive ← le_scalar s 0;
        let negative_gdp := mask_sum not_positive in
        report negative_gdp
          (mkIssue "negative_gdp"
             ("Found " ++ pretty negative_gdp ++ " cases with zero or negative GDP")
             "warning" (Some "GDP"))
      else no_check;
      if has_col df "InflationRate" then
        s ← get_col df "InflationRate";
        extreme_inflation ← range_count s (-20) 100;
        report extreme_inflation
          (mkIssue "extreme_inflation_rates"
             ("Found " ++ pretty extreme_inflation
              ++ " extreme inflation rates (< -20% or > 100%)")
             "warning" (Some "InflationRate"))
      else no_check ].

Definition checks (df : Table) : Check :=
  if empty df then Some ([mkIssue "empty_dataset" "Dataset is empty" "critical" None], 0%nat)
  else
    let dataset_name := current_dataset config in
    if String.eqb dataset_name "Loan" then _validate_loan_data df
    else if String.eqb dataset_name "Fraud" then _validate_fraud_data df
    else if String.eqb dataset_name "Market" then _validate_market_data df
    else if String.eqb dataset_name "Macro" then _validate_macro_data df
    else no_check.

Definition _validate_impl (df : Table) : string + (list Issue * nat) :=
  match checks df with
  | Some r => inr r
  | None => inl (error_message df)
  end.

Definition strategy : ValidationStrategy :=
  mkValidationStrategy "DomainSpecificValidationStrategy" _validate_impl.

End Impl.
End DomainSpecificValidationStrategy.

Definition loan_config : Config := mkConfig "Loan" 3 true false.
Definition macro_config : Config := mkConfig "Macro" 3 true false.

(* ================================================================== *)
(** * 9. Pipelines: FixerPipeline, PipelineFactory, OrchestrationService *)
(* ================================================================== *)

(** ** fixers.py: FixerPipelineStep, FixerPipeline *)

(** [FixerPipelineStep.execute] *)
Definition FixerPipelineStep_execute (strategy : FixerStrategy) (df : Table) : Table :=
  fst (fix_ strategy df 0).

(** [FixerPipeline.process].  The handler around a step is never entered:
    [fix] catches every exception itself.  After the loop, outside any
    handler, the count of changed columns reads every column of the input
    in the result: [None] is the KeyError it raises when a step dropped
    one. *)
Definition FixerPipeline_process (steps : list FixerStrategy) (df : Table) : option Table :=
  if empty df then Some df
  else
    let result_df :=
      fold_left (fun result_df step => FixerPipelineStep_execute step result_df) steps df in
    if forallb (has_col result_df) (columns df) then Some result_df else None.

(** ** engine.py: PipelineFactory *)

(** [config.set_config('current_dataset', name)] *)
Definition set_current_dataset (config : Config) (name : string) : Config :=
  mkConfig name (outlier_threshold config) (enable_caching config) (checkpointing config).

(** [CacheManager.__init__]: an empty memory tier over the files that the
    cache directory holds. *)
Definition CacheManager_init (config : Config) (disk : gmap string Table) (writable : bool)
  : CacheManager :=
  mkCacheManager ∅ disk writable (enable_caching config).

Module PipelineFactory.
Section Impl.
(** The clock and the conversions of the domain fixers; the strategies and
    pipelines of the repository that are not modelled, each as the
    function it computes under a configuration; the files of the cache
    directory; and the flag [validate_after_fixing]. *)
Variable now day : Z.
Variable to_datetime : Series -> option Series.
Variable float_ge_half : string -> option bool.
Variable missing_value_fixer : Config -> FixerStrategy.
Variable _fix_loan_consistency : Config -> Table -> FixM Table.
Variable cleaning_process transformation_process : Config -> Table -> option Table.
Variable final_cleanup : Config -> Table -> Table.
Variable schema_validation data_quality : Config -> ValidationStrategy.
Variable error_message : Table -> string.
Variable disk : gmap string Table.
Variable writable : bool.
Variable validate_after_fixing : bool.

Definition _create_validation_pipeline (config : Config) : ValidationPipeline :=
  mkValidationPipeline 0
    [schema_validation config; data_quality config;
     DomainSpecificValidationStrategy.strategy config error_message].

Definition _create_fixing_pipeline (config : Config) (dataset_type : string)
  : list FixerStrategy :=
  ([missing_value_fixer config; OutlierFixerStrategy.strategy config]
   ++ match dataset_type with
      | EmptyString => []
      | _ =>
          if String.eqb (lower dataset_type) "loan" then [DomainLoanFixerStrategy.strategy]
          else if String.eqb (lower dataset_type) "fraud"
          then [DomainFraudFixerStrategy.strategy now day to_datetime float_ge_half]
          else if String.eqb (lower dataset_type) "market"
          then [DomainMarketFixerStrategy.strategy now to_datetime]
          else if String.eqb (lower dataset_type) "macro"
          then [DomainMacroFixerStrategy.strategy now to_datetime]
          else []
      end
   ++ [DataConsistencyFixerStrategy.strategy config (_fix_loan_consistency config)
         _fix_market_consistency])%list.

(** The steps of engine.py around the pipelines: each returns an empty
    table as it is. *)
Definition DataCleaningStep (config : Config) : PipelineStep :=
  OtherStep "DataCleaning" (fun df => if empty df then Some df else cleaning_process config df).

Definition TransformationStep (config : Config) : PipelineStep :=
  OtherStep "Transformation"
    (fun df => if empty df then Some df else transformation_process config df).

Definition DataFixerStep (config : Config) (dataset_type : string) : PipelineStep :=
  OtherStep "DataFixer"
    (fun df => if empty df then Some df
               else FixerPipeline_process (_create_fixing_pipeline config dataset_type) df).

(** [FinalCustomStep.execute] returns the original table when its cleanup raises. *)
Definition FinalCustomStep (config : Config) : PipelineStep :=
  OtherStep "FinalCleanup" (fun df => if empty df then Some df else Some (final_cleanup config df)).

(** [create_pipeline]: the executor, and the configuration after the call.
    The executor reads [current_dataset] when it is built, before
    [create_pipeline] sets it; the steps read the configuration when they
    run. *)
Definition create_pipeline (config : Config) (dataset_type : string)
  : PipelineExecutor * Config :=
  let _cache_manager := CacheManager_init config disk writable in
  let _dataset_name := current_dataset config in
  let config := set_current_dataset config dataset_type in
  let validation_pipeline := _create_validation_pipeline config in
  let steps :=
    ([DataCleaningStep config; TransformationStep config;
      ValidationStep (mkDataValidationStep validation_pipeline false None);
      DataFixerStep config dataset_type]
     ++ (if validate_after_fixing
         then [ValidationStep (mkDataValidationStep validation_pipeline true None)]
         else [])
     ++ [FinalCustomStep config])%list in
  (mkPipelineExecutor steps _cache_manager _dataset_name (<[0%nat := 0%nat]> ∅), config).

End Impl.
End PipelineFactory.

(** A fixer that changes nothing, and the executor that [create_pipeline]
    builds for the Loan dataset around pipelines that change nothing. *)
Definition identity_fixer : FixerStrategy := mkFixer "MissingValueFixerStrategy" ret.

Definition loan_pipeline_executor : PipelineExecutor :=
  fst (PipelineFactory.create_pipeline 19500 1 (fun _ => None) (fun _ => None)
         (fun _ => identity_fixer) (fun _ => ret) (fun _ df => Some df) (fun _ df => Some df)
         (fun _ df => df) (fun _ => passing_strategy) (fun _ => passing_strategy)
         (fun _ => "TypeError") ∅ true true loan_config "Loan").

(** ** engine.py: OrchestrationService._process_dataset *)

(** [dir / file], as [str] prints it. *)
Definition path_join (dir file : string) : string := dir ++ "/" ++ file.

(** [pd.concat(dataframes, axis=1)] on tables indexed 0, 1, 2, ...: the
    columns side by side, the shorter ones filled up with missing values. *)
Definition pad_to (n : nat) (s : Series) : Series :=
  mkSeries (dt s) (cells s ++ repeat NA (n - length (cells s)))%list.

Definition concat_columns (dataframes : list Table) : Table :=
  let n := fold_right Nat.max 0%nat (map nrows dataframes) in
  flat_map (fun df => map (fun p => (fst p, pad_to n (snd p))) df) dataframes.

(** The dict [_process_dataset] returns.  [None] is a key that is absent
    or holds [None]; of the keys read later only ["dataset"] is ever
    absent. *)
Record DatasetResult := mkDatasetResult {
  r_status : string;
  r_dataset : option string;
  r_error : option string;
  r_file_count : option nat;
  r_output_path : option string;
  r_df : option Table;
  r_validation_results : option ValidationResults
}.

(** [success, final_df, validation_results = pipeline.execute(...)]: a bare
    bool cannot be unpacked ([inl], with the text of the TypeError). *)
Definition unpack (r : ExecuteReturn)
  : string + (bool * option Table * option ValidationResults) :=
  match r with
  | ReturnTuple success final_df validation_results =>
      inr (success, final_df, validation_results)
  | ReturnBool _ => inl "cannot unpack non-iterable bool object"
  end.

Module OrchestrationService.
Section Impl.
(** [DataLoader.load] and [DataSaver.save]; what [load] returns at a path
    after [save] was called on it with a table; [PipelineFactory.create_pipeline];
    and the two directories of the configuration. *)
Variable load : string -> Table.
Variable save : Table -> string -> bool.
Variable load_saved : Table -> string -> Table.
Variable create_pipeline : Config -> string -> PipelineExecutor * Config.
Variable input_dir output_dir : string.

Definition _concatenate_files (files : list string) : Table :=
  let dataframes :=
    List.filter (fun df => negb (empty df))
      (map (fun file => load (path_join input_dir file)) files) in
  match dataframes with
  | [] => []
  | _ => concat_columns dataframes
  end.

(** The dict built from what [execute] returned, or the one of the
    [except] branch. *)
Definition result_of (dataset_type output_path : string) (file_count : nat)
    (returned : ExecuteReturn) : DatasetResult :=
  match unpack returned with
  | inr (success, final_df, validation_results) =>
      mkDatasetResult (if success then "success" else "error") (Some dataset_type) None
        (Some file_count) (if success then Some output_path else None)
        (if success then final_df else None) validation_results
  | inl e => mkDatasetResult "error" (Some dataset_type) (Some e) None None None None
  end.

Definition _process_dataset (config : Config) (dataset_type : string) (files : list string)
  : DatasetResult :=
  let config := set_current_dataset config dataset_type in
  match files with
  | [] => mkDatasetResult "error" None (Some "No files specified") None None None None
  | [file] =>
      let input_path := path_join input_dir file in
      let output_path := path_join output_dir (dataset_type ++ "_cooked.csv") in
      let '(pipeline, config) := create_pipeline config dataset_type in
      result_of dataset_type output_path (length files)
        (fst (execute load save config pipeline input_path output_path))
  | _ =>
      let concatenated_data := _concatenate_files files in
      if empty concatenated_data
      then mkDatasetResult "error" None (Some "Failed to concatenate files")
             None None None None
      else
        let temp_path := path_join output_dir (dataset_type ++ "_concatenated_temp.csv") in
        let _ := save concatenated_data temp_path in
        let output_path := path_join output_dir (dataset_type ++ "_cooked.csv") in
        let '(pipeline, config) := create_pipeline config dataset_type in
        result_of dataset_type output_path (length files)
          (fst (execute (fun _ => load_saved concatenated_data temp_path) save config
                  pipeline temp_path output_path))
  end.

End Impl.
End OrchestrationService.

(** [d1] has the columns of [d2], in the same order and of the same
    lengths; a column has the dtype it has in [d2], or is float64 where it
    is int64 in [d2] (a store of a value that is no int64 upcasts an int64
    column). *)
Definition same_layout (d1 d2 : Table) : Prop :=
  columns d1 = columns d2 /\
  forall c,
    match get_col d2 c, get_col d1 c with
    | Some s, Some s' => retyped (dt s) (dt s') /\ length (cells s') = length (cells s)
    | None, None => True
    | _, _ => False
    end.

(** ** validators.py: DataQualityValidationStrategy._check_data_consistency *)

Module DataQualityValidationStrategy.
Section Impl.
(** [datetime.now()] *)
Variable now : Z.

(** The body of [for col in date_cols]. *)
Definition check_future_dates (df : Table) (c : string) : Check :=
  if has_col df c then
    s ← get_col df c;
    if negb (Nat.eqb (length (cells s)) 0) && is_datetime64_any_dtype s
    then
      future ← gt_timestamp s now;
      let future_dates := mask_sum future in
      report future_dates
        (mkIssue "future_dates"
           ("Found " ++ pretty future_dates ++ " future dates in column '" ++ c ++ "'")
           "warning" (Some c))
    else no_check
  else no_check.

Definition _check_data_consistency (df : Table) : Check :=
  let date_cols := List.filter (fun c => contains "date" (lower c)) (columns df) in
  all_checks
    (map (check_future_dates df) date_cols
     ++ [ if has_col df "Age" then
            s ← get_col df "Age";
            if negb (Nat.eqb (length (cells s)) 0) then
              invalid_ages ← range_count s 18 100;
              report invalid_ages
                (mkIssue "invalid_ages"
                   ("Found " ++ pretty invalid_ages ++ " invalid ages (< 18 or > 100)")
                   "warning" (Some "Age"))
            else no_check
          else no_check ])%list.

End Impl.
End DataQualityValidationStrategy.
(* ================================================================== *)
(** * Properties *)
(* ================================================================== *)

(** ** Tables *)

Lemma get_set_col_eq df c s :
  has_col df c = true -> get_col (set_col df c s) c = Some s.
Proof.
  unfold has_col, columns. induction df as [|[n s'] df IH]; simpl; [discriminate|].
  destruct (String.eqb c n) eqn:E; simpl; intros H.
  - now rewrite E.
  - rewrite E. auto.
Qed.

Lemma get_set_col_ne df c c' s :
  c <> c' -> get_col (set_col df c s) c' = get_col df c'.
Proof.
  intros Hne. induction df as [|[n s'] df IH]; simpl.
  - destruct (String.eqb c' c) eqn:E; [apply String.eqb_eq in E; congruence|reflexivity].
  - destruct (String.eqb c n) eqn:E; simpl.
    + apply String.eqb_eq in E. subst n.
      destruct (String.eqb c' c) eqn:E'; [apply String.eqb_eq in E'; congruence|reflexivity].
    + now rewrite IH.
Qed.

Lemma get_col_has_col df c s : get_col df c = Some s -> has_col df c = true.
Proof.
  unfold has_col, columns. induction df as [|[n s'] df IH]; simpl; [discriminate|].
  destruct (String.eqb c n); simpl; auto.
Qed.

Lemma has_col_get_col df c : has_col df c = true -> exists s, get_col df c = Some s.
Proof.
  unfold has_col, columns. induction df as [|[n s'] df IH]; simpl; [discriminate|].
  destruct (String.eqb c n); simpl; eauto.
Qed.

Lemma assign_nth mask f old i :
  nth_error (assign mask f old) i =
  match nth_error mask i, nth_error old i with
  | Some true, Some o => Some (f o)
  | _, o => o
  end.
Proof.
  revert old i. induction mask as [|m mask IH]; intros old i; simpl.
  - destruct i; reflexivity.
  - destruct old as [|o old]; simpl.
    + destruct i; simpl; [destruct m; reflexivity|].
      destruct (nth_error mask i) as [[|]|]; reflexivity.
    + destruct i; simpl; [destruct m; reflexivity|]. apply IH.
Qed.

Lemma mask_and_nth a b i :
  nth_error (mask_and a b) i =
  match nth_error a i, nth_error b i with
  | Some x, Some y => Some (x && y)
  | _, _ => None
  end.
Proof.
  revert b i. induction a as [|x a IH]; intros b i; simpl.
  - destruct i; reflexivity.
  - destruct b as [|y b]; simpl.
    + destruct i; simpl; [reflexivity|]. destruct (nth_error a i); reflexivity.
    + destruct i; simpl; [reflexivity|]. apply IH.
Qed.

Lemma cell_at_loc_set_eq df mask c f i :
  cell_at (loc_set df mask c f) c i =
  match nth_error mask i, cell_at df c i with
  | Some true, Some o => Some (f o)
  | _, o => o
  end.
Proof.
  unfold loc_set, cell_at. destruct (get_col df c) as [s|] eqn:E.
  - rewrite get_set_col_eq by eauto using get_col_has_col. simpl. apply assign_nth.
  - rewrite E. destruct (nth_error mask i) as [[|]|]; reflexivity.
Qed.

Lemma cell_at_loc_set_ne df mask c c' f i :
  c <> c' -> cell_at (loc_set df mask c f) c' i = cell_at df c' i.
Proof.
  intros Hne. unfold loc_set, cell_at. destruct (get_col df c) as [s|] eqn:E.
  - now rewrite get_set_col_ne.
  - reflexivity.
Qed.

Lemma mask_sum_zero_nth m i : mask_sum m = 0%nat -> nth_error m i <> Some true.
Proof.
  unfold mask_sum. revert i. induction m as [|b m IH]; intros i H.
  - destruct i; discriminate.
  - destruct b; simpl in H; [discriminate|].
    destruct i; simpl; [discriminate|]. now apply IH.
Qed.

Lemma cell_at_guarded_loc_set df mask c c' f i :
  cell_at (if Nat.ltb 0 (mask_sum mask) then loc_set df mask c f else df) c' i =
  cell_at (loc_set df mask c f) c' i.
Proof.
  destruct (Nat.ltb 0 (mask_sum mask)) eqn:E; [reflexivity|].
  apply Nat.ltb_ge in E. assert (H0 : mask_sum mask = 0%nat) by lia.
  destruct (String.eqb_spec c c') as [->|Hne].
  - rewrite cell_at_loc_set_eq.
    destruct (nth_error mask i) as [[|]|] eqn:Em; try reflexivity.
    now apply mask_sum_zero_nth with (i := i) in H0.
  - now rewrite cell_at_loc_set_ne.
Qed.

Lemma eq_scalar_nth s q i :
  nth_error (eq_scalar s q) i = option_map (cell_eq_q q) (nth_error (cells s) i).
Proof. unfold eq_scalar. apply nth_error_map. Qed.

Lemma wf_table_empty_cell_at df c i :
  wf_table df = true -> empty df = true -> cell_at df c i = None.
Proof.
  unfold wf_table, empty, cell_at. intros Hwf He.
  destruct (get_col df c) as [s|] eqn:E; [|reflexivity].
  destruct df as [|p df]; [discriminate|].
  apply Nat.eqb_eq in He. rewrite He in Hwf.
  assert (Hs : wf_series 0 s = true).
  { clear He. revert Hwf E. generalize (p :: df) as l.
    induction l as [|[n s'] l IH]; simpl; [discriminate|].
    intros Hwf. apply andb_true_iff in Hwf as [H1 H2].
    destruct (String.eqb c n); [intros [= <-]; exact H1|auto]. }
  unfold wf_series in Hs. apply andb_true_iff in Hs as [Hs _].
  apply Nat.eqb_eq in Hs. destruct (cells s); [now destruct i|discriminate].
Qed.

(** ** The model on concrete inputs *)

Example cache_key_example : cache_key "Loan" "DataCleaning" = "Loan_DataCleaning".
Proof. reflexivity. Qed.

Example credit_score_scenario :
  get_col (fst (fix_ DomainLoanFixerStrategy.strategy credit_score_table 0)) "CreditScore"
  = Some (mkSeries number [Num 300; Num 300; Num 850; Num 850; Num 750]).
Proof. vm_compute. reflexivity. Qed.

Example find_groupby_key_example :
  OutlierFixerStrategy._find_groupby_key balance_table = Some "CustomerID" /\
  OutlierFixerStrategy._find_groupby_key income_table = None.
Proof. split; reflexivity. Qed.

Example value_counts_example :
  value_counts [Num 4; Num 5; Num 10; NA; Num 10; Num 5; Num 10]
  = [(Num 10, 3%nat); (Num 5, 2%nat); (Num 4, 1%nat)].
Proof. reflexivity. Qed.

Example median_example :
  median (mkSeries number [Num 30; NA; Num (-5); Num 20]) = Some (Num 20).
Proof. vm_compute. reflexivity. Qed.

(** ** Masks over a numeric column *)

Lemma set_col_same df c s : get_col df c = Some s -> set_col df c s = df.
Proof.
  induction df as [|[n s'] df IH]; simpl; [discriminate|].
  destruct (String.eqb c n); [now intros [= ->]|]. intros H. now rewrite IH.
Qed.

Lemma set_col_set_col df c s s' : set_col (set_col df c s) c s' = set_col df c s'.
Proof.
  induction df as [|[n s0] df IH]; simpl.
  - now rewrite String.eqb_refl.
  - destruct (String.eqb c n) eqn:E; simpl; rewrite E; [reflexivity|now rewrite IH].
Qed.

Lemma columns_set_col df c s :
  has_col df c = true -> columns (set_col df c s) = columns df.
Proof.
  unfold has_col, columns. induction df as [|[n s'] df IH]; simpl; [discriminate|].
  destruct (String.eqb c n) eqn:E; simpl; [reflexivity|]. intros H. now rewrite IH.
Qed.

Lemma assign_no_true mask f old : mask_sum mask = 0%nat -> assign mask f old = old.
Proof.
  unfold mask_sum. revert old. induction mask as [|b m IH]; intros old H; [reflexivity|].
  destruct old as [|o old]; [reflexivity|]. destruct b; simpl in *; [discriminate|].
  now rewrite IH.
Qed.

Lemma assign_map (p : cell -> bool) f l :
  assign (map p l) f l = map (fun c => if p c then f c else c) l.
Proof. induction l as [|c l IH]; simpl; [reflexivity|]. now rewrite IH. Qed.

Lemma mask_and_map {A} (p p' : A -> bool) l :
  mask_and (map p l) (map p' l) = map (fun c => p c && p' c) l.
Proof. induction l as [|c l IH]; simpl; [reflexivity|]. now rewrite IH. Qed.

Lemma select_no_true {A} mask (l : list A) : mask_sum mask = 0%nat -> select mask l = [].
Proof.
  unfold mask_sum. revert l. induction mask as [|b m IH]; intros l H; [reflexivity|].
  destruct l as [|x l]; [reflexivity|]. destruct b; simpl in *; [discriminate|]. auto.
Qed.

Lemma retype_nil d : retype d [] = d.
Proof. now destruct d. Qed.

Lemma loc_set_no_true df mask c f : mask_sum mask = 0%nat -> loc_set df mask c f = df.
Proof.
  intros H. unfold loc_set. destruct (get_col df c) as [s|] eqn:E; [|reflexivity].
  rewrite assign_no_true, select_no_true, retype_nil by assumption.
  apply set_col_same. now destruct s.
Qed.

Lemma fix_where_run df mask c f n :
  exists n', fix_where df mask c f n = (Some (loc_set df mask c f), n').
Proof.
  unfold fix_where. destruct (Nat.ltb 0 (mask_sum mask)) eqn:E.
  - unfold bind, _log_fixes, ret. eauto.
  - apply Nat.ltb_ge in E. rewrite loc_set_no_true by lia. unfold ret. eauto.
Qed.

Lemma retyped_refl d : retyped d d.
Proof. now left. Qed.

Lemma retype_retyped d w : retyped d (retype d w).
Proof.
  unfold retyped, retype. destruct d; auto. destruct (forallb int64_cell w); auto.
Qed.

Lemma retyped_trans d1 d2 d3 : retyped d1 d2 -> retyped d2 d3 -> retyped d1 d3.
Proof.
  unfold retyped. intros [->|[-> ->]] [->|[E ->]]; auto; discriminate.
Qed.

Lemma retyped_not_int64 d d' : retyped d d' -> d <> int64 -> d' = d.
Proof. intros [->|[-> _]] H; [reflexivity|contradiction]. Qed.

Lemma loc_set_map df s c (p : cell -> bool) f :
  get_col df c = Some s ->
  exists d, retyped (dt s) d /\
    loc_set df (map p (cells s)) c f = map_col_to df c d (fun x => if p x then f x else x).
Proof.
  intros E. unfold loc_set, map_col_to. rewrite E, assign_map.
  eexists. split; [apply retype_retyped|reflexivity].
Qed.

Lemma map_col_to_same df c s g :
  get_col df c = Some s -> map_col df c g = map_col_to df c (dt s) g.
Proof. intros E. unfold map_col, map_col_to. now rewrite E. Qed.

Lemma mapM_total {A B} (f : A -> option B) (g : A -> B) (ok : A -> bool) l :
  (forall x, ok x = true -> f x = Some (g x)) ->
  forallb ok l = true -> mapM f l = Some (map g l).
Proof.
  intros Hf. induction l as [|x l IH]; simpl; [reflexivity|].
  intros H. apply andb_true_iff in H as [H1 H2]. now rewrite (Hf x H1), (IH H2).
Qed.

Lemma lt_scalar_numeric s q :
  numeric_series s = true -> lt_scalar s q = Some (map (ltb_q q) (cells s)).
Proof.
  unfold numeric_series, lt_scalar. intros H.
  destruct (dt s); try discriminate;
    (apply mapM_total with (ok := numeric_cell); [|exact H]);
    intros [x|x|x|]; simpl; try discriminate; reflexivity.
Qed.

Lemma gt_scalar_numeric s q :
  numeric_series s = true -> gt_scalar s q = Some (map (gtb_q q) (cells s)).
Proof.
  unfold numeric_series, gt_scalar. intros H.
  destruct (dt s); try discriminate;
    (apply mapM_total with (ok := numeric_cell); [|exact H]);
    intros [x|x|x|]; simpl; try discriminate; reflexivity.
Qed.

Lemma numeric_values_numeric l :
  forallb numeric_cell l = true -> exists vs, numeric_values l = Some vs.
Proof.
  induction l as [|c l IH]; simpl; [eauto|].
  intros H. apply andb_true_iff in H as [H1 H2]. destruct (IH H2) as [vs E].
  destruct c; try discriminate; rewrite E; simpl; eauto.
Qed.

Lemma get_col_map_col_eq df c g s :
  get_col df c = Some s ->
  get_col (map_col df c g) c = Some (mkSeries (dt s) (map g (cells s))).
Proof.
  intros E. unfold map_col. rewrite E. apply get_set_col_eq. eauto using get_col_has_col.
Qed.

Lemma get_col_map_col_ne df c c' g :
  c <> c' -> get_col (map_col df c g) c' = get_col df c'.
Proof.
  intros H. unfold map_col. destruct (get_col df c); [|reflexivity].
  now apply get_set_col_ne.
Qed.

Lemma map_col_map_col df c g1 g2 :
  map_col (map_col df c g1) c g2 = map_col df c (fun x => g2 (g1 x)).
Proof.
  destruct (get_col df c) as [s|] eqn:E.
  - unfold map_col at 1. rewrite (get_col_map_col_eq df c g1 s E). simpl.
    unfold map_col. rewrite E, set_col_set_col. now rewrite map_map.
  - unfold map_col. now rewrite E, E.
Qed.

Lemma columns_map_col df c g : columns (map_col df c g) = columns df.
Proof.
  unfold map_col. destruct (get_col df c) eqn:E; [|reflexivity].
  apply columns_set_col. eauto using get_col_has_col.
Qed.

Lemma has_col_map_col df c c' g : has_col (map_col df c g) c' = has_col df c'.
Proof. unfold has_col. now rewrite columns_map_col. Qed.

Lemma cell_at_map_col_eq df c g i :
  cell_at (map_col df c g) c i = option_map g (cell_at df c i).
Proof.
  unfold cell_at. destruct (get_col df c) as [s|] eqn:E.
  - rewrite (get_col_map_col_eq df c g s E). simpl. apply nth_error_map.
  - unfold map_col. now rewrite E, E.
Qed.

Lemma cell_at_map_col_ne df c c' g i :
  c <> c' -> cell_at (map_col df c g) c' i = cell_at df c' i.
Proof. intros H. unfold cell_at. now rewrite get_col_map_col_ne. Qed.

Lemma get_col_map_col_to_eq df c d g s :
  get_col df c = Some s ->
  get_col (map_col_to df c d g) c = Some (mkSeries d (map g (cells s))).
Proof.
  intros E. unfold map_col_to. rewrite E. apply get_set_col_eq. eauto using get_col_has_col.
Qed.

Lemma get_col_map_col_to_ne df c c' d g :
  c <> c' -> get_col (map_col_to df c d g) c' = get_col df c'.
Proof.
  intros H. unfold map_col_to. destruct (get_col df c); [|reflexivity].
  now apply get_set_col_ne.
Qed.

Lemma map_col_to_map_col_to df c d1 d2 g1 g2 :
  map_col_to (map_col_to df c d1 g1) c d2 g2 = map_col_to df c d2 (fun x => g2 (g1 x)).
Proof.
  destruct (get_col df c) as [s|] eqn:E.
  - unfold map_col_to at 1. rewrite (get_col_map_col_to_eq df c d1 g1 s E). simpl.
    unfold map_col_to. rewrite E, set_col_set_col. now rewrite map_map.
  - unfold map_col_to. now rewrite E, E.
Qed.

Lemma columns_map_col_to df c d g : columns (map_col_to df c d g) = columns df.
Proof.
  unfold map_col_to. destruct (get_col df c) eqn:E; [|reflexivity].
  apply columns_set_col. eauto using get_col_has_col.
Qed.

Lemma has_col_map_col_to df c c' d g : has_col (map_col_to df c d g) c' = has_col df c'.
Proof. unfold has_col. now rewrite columns_map_col_to. Qed.

Lemma cell_at_map_col_to_eq df c d g i :
  cell_at (map_col_to df c d g) c i = option_map g (cell_at df c i).
Proof.
  unfold cell_at. destruct (get_col df c) as [s|] eqn:E.
  - rewrite (get_col_map_col_to_eq df c d g s E). simpl. apply nth_error_map.
  - unfold map_col_to. now rewrite E, E.
Qed.

Lemma cell_at_map_col_to_ne df c c' d g i :
  c <> c' -> cell_at (map_col_to df c d g) c' i = cell_at df c' i.
Proof. intros H. unfold cell_at. now rewrite get_col_map_col_to_ne. Qed.

Lemma col_dtype_map_col_to_ne df c c' d g :
  c <> c' -> col_dtype (map_col_to df c d g) c' = col_dtype df c'.
Proof. intros H. unfold col_dtype. now rewrite get_col_map_col_to_ne. Qed.

Lemma nrows_set_col df c s :
  length (cells s) = nrows df -> nrows (set_col df c s) = nrows df.
Proof.
  destruct df as [|[n s'] df]; simpl; [auto|].
  destruct (String.eqb c n); simpl; auto.
Qed.

(** ** [FixerStrategy.fix] *)

(** C7.  For every fixer strategy and every table, [fix] returns a table
    (it is total, where [_fix] may raise): when [_fix] raises the original
    table is returned; an empty table is returned as it is; and the fix
    counter left by the call is the one [_fix] accumulates from zero,
    whatever it was before the call. *)
Theorem fix_never_raises (s : FixerStrategy) (df : Table) (fix_count : nat) :
  (fst (_fix s df 0%nat) = None -> fst (fix_ s df fix_count) = df) /\
  (empty df = true -> fix_ s df fix_count = (df, 0%nat)) /\
  snd (fix_ s df fix_count) = (if empty df then 0%nat else snd (_fix s df 0%nat)) /\
  (forall n, fix_ s df fix_count = fix_ s df n).
Proof.
  unfold fix_. repeat split.
  - intros H. destruct (empty df); [reflexivity|].
    destruct (_fix s df 0%nat) as [[r|] n]; [discriminate|reflexivity].
  - intros ->. reflexivity.
  - destruct (empty df); [reflexivity|].
    destruct (_fix s df 0%nat) as [[r|] n]; reflexivity.
Qed.

Lemma fix_never_raises_witness :
  fst (fix_ raising_strategy one_cell_table 7) = one_cell_table /\
  fix_ raising_strategy [] 7 = ([], 0%nat).
Proof.
  split.
  - apply (proj1 (fix_never_raises raising_strategy one_cell_table 7)). reflexivity.
  - apply (proj1 (proj2 (fix_never_raises raising_strategy [] 7))). reflexivity.
Defined.

(** ** [DataConsistencyFixerStrategy] on Fraud data *)

Lemma fraud_indicator_run df n :
  has_col df "IsOnlineTransaction" = true ->
  has_col df "IsUsedChip" = true ->
  has_col df "IsUsedPIN" = true ->
  exists df' n',
    DataConsistencyFixerStrategy._fix_fraud_indicator_consistency df n = (Some df', n') /\
    (forall i, cell_at df' "IsOnlineTransaction" i = cell_at df "IsOnlineTransaction" i) /\
    (forall i, cell_at df' "IsUsedChip" i =
               if cell_is df "IsOnlineTransaction" i 1 && cell_is df "IsUsedChip" i 1
               then Some (Num 0) else cell_at df "IsUsedChip" i) /\
    (forall i, cell_at df' "IsUsedPIN" i =
               if cell_is df "IsOnlineTransaction" i 1 && cell_is df "IsUsedPIN" i 1
               then Some (Num 0) else cell_at df "IsUsedPIN" i).
Proof.
  intros Ho Hc Hp.
  destruct (has_col_get_col _ _ Ho) as [online Eo].
  destruct (has_col_get_col _ _ Hc) as [chip Ec].
  destruct (has_col_get_col _ _ Hp) as [pin Ep].
  set (m1 := mask_and (eq_scalar online 1) (eq_scalar chip 1)).
  set (df1 := if Nat.ltb 0 (mask_sum m1)
              then loc_set df m1 "IsUsedChip" (fun _ => Num 0) else df).
  assert (Eo1 : get_col df1 "IsOnlineTransaction" = Some online).
  { subst df1. destruct (Nat.ltb 0 (mask_sum m1)); [|exact Eo].
    unfold loc_set. rewrite Ec, get_set_col_ne; [exact Eo|discriminate]. }
  assert (Ep1 : get_col df1 "IsUsedPIN" = Some pin).
  { subst df1. destruct (Nat.ltb 0 (mask_sum m1)); [|exact Ep].
    unfold loc_set. rewrite Ec, get_set_col_ne; [exact Ep|discriminate]. }
  set (m2 := mask_and (eq_scalar online 1) (eq_scalar pin 1)).
  set (df2 := if Nat.ltb 0 (mask_sum m2)
              then loc_set df1 m2 "IsUsedPIN" (fun _ => Num 0) else df1).
  assert (Hm1 : forall i, nth_error m1 i = Some true <->
            cell_is df "IsOnlineTransaction" i 1 && cell_is df "IsUsedChip" i 1 = true).
  { intros i. subst m1. unfold cell_is, cell_at. rewrite mask_and_nth, !eq_scalar_nth, Eo, Ec.
    destruct (nth_error (cells online) i), (nth_error (cells chip) i); simpl;
      try (split; [discriminate|]); try (intros H; discriminate H);
      try (rewrite ?andb_false_r; discriminate).
    split; [now intros [= ->]|now intros ->]. }
  assert (Hm2 : forall i, nth_error m2 i = Some true <->
            cell_is df "IsOnlineTransaction" i 1 && cell_is df "IsUsedPIN" i 1 = true).
  { intros i. subst m2. unfold cell_is, cell_at. rewrite mask_and_nth, !eq_scalar_nth, Eo, Ep.
    destruct (nth_error (cells online) i), (nth_error (cells pin) i); simpl;
      try (split; [discriminate|]); try (intros H; discriminate H);
      try (rewrite ?andb_false_r; discriminate).
    split; [now intros [= ->]|now intros ->]. }
  assert (Hrun : exists n',
  DataConsistencyFixerStrategy._fix_fraud_indicator_consistency df n = (Some df2, n')).
  { unfold DataConsistencyFixerStrategy._fix_fraud_indicator_consistency,
      bind, col, lift, ret, _log_fixes.
    rewrite Eo, Ec. fold m1.
    destruct (Nat.ltb 0 (mask_sum m1)) eqn:E1; fold df1;
      rewrite Eo1, Ep1; fold m2;
      subst df2; destruct (Nat.ltb 0 (mask_sum m2)) eqn:E2; eauto. }
  destruct Hrun as [n' Hrun]. exists df2, n'. split; [exact Hrun|].
  subst df2 df1. repeat split; intros i.
  - rewrite cell_at_guarded_loc_set, cell_at_loc_set_ne by discriminate.
    now rewrite cell_at_guarded_loc_set, cell_at_loc_set_ne by discriminate.
  - rewrite cell_at_guarded_loc_set, cell_at_loc_set_ne by discriminate.
    rewrite cell_at_guarded_loc_set, cell_at_loc_set_eq.
    specialize (Hm1 i).
    destruct (cell_is df "IsOnlineTransaction" i 1 && cell_is df "IsUsedChip" i 1) eqn:Eb.
    + rewrite (proj2 Hm1 eq_refl).
      unfold cell_is in Eb. destruct (cell_at df "IsUsedChip" i); [reflexivity|].
      now rewrite andb_false_r in Eb.
    + destruct (nth_error m1 i) as [[|]|]; try reflexivity.
      now specialize (proj1 Hm1 eq_refl).
  - rewrite cell_at_guarded_loc_set, cell_at_loc_set_eq.
    rewrite cell_at_guarded_loc_set, cell_at_loc_set_ne by discriminate.
    specialize (Hm2 i).
    destruct (cell_is df "IsOnlineTransaction" i 1 && cell_is df "IsUsedPIN" i 1) eqn:Eb.
    + rewrite (proj2 Hm2 eq_refl).
      unfold cell_is in Eb. destruct (cell_at df "IsUsedPIN" i); [reflexivity|].
      now rewrite andb_false_r in Eb.
    + destruct (nth_error m2 i) as [[|]|]; try reflexivity.
      now specialize (proj1 Hm2 eq_refl).
Qed.

(** C8.  On the Fraud dataset, for a table with the four binary indicator
    columns, after [DataConsistencyFixerStrategy.fix] no row has
    [IsOnlineTransaction = 1] together with [IsUsedChip = 1] or with
    [IsUsedPIN = 1]; a row that had [IsOnlineTransaction = 1] and
    [IsUsedChip = 1] ends with [IsUsedChip = 0]. *)
Theorem fraud_online_excludes_chip_and_pin
    (config : Config) (loan market : Table -> FixM Table)
    (df : Table) (fix_count i : nat) :
  current_dataset config = "Fraud" ->
  forallb (has_col df)
    ["IsFraudulent"; "IsOnlineTransaction"; "IsUsedChip"; "IsUsedPIN"] = true ->
  wf_table df = true ->
  let df' := fst (fix_ (DataConsistencyFixerStrategy.strategy config loan market)
                       df fix_count) in
  cell_is df' "IsOnlineTransaction" i 1 && cell_is df' "IsUsedChip" i 1 = false /\
  cell_is df' "IsOnlineTransaction" i 1 && cell_is df' "IsUsedPIN" i 1 = false /\
  (cell_is df "IsOnlineTransaction" i 1 = true ->
   cell_is df "IsUsedChip" i 1 = true ->
   cell_at df' "IsUsedChip" i = Some (Num 0)).
Proof.
  intros Hname Hcols Hwf. unfold fix_. simpl _fix.
  unfold DataConsistencyFixerStrategy._fix.
  destruct (empty df) eqn:He.
  - simpl. unfold cell_is. rewrite !(wf_table_empty_cell_at df) by assumption.
    repeat split; discriminate.
  - rewrite Hname.
    change (String.eqb "Fraud" "Loan") with false.
    change (String.eqb "Fraud" "Market") with false.
    change (String.eqb "Fraud" "Fraud") with true. cbv iota.
    unfold DataConsistencyFixerStrategy._fix_fraud_consistency. rewrite Hcols.
    simpl in Hcols. rewrite !andb_true_iff in Hcols.
    destruct Hcols as (_ & Ho & Hc & Hp & _).
    destruct (fraud_indicator_run df 0%nat Ho Hc Hp) as (df' & n' & Hrun & Xo & Xc & Xp).
    rewrite Hrun. simpl. unfold cell_is at 1 2 3 4. rewrite Xo, Xc, Xp.
    repeat split.
    + destruct (cell_is df "IsOnlineTransaction" i 1) eqn:E1; simpl.
      * destruct (cell_is df "IsUsedChip" i 1) eqn:E2.
        -- destruct (cell_at df "IsOnlineTransaction" i); [|reflexivity].
           now rewrite andb_false_r.
        -- fold (cell_is df "IsUsedChip" i 1). rewrite E2. apply andb_false_r.
      * fold (cell_is df "IsOnlineTransaction" i 1). now rewrite E1.
    + destruct (cell_is df "IsOnlineTransaction" i 1) eqn:E1; simpl.
      * destruct (cell_is df "IsUsedPIN" i 1) eqn:E2.
        -- destruct (cell_at df "IsOnlineTransaction" i); [|reflexivity].
           now rewrite andb_false_r.
        -- fold (cell_is df "IsUsedPIN" i 1). rewrite E2. apply andb_false_r.
      * fold (cell_is df "IsOnlineTransaction" i 1). now rewrite E1.
    + intros -> ->. reflexivity.
Qed.

Lemma fraud_online_excludes_chip_and_pin_witness :
  let df' := fst (fix_ (DataConsistencyFixerStrategy.strategy fraud_config ret ret)
                       fraud_table 0) in
  cell_is df' "IsOnlineTransaction" 0 1 && cell_is df' "IsUsedChip" 0 1 = false /\
  cell_is df' "IsOnlineTransaction" 0 1 && cell_is df' "IsUsedPIN" 0 1 = false /\
  cell_at df' "IsUsedChip" 0 = Some (Num 0).
Proof.
  destruct (fraud_online_excludes_chip_and_pin fraud_config ret ret fraud_table 0 0
              eq_refl eq_refl eq_refl) as (H1 & H2 & H3).
  split; [exact H1|split; [exact H2|apply H3; reflexivity]].
Defined.

(** ** [ValidationPipeline.process] *)

Lemma count_severities_spec l c w :
  count_severities l c w =
  ((c + length (List.filter (has_severity "critical") l))%nat,
   (w + length (List.filter (has_severity "warning") l))%nat).
Proof.
  revert c w. induction l as [|i l IH]; intros c w; simpl.
  - f_equal; lia.
  - change (String.eqb (severity i) "critical") with (has_severity "critical" i).
    change (String.eqb (severity i) "warning") with (has_severity "warning" i).
    destruct (has_severity "critical" i) eqn:E1, (has_severity "warning" i) eqn:E2;
      rewrite IH; simpl; try (f_equal; lia).
    unfold has_severity in E1, E2. apply String.eqb_eq in E1, E2. congruence.
Qed.

Lemma process_step_spec df acc s :
  loop_inv acc ->
  loop_inv (process_step df acc s) /\
  all_issues (process_step df acc s) = (all_issues acc ++ issues (validate s df))%list.
Proof.
  intros [Hc Hw]. unfold process_step, loop_inv.
  destruct (issues (validate s df)) as [|i l] eqn:E.
  - simpl. rewrite app_nil_r. auto.
  - rewrite count_severities_spec. cbn [all_issues critical_count warning_count].
    rewrite !List.filter_app, !length_app, Hc, Hw. auto.
Qed.

Lemma process_loop_spec df steps acc :
  loop_inv acc ->
  loop_inv (fold_left (process_step df) steps acc) /\
  all_issues (fold_left (process_step df) steps acc) =
  (all_issues acc ++ flat_map (fun s => issues (validate s df)) steps)%list.
Proof.
  revert acc. induction steps as [|s steps IH]; intros acc Hinv; simpl.
  - rewrite app_nil_r. auto.
  - destruct (process_step_spec df acc s Hinv) as [Hinv' Hall].
    destruct (IH _ Hinv') as [H1 H2]. split; [exact H1|].
    rewrite H2, Hall. now rewrite <- app_assoc.
Qed.

(** C2.  In every validation run the quality score is
    [max(0, 100 - 10*critical_count - 2*warning_count)], counted over the
    issues of the strategies the run executes, and it lies in [0, 100]
    however many issues there are; on a non-empty table those issues are
    the ["issues"] of the result. *)
Theorem quality_score_formula (steps : list ValidationStrategy) (n : nat) (df : Table) :
  let r := fst (process steps n df) in
  let c := count_severity "critical" (strategy_issues steps df) in
  let w := count_severity "warning" (strategy_issues steps df) in
  dataset_quality_score r = Z.max 0 (100 - 10 * c - 2 * w) /\
  (0 <= dataset_quality_score r <= 100)%Z /\
  (empty df = false -> v_issues r = strategy_issues steps df).
Proof.
  unfold process, strategy_issues, count_severity. destruct (empty df) eqn:He; simpl.
  - repeat split; try lia; discriminate.
  - assert (Hinit : loop_inv (mkProcessLoop "passed" [] [] 0 0)) by (split; reflexivity).
    destruct (process_loop_spec df steps _ Hinit) as [[Hc Hw] Hall].
    simpl in Hall. rewrite <- Hall.
    set (acc := fold_left (process_step df) steps _) in *.
    rewrite <- Hc, <- Hw.
    destruct (all_issues acc) eqn:E.
    + simpl in Hc, Hw. rewrite Hc, Hw. repeat split; lia.
    + repeat split; lia.
Qed.

Lemma quality_score_formula_witness :
  v_issues (fst (process [two_issue_strategy; failing_strategy] 0 one_cell_table)) =
  strategy_issues [two_issue_strategy; failing_strategy] one_cell_table /\
  dataset_quality_score (fst (process [two_issue_strategy; failing_strategy] 0 one_cell_table))
  = 78%Z.
Proof.
  destruct (quality_score_formula [two_issue_strategy; failing_strategy] 0 one_cell_table)
    as (Hs & _ & Hi).
  split; [apply Hi; reflexivity|]. rewrite Hs. reflexivity.
Defined.

(** ** Validation steps *)


(** ** [CacheManager] *)

Lemma drop_dataset_lookup X (m : gmap string Table) k :
  drop_dataset X m !! k = if key_of_dataset X k then None else m !! k.
Proof.
  unfold drop_dataset. destruct (key_of_dataset X k) eqn:E.
  - apply map_lookup_filter_None. right. intros x _. simpl. congruence.
  - destruct (m !! k) as [x|] eqn:Em.
    + apply map_lookup_filter_Some. split; [exact Em|exact E].
    + apply map_lookup_filter_None. left. exact Em.
Qed.




(** ** [PipelineExecutor.execute] *)

(** C1, at a failing input.  A table is loaded, the only step leaves it
    empty: [execute] returns the bare [False], not a 3-tuple whose first
    component is [False]. *)
Theorem execute_empty_step_returns_bare_false :
  let r := fst (execute (fun _ => one_cell_table) (fun _ _ => true) fraud_config
                  filtering_executor "Loan.csv" "Loan_cooked.csv") in
  r = ReturnBool false /\
  forall success final_df results, r <> ReturnTuple success final_df results.
Proof.
  assert (E : fst (execute (fun _ => one_cell_table) (fun _ _ => true) fraud_config
                     filtering_executor "Loan.csv" "Loan_cooked.csv") = ReturnBool false)
    by reflexivity.
  cbv zeta. rewrite E. split; [reflexivity|discriminate].
Qed.

(** Every other way out of [execute] hands back a 3-tuple. *)
Lemma execute_return_shape load save config ex input_path output_path :
  (exists success final_df results,
     fst (execute load save config ex input_path output_path)
     = ReturnTuple success final_df results) \/
  fst (execute load save config ex input_path output_path) = ReturnBool false.
Proof.
  unfold execute. destruct (empty (load input_path)); [left; simpl; eauto|].
  destruct (run_steps _ _ _ _ _ _ _ _ _) as [[[[exit steps] cm] counts] last].
  destruct exit; simpl; eauto.
Qed.

(** Whenever the loop stops on an empty table, the bare [False] is what the
    caller gets. *)
Lemma execute_empty_result load save config ex input_path output_path :
  empty (load input_path) = false ->
  fst (fst (fst (fst (run_steps save config (_dataset_name ex) output_path (_steps ex)
                        (load input_path) (_cache_manager ex) (validation_counts ex) None))))
  = EmptyResult ->
  fst (execute load save config ex input_path output_path) = ReturnBool false.
Proof.
  intros Hload Hexit. unfold execute. rewrite Hload.
  destruct (run_steps _ _ _ _ _ _ _ _ _) as [[[[exit steps] cm] counts] last].
  simpl in Hexit. subst exit. reflexivity.
Qed.

(** ** [DomainLoanFixerStrategy] *)

Lemma numeric_preserving_const q : numeric_preserving (fun _ => Num q).
Proof. intros x _. reflexivity. Qed.

Lemma numeric_preserving_abs d : numeric_preserving (cell_abs d).
Proof.
  intros [x|x|x|]; simpl; auto. intros _. destruct (abs_overflows d x); reflexivity.
Qed.

Lemma numeric_preserving_round : numeric_preserving cell_round.
Proof. intros [x|x|x|]; simpl; auto. Qed.

Lemma numeric_preserving_when_lt q f :
  numeric_preserving f -> numeric_preserving (when_lt q f).
Proof. intros Hf x Hx. unfold when_lt. destruct (ltb_q q x); auto. Qed.

Lemma numeric_preserving_when_gt q f :
  numeric_preserving f -> numeric_preserving (when_gt q f).
Proof. intros Hf x Hx. unfold when_gt. destruct (gtb_q q x); auto. Qed.

Lemma numeric_preserving_when_between a b f :
  numeric_preserving f -> numeric_preserving (when_between a b f).
Proof. intros Hf x Hx. unfold when_between. destruct (gtb_q a x && ltb_q b x); auto. Qed.

Lemma numeric_preserving_if (p : cell -> bool) f :
  numeric_preserving f -> numeric_preserving (fun x => if p x then f x else x).
Proof. intros Hf x Hx. destruct (p x); auto. Qed.

Create HintDb numeric.
#[local] Hint Resolve numeric_preserving_const numeric_preserving_abs
  numeric_preserving_round numeric_preserving_when_lt numeric_preserving_when_gt
  numeric_preserving_when_between numeric_preserving_if : numeric.

Lemma numeric_series_cells s : numeric_series s = true -> forallb numeric_cell (cells s) = true.
Proof. unfold numeric_series. destruct (dt s); auto; discriminate. Qed.

Lemma numeric_series_dtype s :
  numeric_series s = true -> dt s = number \/ dt s = int64.
Proof. unfold numeric_series. destruct (dt s); auto; discriminate. Qed.

Lemma numeric_series_map s d g :
  numeric_preserving g -> numeric_series s = true -> retyped (dt s) d ->
  numeric_series (mkSeries d (map g (cells s))) = true.
Proof.
  intros Hg Hs Hd. pose proof (numeric_series_cells s Hs) as Hc.
  assert (Hm : forallb numeric_cell (map g (cells s)) = true).
  { rewrite forallb_forall in *. intros x Hx. apply in_map_iff in Hx as (y & <- & Hy). auto. }
  unfold numeric_series. simpl.
  destruct (numeric_series_dtype s Hs) as [E|E], Hd as [->|[E' ->]]; rewrite ?E; auto.
Qed.

Lemma loan_columns_numeric_get df c s :
  loan_columns_numeric df = true -> get_col df c = Some s -> loan_field c = true ->
  numeric_series s = true.
Proof.
  unfold loan_columns_numeric. induction df as [|[n s'] df IH]; simpl; [discriminate|].
  intros H. apply andb_true_iff in H as [H1 H2].
  destruct (String.eqb c n) eqn:E.
  - apply String.eqb_eq in E. subst n. intros [= ->] Hc. now rewrite Hc in H1.
  - auto.
Qed.

Lemma loan_columns_numeric_map_col_to df c d g :
  numeric_preserving g -> retyped (col_dtype df c) d -> loan_columns_numeric df = true ->
  loan_columns_numeric (map_col_to df c d g) = true.
Proof.
  intros Hg. unfold map_col_to, col_dtype. destruct (get_col df c) as [s|] eqn:E; [|auto].
  unfold loan_columns_numeric. revert E.
  induction df as [|[n s'] df IH]; simpl; [discriminate|].
  intros E Hd H. apply andb_true_iff in H as [H1 H2].
  destruct (String.eqb c n) eqn:En; simpl.
  - injection E as ->. rewrite H2, andb_true_r.
    destruct (loan_field n); simpl in *; [|reflexivity]. now apply numeric_series_map.
  - rewrite H1. simpl. auto.
Qed.

(** Running one compare-and-fix step on a numeric column. *)
Lemma fix_lt_run df c s q f (K : Table -> FixM Table) n :
  get_col df c = Some s -> numeric_series s = true ->
  exists d n', retyped (dt s) d /\
    bind (col df c) (fun x => bind (lift (lt_scalar x q))
      (fun m => bind (fix_where df m c f) K)) n
    = K (map_col_to df c d (when_lt q f)) n'.
Proof.
  intros E Hs. unfold bind at 1 2 3, col, lift. rewrite E, (lt_scalar_numeric s q Hs).
  destruct (fix_where_run df (map (ltb_q q) (cells s)) c f n) as [n' ->].
  destruct (loc_set_map df s c (ltb_q q) f E) as (d & Hd & ->). eauto.
Qed.

(** The same for [df.loc[df[c] < 0, c] = df[c].abs()]. *)
Lemma fix_abs_run df c s (K : Table -> FixM Table) n :
  get_col df c = Some s -> numeric_series s = true ->
  exists d n', retyped (dt s) d /\
    bind (col df c) (fun x => bind (lift (lt_scalar x 0))
      (fun m => bind (fix_where df m c (cell_abs (dt x))) K)) n
    = K (map_col_to df c d (when_lt 0 (cell_abs (dt s)))) n'.
Proof.
  intros E Hs. unfold bind at 1 2 3, col, lift. rewrite E, (lt_scalar_numeric s 0 Hs).
  destruct (fix_where_run df (map (ltb_q 0) (cells s)) c (cell_abs (dt s)) n) as [n' ->].
  destruct (loc_set_map df s c (ltb_q 0) (cell_abs (dt s)) E) as (d & Hd & ->). eauto.
Qed.

Lemma fix_abs_last df c s n :
  get_col df c = Some s -> numeric_series s = true ->
  exists d n', retyped (dt s) d /\
    bind (col df c) (fun x => bind (lift (lt_scalar x 0))
      (fun m => fix_where df m c (cell_abs (dt x)))) n
    = (Some (map_col_to df c d (when_lt 0 (cell_abs (dt s)))), n').
Proof.
  intros E Hs. unfold bind at 1 2, col, lift. rewrite E, (lt_scalar_numeric s 0 Hs).
  destruct (fix_where_run df (map (ltb_q 0) (cells s)) c (cell_abs (dt s)) n) as [n' ->].
  destruct (loc_set_map df s c (ltb_q 0) (cell_abs (dt s)) E) as (d & Hd & ->). eauto.
Qed.

Lemma fix_gt_run df c s q f (K : Table -> FixM Table) n :
  get_col df c = Some s -> numeric_series s = true ->
  exists d n', retyped (dt s) d /\
    bind (col df c) (fun x => bind (lift (gt_scalar x q))
      (fun m => bind (fix_where df m c f) K)) n
    = K (map_col_to df c d (when_gt q f)) n'.
Proof.
  intros E Hs. unfold bind at 1 2 3, col, lift. rewrite E, (gt_scalar_numeric s q Hs).
  destruct (fix_where_run df (map (gtb_q q) (cells s)) c f n) as [n' ->].
  destruct (loc_set_map df s c (gtb_q q) f E) as (d & Hd & ->). eauto.
Qed.

Lemma fix_between_run df c s a b f (K : Table -> FixM Table) n :
  get_col df c = Some s -> numeric_series s = true ->
  exists d n', retyped (dt s) d /\
    bind (col df c) (fun x => bind (lift (gt_scalar x a))
      (fun above => bind (lift (lt_scalar x b))
        (fun below => bind (fix_where df (mask_and above below) c f) K))) n
    = K (map_col_to df c d (when_between a b f)) n'.
Proof.
  intros E Hs. unfold bind at 1 2 3 4, col, lift.
  rewrite E, (gt_scalar_numeric s a Hs), (lt_scalar_numeric s b Hs), mask_and_map.
  destruct (fix_where_run df (map (fun c => gtb_q a c && ltb_q b c) (cells s)) c f n)
    as [n' ->].
  destruct (loc_set_map df s c (fun c => gtb_q a c && ltb_q b c) f E) as (d & Hd & ->). eauto.
Qed.

Lemma bind_run {A B} (m : FixM A) (k : A -> FixM B) n x n' :
  m n = (Some x, n') -> bind m k n = k x n'.
Proof. intros H. unfold bind. now rewrite H. Qed.

Lemma bind_ret {A} (m : FixM A) n : bind m ret n = m n.
Proof. unfold bind, ret. destruct (m n) as [[x|] n']; reflexivity. Qed.

Lemma fix_gt_last df c s q f n :
  get_col df c = Some s -> numeric_series s = true ->
  exists d n', retyped (dt s) d /\
    bind (col df c) (fun x => bind (lift (gt_scalar x q))
      (fun m => fix_where df m c f)) n
    = (Some (map_col_to df c d (when_gt q f)), n').
Proof.
  intros E Hs. unfold bind at 1 2, col, lift. rewrite E, (gt_scalar_numeric s q Hs).
  destruct (fix_where_run df (map (gtb_q q) (cells s)) c f n) as [n' ->].
  destruct (loc_set_map df s c (gtb_q q) f E) as (d & Hd & ->). eauto.
Qed.

Lemma fix_between_last df c s a b f n :
  get_col df c = Some s -> numeric_series s = true ->
  exists d n', retyped (dt s) d /\
    bind (col df c) (fun x => bind (lift (gt_scalar x a))
      (fun above => bind (lift (lt_scalar x b))
        (fun below => fix_where df (mask_and above below) c f))) n
    = (Some (map_col_to df c d (when_between a b f)), n').
Proof.
  intros E Hs. unfold bind at 1 2 3, col, lift.
  rewrite E, (gt_scalar_numeric s a Hs), (lt_scalar_numeric s b Hs), mask_and_map.
  destruct (fix_where_run df (map (fun c => gtb_q a c && ltb_q b c) (cells s)) c f n)
    as [n' ->].
  destruct (loc_set_map df s c (fun c => gtb_q a c && ltb_q b c) f E) as (d & Hd & ->). eauto.
Qed.

Lemma has_col_false_get_col df c : has_col df c = false -> get_col df c = None.
Proof.
  intros H. destruct (get_col df c) eqn:E; [|reflexivity].
  apply get_col_has_col in E. congruence.
Qed.

Lemma map_col_to_absent df c d g : get_col df c = None -> map_col_to df c d g = df.
Proof. intros E. unfold map_col_to. now rewrite E. Qed.

Lemma col_dtype_get df c s : get_col df c = Some s -> col_dtype df c = dt s.
Proof. intros E. unfold col_dtype. now rewrite E. Qed.

Lemma whenM_run df c (F : Table -> FixM Table) g n :
  (forall s, get_col df c = Some s ->
     exists d n', retyped (dt s) d /\ F df n = (Some (map_col_to df c d g), n')) ->
  exists d n', retyped (col_dtype df c) d /\
    whenM (has_col df c) F df n = (Some (map_col_to df c d g), n').
Proof.
  intros H. unfold whenM. destruct (has_col df c) eqn:E.
  - destruct (has_col_get_col _ _ E) as [s Es]. rewrite (col_dtype_get _ _ _ Es). eauto.
  - exists (col_dtype df c), n. split; [apply retyped_refl|].
    unfold ret. now rewrite (map_col_to_absent _ _ _ _ (has_col_false_get_col _ _ E)).
Qed.

(** The series left in column [c] by [map_col_to] is numeric again. *)
Lemma map_col_to_numeric df c s d g :
  get_col df c = Some s -> numeric_series s = true -> retyped (dt s) d ->
  numeric_preserving g ->
  exists s', get_col (map_col_to df c d g) c = Some s' /\ numeric_series s' = true /\
             dt s' = d.
Proof.
  intros E Hs Hd Hg. eexists. split; [apply get_col_map_col_to_eq; exact E|].
  split; [now apply numeric_series_map|reflexivity].
Qed.

Section LoanRuns.
Import DomainLoanFixerStrategy.

(** Negative values replaced by their absolute value, then a cap. *)
Lemma abs_then_cap_run df c s cap n :
  get_col df c = Some s -> numeric_series s = true ->
  exists d n', retyped (dt s) d /\
    bind (col df c) (fun x => bind (lift (lt_scalar x 0)) (fun negative_mask =>
      bind (fix_where df negative_mask c (cell_abs (dt x))) (fun df =>
        bind (col df c) (fun x => bind (lift (gt_scalar x cap)) (fun high_mask =>
          fix_where df high_mask c (fun _ => Num cap)))))) n
    = (Some (map_col_to df c d
               (abs_cap_cell (dt s) cap)), n').
Proof.
  intros E Hs.
  destruct (fix_abs_run df c s
              (fun df => bind (col df c) (fun x =>
                 bind (lift (gt_scalar x cap)) (fun high_mask =>
                   fix_where df high_mask c (fun _ => Num cap)))) n E Hs)
    as (d1 & n1 & Hd1 & ->).
  destruct (map_col_to_numeric df c s d1 (when_lt 0 (cell_abs (dt s))) E Hs Hd1)
    as (s1 & E1 & Hs1 & Hdt1); [auto with numeric|].
  destruct (fix_gt_last _ c s1 cap (fun _ => Num cap) n1 E1 Hs1) as (d2 & n2 & Hd2 & ->).
  rewrite map_col_to_map_col_to. exists d2, n2. split; [|reflexivity].
  rewrite Hdt1 in Hd2. eapply retyped_trans; eassumption.
Qed.

Lemma _fix_interest_rate_run df s n :
  get_col df "InterestRate" = Some s -> numeric_series s = true ->
  exists d n', retyped (dt s) d /\ _fix_interest_rate df n =
    (Some (map_col_to df "InterestRate" d (abs_cap_cell (dt s) 100)), n').
Proof. intros E Hs. apply (abs_then_cap_run df "InterestRate" s 100 n E Hs). Qed.

Lemma _fix_loan_amount_run df s n :
  get_col df "LoanAmount" = Some s -> numeric_series s = true ->
  exists d n', retyped (dt s) d /\ _fix_loan_amount df n =
    (Some (map_col_to df "LoanAmount" d (abs_cap_cell (dt s) 10000000)), n').
Proof. intros E Hs. apply (abs_then_cap_run df "LoanAmount" s 10000000 n E Hs). Qed.

Lemma _fix_annual_income_run df s n :
  get_col df "AnnualIncome" = Some s -> numeric_series s = true ->
  exists d n', retyped (dt s) d /\ _fix_annual_income df n =
    (Some (map_col_to df "AnnualIncome" d (abs_cap_cell (dt s) 100000000)), n').
Proof. intros E Hs. apply (abs_then_cap_run df "AnnualIncome" s 100000000 n E Hs). Qed.

Lemma _fix_credit_score_run df s n :
  get_col df "CreditScore" = Some s -> numeric_series s = true ->
  exists d n', retyped (dt s) d /\ _fix_credit_score df n =
    (Some (map_col_to df "CreditScore" d score_cell), n').
Proof.
  intros E Hs. unfold _fix_credit_score.
  destruct (fix_lt_run df "CreditScore" s 0 (fun _ => Num 300)
              (fun df => bind (col df "CreditScore") (fun score =>
                 bind (lift (gt_scalar score 0)) (fun above =>
                   bind (lift (lt_scalar score 300)) (fun below =>
                     bind (fix_where df (mask_and above below) "CreditScore"
                             (fun _ => Num 300))
                       (fun df => bind (col df "CreditScore") (fun score =>
                          bind (lift (gt_scalar score 850)) (fun high_mask =>
                            fix_where df high_mask "CreditScore" (fun _ => Num 850))))))))
              n E Hs) as (d1 & n1 & Hd1 & ->).
  destruct (map_col_to_numeric df "CreditScore" s d1 (when_lt 0 (fun _ => Num 300)) E Hs Hd1)
    as (s1 & E1 & Hs1 & Hdt1); [auto with numeric|].
  destruct (fix_between_run _ "CreditScore" s1 0 300 (fun _ => Num 300)
              (fun df => bind (col df "CreditScore") (fun score =>
                 bind (lift (gt_scalar score 850)) (fun high_mask =>
                   fix_where df high_mask "CreditScore" (fun _ => Num 850))))
              n1 E1 Hs1) as (d2 & n2 & Hd2 & ->).
  destruct (map_col_to_numeric _ "CreditScore" s1 d2 (when_between 0 300 (fun _ => Num 300))
              E1 Hs1 Hd2) as (s2 & E2 & Hs2 & Hdt2); [auto with numeric|].
  destruct (fix_gt_last _ "CreditScore" s2 850 (fun _ => Num 850) n2 E2 Hs2)
    as (d3 & n3 & Hd3 & ->).
  rewrite !map_col_to_map_col_to. exists d3, n3. split; [|reflexivity].
  rewrite Hdt1 in Hd2. rewrite Hdt2 in Hd3.
  eapply retyped_trans; [|eassumption]. eapply retyped_trans; eassumption.
Qed.
End LoanRuns.

Lemma median_numeric s :
  numeric_series s = true -> exists m, median s = Some m /\ numeric_cell m = true.
Proof.
  intros H. unfold median.
  destruct (numeric_values_numeric _ (numeric_series_cells s H)) as [vs ->]. simpl.
  eexists. split; [reflexivity|].
  unfold median_sorted. destruct (sort_values vs); [reflexivity|].
  destruct (Nat.even _); reflexivity.
Qed.

Lemma quantile_numeric s q :
  numeric_series s = true -> exists m, quantile s q = Some m /\ numeric_cell m = true.
Proof.
  intros H. unfold quantile.
  destruct (numeric_values_numeric _ (numeric_series_cells s H)) as [vs ->]. simpl.
  eexists. split; [reflexivity|].
  unfold quantile_sorted. destruct (sort_values vs); reflexivity.
Qed.

Section LoanRuns2.
Import DomainLoanFixerStrategy.

Lemma _fix_age_values_run df s n :
  get_col df "Age" = Some s -> numeric_series s = true ->
  exists d n', retyped (dt s) d /\ _fix_age_values df n =
    (Some (map_col_to df "Age" d (age_cell (median_or_na df "Age"))), n').
Proof.
  intros E Hs. unfold _fix_age_values.
  destruct (median_numeric s Hs) as (m & Em & Hm).
  assert (Emed : median_or_na df "Age" = m) by (unfold median_or_na; now rewrite E, Em).
  unfold bind at 1 2 3, col at 1, lift at 1. rewrite E, (lt_scalar_numeric s 0 Hs).
  unfold lift at 1. cbv beta iota.
  set (mask := map (ltb_q 0) (cells s)).
  assert (Hstep : exists d1 n1, retyped (dt s) d1 /\
    (if Nat.ltb 0 (mask_sum mask)
     then bind (lift (median s)) (fun m =>
            bind (_log_fixes (mask_sum mask)) (fun _ =>
              ret (loc_set df mask "Age" (fun _ => m))))
     else ret df) n
    = (Some (map_col_to df "Age" d1 (when_lt 0 (fun _ => median_or_na df "Age"))), n1)).
  { rewrite Emed.
    destruct (loc_set_map df s "Age" (ltb_q 0) (fun _ => m) E) as (d1 & Hd1 & Hl).
    fold mask in Hl. destruct (Nat.ltb 0 (mask_sum mask)) eqn:Eb.
    - unfold bind, lift, _log_fixes, ret. rewrite Em, Hl. eauto.
    - apply Nat.ltb_ge in Eb. rewrite loc_set_no_true in Hl by lia.
      exists d1, n. split; [exact Hd1|]. unfold ret. do 2 f_equal. exact Hl. }
  destruct Hstep as (d1 & n1 & Hd1 & ->).
  assert (Hmp : numeric_preserving (when_lt 0 (fun _ => median_or_na df "Age"))).
  { apply numeric_preserving_when_lt. intros x _. now rewrite Emed. }
  destruct (map_col_to_numeric df "Age" s d1 _ E Hs Hd1 Hmp) as (s1 & E1 & Hs1 & Hdt1).
  destruct (fix_gt_run _ "Age" s1 100 (fun _ => Num 100)
              (fun df => bind (col df "Age") (fun age =>
                 bind (lift (gt_scalar age 0)) (fun above =>
                   bind (lift (lt_scalar age 18)) (fun below =>
                     fix_where df (mask_and above below) "Age" (fun _ => Num 18)))))
              n1 E1 Hs1) as (d2 & n2 & Hd2 & ->).
  destruct (map_col_to_numeric _ "Age" s1 d2 (when_gt 100 (fun _ => Num 100)) E1 Hs1 Hd2)
    as (s2 & E2 & Hs2 & Hdt2); [auto with numeric|].
  destruct (fix_between_last _ "Age" s2 0 18 (fun _ => Num 18) n2 E2 Hs2)
    as (d3 & n3 & Hd3 & ->).
  rewrite !map_col_to_map_col_to. exists d3, n3. split; [|reflexivity].
  rewrite Hdt1 in Hd2. rewrite Hdt2 in Hd3.
  eapply retyped_trans; [|eassumption]. eapply retyped_trans; eassumption.
Qed.

Lemma numeric_values_In l vs r :
  numeric_values l = Some vs -> In (Num r) l -> In r vs.
Proof.
  revert vs. induction l as [|x l IH]; intros vs H Hin; [destruct Hin|].
  destruct x as [q| | |]; cbn [numeric_values] in H; try discriminate.
  - destruct (numeric_values l) as [vs'|]; [|discriminate]. injection H as <-.
    destruct Hin as [[= ->]|Hin]; [now left|right; eauto].
  - destruct Hin as [|Hin]; [discriminate|eauto].
Qed.

Lemma sort_values_nonempty vs : vs <> [] -> sort_values vs <> [].
Proof.
  destruct vs as [|x vs]; [congruence|]. intros _. unfold sort_values. cbn [fold_right].
  destruct (fold_right insert_sorted [] vs) as [|y l]; cbn [insert_sorted]; [discriminate|].
  destruct (Qle_bool x y); discriminate.
Qed.

Lemma numeric_preserving_num_loans q : numeric_cell q = true -> numeric_preserving (num_loans_cell q).
Proof.
  intros Hq x Hx. unfold num_loans_cell. apply numeric_preserving_when_gt.
  - intros _ _. destruct q; cbn in *; try discriminate; [|reflexivity].
    destruct (Qle_bool q 20); reflexivity.
  - apply numeric_preserving_when_lt; [apply numeric_preserving_const|exact Hx].
Qed.

Lemma quantile_cells s1 s2 q : cells s1 = cells s2 -> quantile s1 q = quantile s2 q.
Proof. unfold quantile. now intros ->. Qed.

Lemma num_loans_q99_numeric df : numeric_cell (num_loans_q99 df) = true.
Proof.
  unfold num_loans_q99. destruct (get_col df "NumLoans") as [s|]; [|reflexivity].
  unfold quantile. destruct (numeric_values _); [|reflexivity]. cbn [option_map].
  unfold quantile_sorted. destruct (sort_values l); reflexivity.
Qed.

Lemma _fix_num_loans_run df s n :
  get_col df "NumLoans" = Some s -> numeric_series s = true ->
  exists d n', retyped (dt s) d /\
    _fix_num_loans df n
    = (Some (map_col_to df "NumLoans" d (num_loans_cell (num_loans_q99 df))), n') /\
    (forall r, In (Num r) (cells s) -> 100 < r -> exists a, num_loans_q99 df = Num a).
Proof.
  intros E Hs. unfold _fix_num_loans.
  destruct (fix_lt_run df "NumLoans" s 0 (fun _ => Num 0)
              (fun df => bind (col df "NumLoans") (fun loans =>
                 bind (lift (gt_scalar loans 100)) (fun high_mask =>
                   if Nat.ltb 0 (mask_sum high_mask)
                   then bind (lift (quantile loans (99 # 100))) (fun q99 =>
                          bind (_log_fixes (mask_sum high_mask)) (fun _ =>
                            ret (loc_set df high_mask "NumLoans"
                                   (fun _ => min_with_20 q99))))
                   else ret df))) n E Hs) as (d1 & n1 & Hd1 & ->).
  destruct (map_col_to_numeric df "NumLoans" s d1 (when_lt 0 (fun _ => Num 0)) E Hs Hd1)
    as (s1 & E1 & Hs1 & Hdt1); [auto with numeric|].
  assert (Hc1 : cells s1 = map (when_lt 0 (fun _ => Num 0)) (cells s)).
  { rewrite (get_col_map_col_to_eq df "NumLoans" d1 _ s E) in E1. now injection E1 as <-. }
  unfold bind at 1 2, col, lift. rewrite E1, (gt_scalar_numeric s1 100 Hs1).
  destruct (quantile_numeric s1 (99 # 100) Hs1) as (q & Eq & Hq).
  assert (Eq99 : num_loans_q99 df = q).
  { unfold num_loans_q99. rewrite E.
    rewrite (quantile_cells _ s1 (99 # 100)) by (symmetry; exact Hc1). now rewrite Eq. }
  rewrite Eq99.
  assert (Hnum : forall r, In (Num r) (cells s) -> 100 < r -> exists a, q = Num a).
  { intros r Hin Hr. unfold quantile in Eq.
    destruct (numeric_values (cells s1)) as [vs|] eqn:Ev; [|discriminate].
    cbn [option_map] in Eq. injection Eq as <-.
    assert (Hin1 : In (Num r) (cells s1)).
    { rewrite Hc1. apply in_map_iff. exists (Num r). split; [|exact Hin].
      unfold when_lt, ltb_q.
      assert (Qle_bool 0 r = true) as -> by (apply Qle_bool_iff; lra). reflexivity. }
    pose proof (numeric_values_In _ _ _ Ev Hin1) as Hvs.
    assert (Hne : sort_values vs <> []).
    { apply sort_values_nonempty. intros ->. destruct Hvs. }
    unfold quantile_sorted. destruct (sort_values vs); [congruence|]. eauto. }
  destruct (loc_set_map _ s1 "NumLoans" (gtb_q 100) (fun _ => min_with_20 q) E1)
    as (d2 & Hd2 & Hl).
  rewrite map_col_to_map_col_to in Hl. rewrite Hdt1 in Hd2.
  change (fun x => if gtb_q 100 (when_lt 0 (fun _ => Num 0) x)
                   then min_with_20 q else when_lt 0 (fun _ => Num 0) x)
    with (num_loans_cell q) in Hl.
  exists d2. destruct (Nat.ltb 0 (mask_sum (map (gtb_q 100) (cells s1)))) eqn:Eb.
  - unfold bind, lift, _log_fixes, ret. rewrite Eq, Hl.
    eexists. split; [eapply retyped_trans; eassumption|]. split; [reflexivity|exact Hnum].
  - apply Nat.ltb_ge in Eb. rewrite loc_set_no_true in Hl by lia.
    exists n1. split; [eapply retyped_trans; eassumption|]. split; [|exact Hnum].
    unfold ret. do 2 f_equal. exact Hl.
Qed.

Lemma fix_count_column_run df c n :
  is_count_column c = true -> loan_columns_numeric df = true ->
  exists g d n', numeric_preserving g /\ retyped (col_dtype df c) d /\
    fix_count_column df c n = (Some (map_col_to df c d g), n').
Proof.
  intros Hc Hnum. unfold fix_count_column.
  destruct (has_col df c) eqn:Eh; simpl.
  - destruct (has_col_get_col _ _ Eh) as [s E]. rewrite (col_dtype_get _ _ _ E).
    assert (Hs : numeric_series s = true).
    { apply (loan_columns_numeric_get df c s Hnum E). unfold loan_field.
      rewrite Hc. apply orb_true_r. }
    destruct (fix_lt_run df c s 0 (fun _ => Num 0)
                (fun df => bind (col df c) (fun s =>
                   fix_where df (map (non_integer (dt s)) (cells s)) c cell_round))
                n E Hs) as (d1 & n1 & Hd1 & ->).
    destruct (map_col_to_numeric df c s d1 (when_lt 0 (fun _ => Num 0)) E Hs Hd1)
      as (s1 & E1 & Hs1 & Hdt1); [auto with numeric|].
    unfold bind, col, lift. rewrite E1.
    destruct (fix_where_run (map_col_to df c d1 (when_lt 0 (fun _ => Num 0)))
                (map (non_integer (dt s1)) (cells s1)) c cell_round n1) as [n2 ->].
    destruct (loc_set_map _ s1 c (non_integer (dt s1)) cell_round E1) as (d2 & Hd2 & ->).
    rewrite map_col_to_map_col_to. rewrite Hdt1 in Hd2.
    eexists _, d2, n2. split; [|split; [eapply retyped_trans; eassumption|reflexivity]].
    intros x Hx. apply numeric_preserving_if; [apply numeric_preserving_round|].
    apply numeric_preserving_when_lt; [apply numeric_preserving_const|exact Hx].
  - exists (fun x => x), (col_dtype df c), n.
    split; [intros x Hx; exact Hx|]. split; [apply retyped_refl|].
    unfold ret. now rewrite (map_col_to_absent _ _ _ _ (has_col_false_get_col _ _ Eh)).
Qed.

Lemma for_each_count_run cols : forall df n,
  (forall c, In c cols -> is_count_column c = true) ->
  loan_columns_numeric df = true ->
  exists df' n',
    for_each cols fix_count_column df n = (Some df', n') /\
    forall c', is_count_column c' = false -> get_col df' c' = get_col df c'.
Proof.
  induction cols as [|c cols IH]; intros df n Hcols Hnum; simpl.
  - unfold ret. eauto.
  - destruct (fix_count_column_run df c n (Hcols c (or_introl eq_refl)) Hnum)
      as (g & d & n1 & Hg & Hd & Hrun).
    unfold bind. rewrite Hrun.
    destruct (IH (map_col_to df c d g) n1) as (df' & n' & Hrun' & Hframe).
    { intros c0 H0. apply Hcols. now right. }
    { now apply loan_columns_numeric_map_col_to. }
    exists df', n'. split; [exact Hrun'|].
    intros c' Hc'. rewrite Hframe by assumption.
    apply get_col_map_col_to_ne. intros ->.
    rewrite (Hcols c' (or_introl eq_refl)) in Hc'. discriminate.
Qed.
End LoanRuns2.

Ltac qbool :=
  repeat match goal with
  | H : Qle_bool _ _ = true |- _ => apply Qle_bool_iff in H
  | H : Qle_bool ?a ?b = false |- _ =>
      assert (b < a)
        by (let X := fresh in
            apply Qnot_le_lt; intro X; apply Qle_bool_iff in X; congruence);
      clear H
  end.

Lemma cell_at_of_get_col df1 df2 c i :
  get_col df1 c = get_col df2 c -> cell_at df1 c i = cell_at df2 c i.
Proof. unfold cell_at. now intros ->. Qed.

Section LoanFix.
Import DomainLoanFixerStrategy.

Lemma median_or_na_numeric df c : numeric_cell (median_or_na df c) = true.
Proof.
  unfold median_or_na. destruct (get_col df c) as [s|]; [|reflexivity].
  unfold median. destruct (numeric_values (cells s)); [|reflexivity]. simpl.
  unfold median_sorted. destruct (sort_values l); [reflexivity|].
  destruct (Nat.even _); reflexivity.
Qed.

Lemma numeric_preserving_abs_cap d cap : numeric_preserving (abs_cap_cell d cap).
Proof.
  intros x Hx. apply numeric_preserving_when_gt; [apply numeric_preserving_const|].
  apply numeric_preserving_when_lt; [apply numeric_preserving_abs|exact Hx].
Qed.

Lemma numeric_preserving_age m : numeric_cell m = true -> numeric_preserving (age_cell m).
Proof.
  intros Hm x Hx. apply numeric_preserving_when_between; [apply numeric_preserving_const|].
  apply numeric_preserving_when_gt; [apply numeric_preserving_const|].
  apply numeric_preserving_when_lt; [|exact Hx]. intros y _. exact Hm.
Qed.

Lemma numeric_preserving_score : numeric_preserving score_cell.
Proof.
  intros x Hx. apply numeric_preserving_when_gt; [apply numeric_preserving_const|].
  apply numeric_preserving_when_between; [apply numeric_preserving_const|].
  apply numeric_preserving_when_lt; [apply numeric_preserving_const|exact Hx].
Qed.

(** The whole of [_fix] on a table whose loan columns are numeric: it
    completes; the six named columns are the input columns with one function
    applied to every cell, the count columns are left to the loop over
    them, and no other column is touched.  The dtypes [d1] ... [d6] are the
    ones the stores leave. *)
Lemma loan_fix_run_cols df n :
  empty df = false -> loan_columns_numeric df = true ->
  exists df' n' d1 d2 d3 d4 d5 d6 d6t,
    _fix df n = (Some df', n') /\
    (forall i r, cell_at df "NumLoans" i = Some (Num r) -> 100 < r ->
                 exists a, num_loans_q99 df = Num a) /\
    d6t = map_col_to (map_col_to (map_col_to (map_col_to (map_col_to (map_col_to df
            "Age" d1 (age_cell (median_or_na df "Age")))
            "LoanAmount" d2 (abs_cap_cell (col_dtype df "LoanAmount") 10000000))
            "InterestRate" d3 (abs_cap_cell (col_dtype df "InterestRate") 100))
            "CreditScore" d4 score_cell)
            "AnnualIncome" d5 (abs_cap_cell (col_dtype df "AnnualIncome") 100000000))
            "NumLoans" d6 (num_loans_cell (num_loans_q99 df)) /\
    loan_columns_numeric d6t = true /\
    forall c, is_count_column c = false -> get_col df' c = get_col d6t c.
Proof.
  intros He Hnum. unfold _fix. rewrite He.
  (* Age *)
  destruct (whenM_run df "Age" _fix_age_values (age_cell (median_or_na df "Age")) n)
    as (d1 & n1 & Hd1 & H1).
  { intros s E. apply (_fix_age_values_run _ s _ E).
    now apply (loan_columns_numeric_get df "Age" s Hnum E). }
  set (df1 := map_col_to df "Age" d1 (age_cell (median_or_na df "Age"))) in *.
  assert (Hnum1 : loan_columns_numeric df1 = true).
  { apply loan_columns_numeric_map_col_to; [|exact Hd1|exact Hnum].
    apply numeric_preserving_age, median_or_na_numeric. }
  (* LoanAmount *)
  destruct (whenM_run df1 "LoanAmount" _fix_loan_amount
              (abs_cap_cell (col_dtype df1 "LoanAmount") 10000000) n1)
    as (d2 & n2 & Hd2 & H2).
  { intros s E. rewrite (col_dtype_get _ _ _ E). apply (_fix_loan_amount_run _ s _ E).
    now apply (loan_columns_numeric_get df1 "LoanAmount" s Hnum1 E). }
  set (df2 := map_col_to df1 "LoanAmount" d2
                (abs_cap_cell (col_dtype df1 "LoanAmount") 10000000)) in *.
  assert (Hnum2 : loan_columns_numeric df2 = true)
    by (apply loan_columns_numeric_map_col_to; auto using numeric_preserving_abs_cap).
  (* InterestRate *)
  destruct (whenM_run df2 "InterestRate" _fix_interest_rate
              (abs_cap_cell (col_dtype df2 "InterestRate") 100) n2)
    as (d3 & n3 & Hd3 & H3).
  { intros s E. rewrite (col_dtype_get _ _ _ E). apply (_fix_interest_rate_run _ s _ E).
    now apply (loan_columns_numeric_get df2 "InterestRate" s Hnum2 E). }
  set (df3 := map_col_to df2 "InterestRate" d3
                (abs_cap_cell (col_dtype df2 "InterestRate") 100)) in *.
  assert (Hnum3 : loan_columns_numeric df3 = true)
    by (apply loan_columns_numeric_map_col_to; auto using numeric_preserving_abs_cap).
  (* CreditScore *)
  destruct (whenM_run df3 "CreditScore" _fix_credit_score score_cell n3)
    as (d4 & n4 & Hd4 & H4).
  { intros s E. apply (_fix_credit_score_run _ s _ E).
    now apply (loan_columns_numeric_get df3 "CreditScore" s Hnum3 E). }
  set (df4 := map_col_to df3 "CreditScore" d4 score_cell) in *.
  assert (Hnum4 : loan_columns_numeric df4 = true)
    by (apply loan_columns_numeric_map_col_to; auto using numeric_preserving_score).
  (* AnnualIncome *)
  destruct (whenM_run df4 "AnnualIncome" _fix_annual_income
              (abs_cap_cell (col_dtype df4 "AnnualIncome") 100000000) n4)
    as (d5 & n5 & Hd5 & H5).
  { intros s E. rewrite (col_dtype_get _ _ _ E). apply (_fix_annual_income_run _ s _ E).
    now apply (loan_columns_numeric_get df4 "AnnualIncome" s Hnum4 E). }
  set (df5 := map_col_to df4 "AnnualIncome" d5
                (abs_cap_cell (col_dtype df4 "AnnualIncome") 100000000)) in *.
  assert (Hnum5 : loan_columns_numeric df5 = true)
    by (apply loan_columns_numeric_map_col_to; auto using numeric_preserving_abs_cap).
  (* NumLoans *)
  assert (Hsame : get_col df5 "NumLoans" = get_col df "NumLoans").
  { subst df5 df4 df3 df2 df1. now rewrite !get_col_map_col_to_ne by discriminate. }
  assert (Hq99 : num_loans_q99 df5 = num_loans_q99 df)
    by (unfold num_loans_q99; now rewrite Hsame).
  assert (H6 : exists d6 n6,
             retyped (col_dtype df5 "NumLoans") d6 /\
             whenM (has_col df5 "NumLoans") _fix_num_loans df5 n5
             = (Some (map_col_to df5 "NumLoans" d6 (num_loans_cell (num_loans_q99 df))), n6) /\
             (forall i r, cell_at df "NumLoans" i = Some (Num r) -> 100 < r ->
                          exists a, num_loans_q99 df = Num a)).
  { unfold whenM. destruct (has_col df5 "NumLoans") eqn:Eh.
    - destruct (has_col_get_col _ _ Eh) as [s E].
      destruct (_fix_num_loans_run df5 s n5 E) as (d6 & n6 & Hd6 & Hrun & Hex).
      { now apply (loan_columns_numeric_get df5 "NumLoans" s Hnum5 E). }
      rewrite Hq99 in Hrun, Hex. rewrite (col_dtype_get _ _ _ E).
      exists d6, n6. split; [exact Hd6|]. split; [exact Hrun|].
      intros i r Hc Hr. apply (Hex r); [|exact Hr].
      unfold cell_at in Hc. rewrite <- Hsame, E in Hc. eapply nth_error_In; eauto.
    - exists (col_dtype df5 "NumLoans"), n5. split; [apply retyped_refl|]. split.
      + unfold ret. now rewrite (map_col_to_absent _ _ _ _ (has_col_false_get_col _ _ Eh)).
      + intros i r Hc. unfold cell_at in Hc.
        rewrite <- Hsame, (has_col_false_get_col _ _ Eh) in Hc. discriminate. }
  destruct H6 as (d6 & n6 & Hd6 & H6 & Hex).
  set (df6 := map_col_to df5 "NumLoans" d6 (num_loans_cell (num_loans_q99 df))) in *.
  assert (Hnum6 : loan_columns_numeric df6 = true).
  { apply loan_columns_numeric_map_col_to; [|exact Hd6|exact Hnum5].
    apply numeric_preserving_num_loans, num_loans_q99_numeric. }
  (* count columns *)
  destruct (for_each_count_run (List.filter is_count_column (columns df6)) df6 n6)
    as (df' & n' & Hrun & Hframe).
  { intros c Hc. now apply filter_In in Hc as [_ Hc]. }
  { exact Hnum6. }
  exists df', n', d1, d2, d3, d4, d5, d6, df6.
  split; [|split; [exact Hex|split; [|split; [exact Hnum6|exact Hframe]]]].
  - erewrite bind_run by exact H1. erewrite bind_run by exact H2.
    erewrite bind_run by exact H3. erewrite bind_run by exact H4.
    erewrite bind_run by exact H5. erewrite bind_run by exact H6.
    exact Hrun.
  - subst df6 df5 df4 df3 df2 df1.
    now rewrite !col_dtype_map_col_to_ne by discriminate.
Qed.

End LoanFix.

Lemma abs_cap_cell_range d cap r :
  0 <= cap -> abs_overflows d r = false ->
  exists r', abs_cap_cell d cap (Num r) = Num r' /\ 0 <= r' /\ r' <= cap /\
             (r < 0 -> Qabs r <= cap -> r' = Qabs r) /\
             (0 <= r -> r <= cap -> r' = r) /\
             (cap < Qabs r -> r' = cap).
Proof.
  intros Hcap Ho. unfold abs_cap_cell, when_gt, when_lt, ltb_q, gtb_q, cell_abs. rewrite Ho.
  destruct (Qle_bool 0 r) eqn:E1; cbn [negb].
  - assert (Ea : Qabs r == r) by (apply Qabs_pos; now apply Qle_bool_iff).
    destruct (Qle_bool r cap) eqn:E2; cbn [negb]; eexists; (split; [reflexivity|]);
      qbool; repeat split; intros; try lra; try reflexivity.
  - assert (Hr : r < 0) by (qbool; assumption).
    assert (Ea : Qabs r == - r) by (apply Qabs_neg; lra).
    destruct (Qle_bool (Qabs r) cap) eqn:E2; cbn [negb]; eexists; (split; [reflexivity|]);
      qbool; repeat split; intros; try lra; try reflexivity.
Qed.

Lemma abs_cap_cell_overflow cap r :
  abs_overflows int64 r = true -> 0 <= cap -> abs_cap_cell int64 cap (Num r) = Num r.
Proof.
  intros Ho Hcap. unfold abs_cap_cell, when_gt, when_lt, ltb_q, gtb_q, cell_abs.
  assert (Hr : r == inject_Z int64_min) by (now apply Qeq_bool_iff).
  assert (Hneg : r < 0) by (rewrite Hr; reflexivity).
  assert (E1 : Qle_bool 0 r = false).
  { destruct (Qle_bool 0 r) eqn:E; [|reflexivity]. qbool. lra. }
  rewrite E1. cbn [negb]. rewrite Ho.
  assert (E2 : Qle_bool r cap = true) by (apply Qle_bool_iff; lra).
  now rewrite E2.
Qed.


(** On an int64 column the smallest int64 also survives as an interest
    rate: [abs] overflows on it, so it stays negative. *)
Example loan_fixer_int64_overflow :
  cell_at (fst (fix_ DomainLoanFixerStrategy.strategy overflow_table 0)) "InterestRate" 0
  = Some (Num (inject_Z int64_min)) /\
  cell_at (fst (fix_ DomainLoanFixerStrategy.strategy overflow_table 0)) "InterestRate" 1
  = Some (Num (Qabs (-7))).
Proof. split; vm_compute; reflexivity. Qed.



(** ** Cells, distinct values and value counts *)

Lemma cell_eqb_refl x : is_na x = false -> cell_eqb x x = true.
Proof.
  destruct x; simpl; intros H; try discriminate.
  - apply Qeq_bool_iff. reflexivity.
  - apply String.eqb_refl.
  - apply Z.eqb_refl.
Qed.

Lemma cell_eqb_sym x y : cell_eqb x y = cell_eqb y x.
Proof.
  destruct x, y; simpl; try reflexivity.
  - destruct (Qeq_bool q q0) eqn:E1, (Qeq_bool q0 q) eqn:E2; try reflexivity.
    + apply Qeq_bool_iff in E1. symmetry in E1. apply Qeq_bool_iff in E1. congruence.
    + apply Qeq_bool_iff in E2. symmetry in E2. apply Qeq_bool_iff in E2. congruence.
  - apply String.eqb_sym.
  - apply Z.eqb_sym.
Qed.

Lemma cell_eqb_trans x y z :
  cell_eqb x y = true -> cell_eqb y z = true -> cell_eqb x z = true.
Proof.
  destruct x, y, z; simpl; try discriminate.
  - intros H1 H2. apply Qeq_bool_iff in H1, H2. apply Qeq_bool_iff.
    now rewrite H1.
  - intros H1 H2. apply String.eqb_eq in H1, H2. subst. apply String.eqb_refl.
  - intros H1 H2. apply Z.eqb_eq in H1, H2. subst. apply Z.eqb_refl.
Qed.

Lemma cell_eqb_not_na_l x y : cell_eqb x y = true -> is_na x = false.
Proof. destruct x, y; simpl; try discriminate; reflexivity. Qed.

Lemma cell_eqb_not_na_r x y : cell_eqb x y = true -> is_na y = false.
Proof. destruct x, y; simpl; try discriminate; reflexivity. Qed.

Lemma unique_In x l : In x (unique l) -> In x l /\ is_na x = false.
Proof.
  induction l as [|c l IH]; simpl; [tauto|].
  destruct (is_na c) eqn:E.
  - intros H. destruct (IH H). auto.
  - intros [<-|H]; [auto|]. apply filter_In in H as [H _]. destruct (IH H). auto.
Qed.

Lemma distinct_filter p l : distinct l -> distinct (List.filter p l).
Proof.
  induction l as [|x l IH]; simpl; [auto|]. intros [H1 H2].
  destruct (p x); simpl; [split|]; auto.
  rewrite List.Forall_forall in *. intros y Hy. apply filter_In in Hy as [Hy _]. auto.
Qed.

Lemma distinct_unique l : distinct (unique l).
Proof.
  induction l as [|c l IH]; simpl; [exact I|].
  destruct (is_na c); [exact IH|]. simpl. split.
  - apply List.Forall_forall. intros y Hy. apply filter_In in Hy as [_ Hy].
    now apply negb_true_iff in Hy.
  - now apply distinct_filter.
Qed.

Lemma insert_cell_In y x l : In y (insert_cell x l) <-> y = x \/ In y l.
Proof.
  induction l as [|z l IH]; simpl; [intuition|].
  destruct (cell_leb x z); simpl; [intuition|]. rewrite IH. intuition.
Qed.

Lemma distinct_insert_cell x l :
  Forall (fun y => cell_eqb y x = false) l -> distinct l -> distinct (insert_cell x l).
Proof.
  induction l as [|z l IH]; simpl; [auto|]. intros Hx [Hz Hd].
  destruct (cell_leb x z); simpl; [auto|].
  inversion Hx as [|? ? Hzx Hx']; subst. split; [|auto].
  apply List.Forall_forall. intros y Hy. apply insert_cell_In in Hy as [->|Hy].
  - now rewrite cell_eqb_sym.
  - rewrite List.Forall_forall in Hz. auto.
Qed.

Lemma group_ids_In g l : In g (group_ids l) <-> In g (unique l).
Proof.
  unfold group_ids. induction (unique l) as [|x u IH]; simpl; [tauto|].
  rewrite insert_cell_In, IH. intuition.
Qed.

Lemma distinct_group_ids l : distinct (group_ids l).
Proof.
  unfold group_ids. pose proof (distinct_unique l) as H.
  induction (unique l) as [|x u IH]; simpl; [exact I|]. destruct H as [H1 H2].
  apply distinct_insert_cell; [|auto].
  apply List.Forall_forall. intros y Hy.
  assert (Hy' : In y u).
  { clear - Hy. induction u as [|z u IH]; simpl in *; [tauto|].
    apply insert_cell_In in Hy. intuition. }
  rewrite List.Forall_forall in H1. auto.
Qed.

Lemma insert_by_count_In p q l : In p (insert_by_count q l) <-> p = q \/ In p l.
Proof.
  induction l as [|z l IH]; simpl; [intuition|].
  destruct (Nat.leb (snd z) (snd q)); simpl; [intuition|]. rewrite IH. intuition.
Qed.

Lemma value_counts_In e top l : In (e, top) (value_counts l) -> In e l /\ is_na e = false.
Proof.
  unfold value_counts. intros H. apply unique_In.
  revert H. generalize (unique l) as u.
  induction u as [|x u IH]; simpl; [tauto|]. intros H.
  apply insert_by_count_In in H as [[= -> _]|H]; auto.
Qed.

Lemma count_of_value_eqb x e l :
  cell_eqb x e = true -> count_of_value x l = count_of_value e l.
Proof.
  intros H. unfold count_of_value. f_equal. apply filter_ext. intros y.
  destruct (cell_eqb x y) eqn:E1, (cell_eqb e y) eqn:E2; try reflexivity.
  - rewrite cell_eqb_sym in H. now rewrite (cell_eqb_trans e x y H E1) in E2.
  - now rewrite (cell_eqb_trans x e y H E2) in E1.
Qed.

(** The distinct values of a list in which [e] first appears after [l1]:
    [e] is there, after distinct values of [l1] and before distinct values
    of [l2]. *)
Lemma unique_split (count : cell -> nat) e l1 l2 :
  (forall x y, cell_eqb x y = true -> count x = count y) ->
  is_na e = false ->
  (forall v, In v l1 -> (count v < count e)%nat) ->
  exists u1 u2, unique (l1 ++ e :: l2)%list = (u1 ++ e :: u2)%list /\
                (forall v, In v u1 -> In v l1) /\ (forall v, In v u2 -> In v l2).
Proof.
  intros Hc He. induction l1 as [|x l1 IH]; intros H1.
  - exists [], (List.filter (fun y => negb (cell_eqb y e)) (unique l2)).
    cbn [app unique]. rewrite He. split; [reflexivity|]. split; [intros v []|].
    intros v Hv. apply filter_In in Hv as [Hv _]. now apply unique_In in Hv.
  - destruct IH as (u1 & u2 & Hu & Hu1 & Hu2); [intros v Hv; apply H1; now right|].
    cbn [app unique]. rewrite Hu. destruct (is_na x).
    + exists u1, u2. split; [reflexivity|]. split; [|exact Hu2].
      intros v Hv. right. auto.
    + assert (Hex : cell_eqb e x = false).
      { destruct (cell_eqb e x) eqn:E; [|reflexivity].
        pose proof (H1 x (or_introl eq_refl)) as Hlt. rewrite (Hc e x E) in Hlt. lia. }
      exists (x :: List.filter (fun y => negb (cell_eqb y x)) u1),
             (List.filter (fun y => negb (cell_eqb y x)) u2).
      rewrite List.filter_app. cbn [List.filter]. rewrite Hex. cbn [negb]. split; [reflexivity|].
      split.
      * intros v [->|Hv]; [now left|]. apply filter_In in Hv as [Hv _]. right. auto.
      * intros v Hv. apply filter_In in Hv as [Hv _]. auto.
Qed.

(** The head of a list built by [insert_by_count]: the first entry with the
    greatest count. *)
Lemma insert_by_count_head p p1 p2 :
  (forall q, In q p1 -> (snd q < snd p)%nat) ->
  (forall q, In q p2 -> (snd q <= snd p)%nat) ->
  exists rest, fold_right insert_by_count [] (p1 ++ p :: p2)%list = p :: rest.
Proof.
  intros H1 H2. induction p1 as [|x p1 IH].
  - cbn [app fold_right].
    assert (Hall : forall q, In q (fold_right insert_by_count [] p2) -> (snd q <= snd p)%nat).
    { clear - H2. induction p2 as [|z p2 IH]; cbn [fold_right]; [intros q []|].
      intros q Hq. apply insert_by_count_In in Hq as [->|Hq].
      - apply H2. now left.
      - apply IH; [|exact Hq]. intros q' Hq'. apply H2. now right. }
    destruct (fold_right insert_by_count [] p2) as [|q l]; cbn [insert_by_count]; [eauto|].
    assert (Nat.leb (snd q) (snd p) = true) as ->
      by (apply Nat.leb_le, Hall; now left). eauto.
  - destruct IH as [rest Hr]; [intros q Hq; apply H1; now right|].
    cbn [app fold_right]. rewrite Hr. cbn [insert_by_count].
    assert (Nat.leb (snd p) (snd x) = false) as ->
      by (apply Nat.leb_gt, H1; now left). eauto.
Qed.

(** [value_counts] starts with the most frequent value, the first to appear
    among the equally frequent ones. *)
Lemma value_counts_head e l1 l2 :
  is_na e = false ->
  (forall v, In v l1 ->
     (count_of_value v (l1 ++ e :: l2)%list < count_of_value e (l1 ++ e :: l2)%list)%nat) ->
  (forall v, In v l2 ->
     (count_of_value v (l1 ++ e :: l2)%list <= count_of_value e (l1 ++ e :: l2)%list)%nat) ->
  exists rest,
    value_counts (l1 ++ e :: l2)%list = (e, count_of_value e (l1 ++ e :: l2)%list) :: rest.
Proof.
  intros He H1 H2. unfold value_counts.
  destruct (unique_split (fun v => count_of_value v (l1 ++ e :: l2)%list) e l1 l2)
    as (u1 & u2 & -> & Hu1 & Hu2); auto.
  { intros x y. apply count_of_value_eqb. }
  rewrite map_app. cbn [map]. apply insert_by_count_head.
  - intros q Hq. apply in_map_iff in Hq as (v & <- & Hv). cbn [snd]. auto.
  - intros q Hq. apply in_map_iff in Hq as (v & <- & Hv). cbn [snd]. auto.
Qed.

(** Equally frequent values: the one that appears first comes first. *)
Example value_counts_ties :
  value_counts [Num 6; Num 7; Num 7; Num 6; Num 9]
  = [(Num 6, 2%nat); (Num 7, 2%nat); (Num 9, 1%nat)].
Proof. reflexivity. Qed.

Lemma select_In {A} (x : A) mask l :
  In x (select mask l) -> exists i, nth_error mask i = Some true /\ nth_error l i = Some x.
Proof.
  revert l. induction mask as [|m mask IH]; intros l; simpl; [intros []|].
  destruct l as [|y l]; [intros []|]. destruct m; simpl.
  - intros [->|H]; [exists 0%nat; auto|]. destruct (IH _ H) as (i & H1 & H2).
    exists (S i). auto.
  - intros H. destruct (IH _ H) as (i & H1 & H2). exists (S i). auto.
Qed.

Lemma assign_length mask f old : length (assign mask f old) = length old.
Proof.
  revert old. induction mask as [|m mask IH]; intros [|o old]; simpl; auto.
Qed.

Lemma get_col_loc_set_ne df mask c c' f :
  c <> c' -> get_col (loc_set df mask c f) c' = get_col df c'.
Proof.
  intros H. unfold loc_set. destruct (get_col df c); [|reflexivity].
  now apply get_set_col_ne.
Qed.

Lemma get_col_loc_set_eq df mask c f s :
  get_col df c = Some s ->
  get_col (loc_set df mask c f) c
  = Some (mkSeries (retype (dt s) (select mask (map f (cells s)))) (assign mask f (cells s))).
Proof.
  intros E. unfold loc_set. rewrite E. apply get_set_col_eq. eauto using get_col_has_col.
Qed.

(** ** [OutlierFixerStrategy._fix_group_outliers] *)

Lemma mask_sum_zero m : (forall i, nth_error m i <> Some true) -> mask_sum m = 0%nat.
Proof.
  unfold mask_sum. induction m as [|b m IH]; intros H; [reflexivity|].
  destruct b; simpl.
  - exfalso. now apply (H 0%nat).
  - apply IH. intros i. apply (H (S i)).
Qed.

Lemma mask_sum_pos m : (0 < mask_sum m)%nat -> exists i, nth_error m i = Some true.
Proof.
  unfold mask_sum. induction m as [|b m IH]; simpl; [lia|].
  destruct b; simpl; intros H; [exists 0%nat; reflexivity|].
  destruct (IH H) as [i Hi]. now exists (S i).
Qed.

Section GroupFix.
Variables (col key : string) (key0 col0 : list cell).

Local Abbreviation step := (OutlierFixerStrategy.fix_group col key key0 col0).

(** A step either leaves the table alone or overwrites, in the rows of its
    group, the cells that differ from a value [e] of that group. *)
Lemma fix_group_cases acc g :
  fst (step acc g) = fst acc \/
  exists e top rest k c,
    value_counts (select (map (cell_eqb g) key0) col0) = (e, top) :: rest /\
    get_col (fst acc) key = Some k /\ get_col (fst acc) col = Some c /\
    fst (step acc g) =
      loc_set (fst acc)
        (mask_and (map (cell_eqb g) (cells k))
                  (map (fun x => negb (cell_eqb x e)) (cells c)))
        col (fun _ => e).
Proof.
  unfold OutlierFixerStrategy.fix_group. destruct acc as [df total]. simpl fst.
  destruct (Nat.ltb _ 3); [now left|].
  destruct (value_counts _) as [|[e top] rest] eqn:Evc; [now left|].
  destruct (Nat.leb _ top); [|now left].
  destruct (get_col df key) as [k|] eqn:Ek; [|now left].
  destruct (get_col df col) as [c|] eqn:Ec; [|now left].
  destruct (Nat.ltb 0 _); [|now left].
  right. exists e, top, rest, k, c. auto.
Qed.

Lemma fix_group_inv acc g :
  col <> key -> group_inv col key key0 (fst acc) -> group_inv col key key0 (fst (step acc g)).
Proof.
  intros Hne Hinv. destruct (fix_group_cases acc g) as [->|(e & top & rest & k & c & _ & Ek & Ec & ->)];
    [exact Hinv|].
  destruct Hinv as [(k' & Ek' & Hk') (c' & Ec' & Hc')].
  rewrite Ek in Ek'. injection Ek' as <-. rewrite Ec in Ec'. injection Ec' as <-.
  split.
  - exists k. split; [|exact Hk']. now rewrite get_col_loc_set_ne.
  - eexists. split; [apply get_col_loc_set_eq; exact Ec|]. simpl.
    now rewrite assign_length.
Qed.

(** A step for group [g] leaves the rows of other groups alone. *)
Lemma fix_group_frame acc g i x :
  group_inv col key key0 (fst acc) ->
  nth_error key0 i = Some x -> cell_eqb g x = false ->
  cell_at (fst (step acc g)) col i = cell_at (fst acc) col i.
Proof.
  intros Hinv Hx Hg.
  destruct (fix_group_cases acc g) as [->|(e & top & rest & k & c & _ & Ek & Ec & ->)];
    [reflexivity|].
  destruct Hinv as [(k' & Ek' & Hk') _].
  rewrite Ek in Ek'. injection Ek' as <-.
  rewrite cell_at_loc_set_eq, mask_and_nth, nth_error_map, Hk', Hx. simpl.
  rewrite Hg. simpl.
  destruct (nth_error (map _ (cells c)) i); reflexivity.
Qed.

(** The step of a group with a consensus value [e] overwrites with [e] the
    cells of the group that differ from it, and keeps the others. *)
Lemma fix_group_consensus acc g e top rest i x y :
  group_inv col key key0 (fst acc) ->
  (3 <= mask_sum (map (cell_eqb g) key0))%nat ->
  value_counts (select (map (cell_eqb g) key0) col0) = (e, top) :: rest ->
  (mask_sum (map (cell_eqb g) key0) - 2 <= top)%nat ->
  nth_error key0 i = Some x -> cell_eqb g x = true ->
  cell_at (fst acc) col i = Some y ->
  cell_at (fst (step acc g)) col i = Some (if cell_eqb y e then y else e).
Proof.
  intros [(k & Ek & Hk) (c & Ec & Hc)] Hn Hvc Htop Hx Hg Hy.
  unfold cell_at in Hy. rewrite Ec in Hy.
  unfold OutlierFixerStrategy.fix_group. destruct acc as [df total]. simpl fst in *.
  apply Nat.ltb_ge in Hn. rewrite Hn, Hvc. apply Nat.leb_le in Htop. rewrite Htop, Ek, Ec.
  set (mask := mask_and _ _).
  assert (Hmask : nth_error mask i = Some (negb (cell_eqb y e))).
  { subst mask. rewrite mask_and_nth, !nth_error_map, Hk, Hx, Hy. simpl. now rewrite Hg. }
  destruct (Nat.ltb 0 (mask_sum mask)) eqn:Es; simpl fst.
  - rewrite cell_at_loc_set_eq, Hmask. unfold cell_at. rewrite Ec, Hy.
    destruct (cell_eqb y e); reflexivity.
  - unfold cell_at. rewrite Ec, Hy.
    apply Nat.ltb_ge in Es. assert (Hz : mask_sum mask = 0%nat) by lia.
    apply mask_sum_zero_nth with (i := i) in Hz. rewrite Hmask in Hz.
    destruct (cell_eqb y e); [reflexivity|]. now exfalso.
Qed.

Lemma fold_groups_inv gs : forall acc,
  col <> key -> group_inv col key key0 (fst acc) ->
  group_inv col key key0 (fst (fold_left step gs acc)).
Proof.
  induction gs as [|g gs IH]; intros acc Hne Hinv; simpl; [exact Hinv|].
  apply IH; [exact Hne|]. now apply fix_group_inv.
Qed.

Lemma fold_groups_frame gs : forall acc i x,
  col <> key -> group_inv col key key0 (fst acc) ->
  nth_error key0 i = Some x ->
  Forall (fun g => cell_eqb g x = false) gs ->
  cell_at (fst (fold_left step gs acc)) col i = cell_at (fst acc) col i.
Proof.
  induction gs as [|g gs IH]; intros acc i x Hne Hinv Hx Hgs; simpl; [reflexivity|].
  inversion Hgs as [|? ? Hg Hgs']; subst.
  rewrite (IH _ i x) by (auto using fix_group_inv).
  now apply fix_group_frame with (x := x).
Qed.

Lemma fold_groups_consensus gs : forall acc g e top rest i x y,
  col <> key -> distinct gs -> group_inv col key key0 (fst acc) ->
  In g gs ->
  (3 <= mask_sum (map (cell_eqb g) key0))%nat ->
  value_counts (select (map (cell_eqb g) key0) col0) = (e, top) :: rest ->
  (mask_sum (map (cell_eqb g) key0) - 2 <= top)%nat ->
  nth_error key0 i = Some x -> cell_eqb g x = true ->
  cell_at (fst acc) col i = Some y ->
  cell_at (fst (fold_left step gs acc)) col i = Some (if cell_eqb y e then y else e).
Proof.
  induction gs as [|g1 gs IH];
    intros acc g e top rest i x y Hne Hd Hinv Hin Hn Hvc Htop Hx Hg Hy;
    simpl; [destruct Hin|].
  destruct Hd as [Hd1 Hd]. rewrite List.Forall_forall in Hd1. destruct Hin as [->|Hin].
  - assert (Hothers : Forall (fun g' => cell_eqb g' x = false) gs).
    { apply List.Forall_forall. intros g' Hg'. specialize (Hd1 g' Hg').
      destruct (cell_eqb g' x) eqn:E; [|reflexivity].
      rewrite (cell_eqb_sym g x) in Hg.
      now rewrite (cell_eqb_trans g' x g E Hg) in Hd1. }
    rewrite (fold_groups_frame gs (step acc g) i x Hne (fix_group_inv acc g Hne Hinv) Hx Hothers).
    now apply fix_group_consensus with (top := top) (rest := rest) (x := x).
  - apply IH with (g := g) (top := top) (rest := rest) (x := x); auto using fix_group_inv.
    rewrite (fix_group_frame acc g1 i x Hinv Hx); [exact Hy|].
    specialize (Hd1 g Hin).
    destruct (cell_eqb g1 x) eqn:E; [|reflexivity].
    rewrite (cell_eqb_sym g x) in Hg. rewrite (cell_eqb_sym g g1) in Hd1.
    now rewrite (cell_eqb_trans g1 x g E Hg) in Hd1.
Qed.

(** When the corrected column is the key column itself, no step changes
    anything: within a group every key equals the consensus value. *)
Lemma fold_groups_key_column gs : forall acc k,
  col = key -> col0 = key0 ->
  get_col (fst acc) key = Some k -> cells k = key0 ->
  fst (fold_left step gs acc) = fst acc.
Proof.
  induction gs as [|g gs IH]; intros acc k Hcol Hc0 Ek Hk; simpl; [reflexivity|].
  assert (Hstep : fst (step acc g) = fst acc).
  { destruct (fix_group_cases acc g) as [H|(e & top & rest & k' & c & Hvc & Ek' & Ec & ->)];
      [exact H|].
    subst col col0. rewrite Ek in Ek', Ec. injection Ek' as <-. injection Ec as <-.
    apply loc_set_no_true. apply mask_sum_zero. intros i.
    rewrite mask_and_nth, !nth_error_map, Hk.
    destruct (nth_error key0 i) as [x|] eqn:Hx; simpl; [|discriminate].
    intros [= H]. apply andb_true_iff in H as [Hg Hne]. apply negb_true_iff in Hne.
    assert (Hin : In (e, top) (value_counts (select (map (cell_eqb g) key0) key0)))
      by (rewrite Hvc; now left).
    apply value_counts_In in Hin as [Hin _].
    apply select_In in Hin as (j & Hj1 & Hj2).
    rewrite nth_error_map, Hj2 in Hj1. simpl in Hj1. injection Hj1 as Hge.
    rewrite (cell_eqb_sym g x) in Hg.
    now rewrite (cell_eqb_trans x g e Hg Hge) in Hne. }
  rewrite (IH (step acc g) k); auto; now rewrite Hstep.
Qed.
End GroupFix.



(** With two equally frequent values in a group, the consensus is the one
    that appears first: in the group [6; 7; 7; 6] the rows holding 7 are
    overwritten with 6. *)
Example group_consensus_tie :
  let df := [("ID", mkSeries number [Num 1; Num 1; Num 1; Num 1]);
             ("V", mkSeries number [Num 6; Num 7; Num 7; Num 6])] in
  get_col (fst (OutlierFixerStrategy._fix_group_outliers df "V" "ID" 3)) "V"
  = Some (mkSeries number [Num 6; Num 6; Num 6; Num 6]).
Proof. vm_compute. reflexivity. Qed.

(** ** [OutlierFixerStrategy]: the global capping *)

Lemma mask_any_false m : mask_any m = false -> mask_sum m = 0%nat.
Proof.
  unfold mask_any, mask_sum. induction m as [|b m IH]; simpl; [reflexivity|].
  destruct b; simpl; [discriminate|exact IH].
Qed.

Lemma guarded_loc_set_any {A} df mask c f (a b : A) :
  fst (if mask_any mask then (loc_set df mask c f, a) else (df, b)) = loc_set df mask c f.
Proof.
  destruct (mask_any mask) eqn:E; [reflexivity|]. simpl.
  symmetry. apply loc_set_no_true. now apply mask_any_false.
Qed.

(** What [_fix_outliers_with_bounds] leaves in a cell. *)
Lemma _fix_outliers_with_bounds_cell df c s lo hi i :
  get_col df c = Some s ->
  cell_at (fst (OutlierFixerStrategy._fix_outliers_with_bounds df c lo hi)) c i =
  option_map (fun x => if gtb_q hi x then Num hi else if ltb_q lo x then Num lo else x)
             (nth_error (cells s) i).
Proof.
  intros E. unfold OutlierFixerStrategy._fix_outliers_with_bounds. rewrite E.
  set (lm := map (ltb_q lo) (cells s)). set (um := map (gtb_q hi) (cells s)).
  pose proof (guarded_loc_set_any df lm c (fun _ => Num lo) (mask_sum lm) 0%nat) as H1.
  destruct (if mask_any lm then _ else _) as [df1 n1]. simpl in H1. subst df1.
  pose proof (guarded_loc_set_any (loc_set df lm c (fun _ => Num lo)) um c
                (fun _ => Num hi) (n1 + mask_sum um)%nat n1) as H2.
  rewrite H2, !cell_at_loc_set_eq. unfold cell_at. rewrite E. subst lm um.
  rewrite !nth_error_map.
  destruct (nth_error (cells s) i) as [x|]; simpl; [|reflexivity].
  destruct (gtb_q hi x), (ltb_q lo x); reflexivity.
Qed.

Lemma _fix_outliers_with_bounds_frame df c c' lo hi :
  c <> c' ->
  get_col (fst (OutlierFixerStrategy._fix_outliers_with_bounds df c lo hi)) c' = get_col df c'.
Proof.
  intros Hne. unfold OutlierFixerStrategy._fix_outliers_with_bounds.
  destruct (get_col df c) as [s|]; [|reflexivity].
  set (lm := map (ltb_q lo) (cells s)). set (um := map (gtb_q hi) (cells s)).
  pose proof (guarded_loc_set_any df lm c (fun _ => Num lo) (mask_sum lm) 0%nat) as H1.
  destruct (if mask_any lm then _ else _) as [df1 n1]. simpl in H1. subst df1.
  pose proof (guarded_loc_set_any (loc_set df lm c (fun _ => Num lo)) um c
                (fun _ => Num hi) (n1 + mask_sum um)%nat n1) as H2.
  rewrite H2. now rewrite !get_col_loc_set_ne.
Qed.

Lemma _fix_global_outliers_frame df c c' k :
  c <> c' -> get_col (fst (OutlierFixerStrategy._fix_global_outliers df c k)) c' = get_col df c'.
Proof.
  intros Hne. unfold OutlierFixerStrategy._fix_global_outliers.
  destruct (get_col df c) as [s|]; [|reflexivity].
  destruct (OutlierFixerStrategy._calculate_bounds s k) as [[lo hi]|]; [|reflexivity].
  now apply _fix_outliers_with_bounds_frame.
Qed.

Lemma fix_group_other_column col key key0 col0 acc g c' :
  col <> c' ->
  get_col (fst (OutlierFixerStrategy.fix_group col key key0 col0 acc g)) c'
  = get_col (fst acc) c'.
Proof.
  intros Hne.
  destruct (fix_group_cases col key key0 col0 acc g)
    as [->|(e & top & rest & k & c & _ & _ & _ & ->)]; [reflexivity|].
  now apply get_col_loc_set_ne.
Qed.

Lemma _fix_group_outliers_frame df col key k c' :
  col <> c' ->
  get_col (fst (OutlierFixerStrategy._fix_group_outliers df col key k)) c' = get_col df c'.
Proof.
  intros Hne. unfold OutlierFixerStrategy._fix_group_outliers.
  destruct (get_col df key) as [kk|]; [|reflexivity].
  destruct (get_col df col) as [cc|]; [|reflexivity].
  change (get_col df c') with (get_col (fst (df, 0%nat)) c').
  generalize (df, 0%nat) as acc. generalize (group_ids (cells kk)) as gs.
  induction gs as [|g gs IH]; intros acc; simpl; [reflexivity|].
  rewrite IH. now apply fix_group_other_column.
Qed.

Lemma fix_column_frame config key acc c c' :
  c <> c' ->
  get_col (fst (OutlierFixerStrategy.fix_column config key acc c)) c' = get_col (fst acc) c'.
Proof.
  intros Hne. unfold OutlierFixerStrategy.fix_column. destruct acc as [df total].
  destruct (OutlierFixerStrategy._should_skip_column _ _ _); [reflexivity|].
  destruct (OutlierFixerStrategy.group_stage config key df c) as [df1 n1] eqn:E1.
  destruct (OutlierFixerStrategy._fix_global_outliers df1 c _) as [df2 n2] eqn:E2.
  simpl. replace df2 with (fst (OutlierFixerStrategy._fix_global_outliers df1 c
                                   (outlier_threshold config))) by now rewrite E2.
  rewrite _fix_global_outliers_frame by assumption.
  replace df1 with (fst (OutlierFixerStrategy.group_stage config key df c)) by now rewrite E1.
  unfold OutlierFixerStrategy.group_stage. destruct key; [|reflexivity].
  now apply _fix_group_outliers_frame.
Qed.

Lemma fix_columns_frame config key cols : forall acc c',
  ~ In c' cols ->
  get_col (fst (fold_left (OutlierFixerStrategy.fix_column config key) cols acc)) c'
  = get_col (fst acc) c'.
Proof.
  induction cols as [|c cols IH]; intros acc c' Hin; simpl; [reflexivity|].
  rewrite IH by (intros H; apply Hin; now right).
  apply fix_column_frame. intros ->. apply Hin. now left.
Qed.

(** C5, as stated, fails.  In [balance_table] the column Balance is
    processed, its original quartiles are 6 and 10 (IQR 4) and the
    threshold is 3, so the bounds of the original column are [-6, 22];
    the group correction turns every other balance into 10, the IQR of the
    corrected column is zero, the capping is skipped, and the balance 1000
    stays. *)
Lemma outlier_fixer_counterexample :
  OutlierFixerStrategy._should_skip_column "Balance" balance_table "Customer" = false /\
  (exists s q1 q3,
     get_col balance_table "Balance" = Some s /\
     quantile_sorted (sort_values (number_values (cells s))) (1 # 4) = Num q1 /\
     quantile_sorted (sort_values (number_values (cells s))) (3 # 4) = Num q3 /\
     q1 == 6 /\ q3 == 10) /\
  cell_at (fst (fix_ (OutlierFixerStrategy.strategy customer_config) balance_table 0))
    "Balance" 8 = Some (Num 1000) /\
  ~ 1000 <= 10 + outlier_threshold customer_config * (10 - 6).
Proof.
  split; [reflexivity|]. split.
  - eexists _, _, _. split; [reflexivity|]. split; [vm_compute; reflexivity|].
    split; [vm_compute; reflexivity|]. split; reflexivity.
  - split; [vm_compute; reflexivity|]. simpl. unfold Qle. simpl. lia.
Qed.

Lemma fix_column_processed config key acc col :
  OutlierFixerStrategy._should_skip_column col (fst acc) (current_dataset config) = false ->
  fst (OutlierFixerStrategy.fix_column config key acc col) =
  fst (OutlierFixerStrategy._fix_global_outliers
         (fst (OutlierFixerStrategy.group_stage config key (fst acc) col)) col
         (outlier_threshold config)).
Proof.
  destruct acc as [before total]. simpl fst.
  intros Hskip. unfold OutlierFixerStrategy.fix_column. rewrite Hskip.
  destruct (OutlierFixerStrategy.group_stage config key before col) as [df1 n1]. simpl.
  destruct (OutlierFixerStrategy._fix_global_outliers df1 col _). reflexivity.
Qed.

(** The column [col] of the result of [_fix] is the one its own iteration
    leaves. *)
Lemma fix_columns_column config df col pre post :
  empty df = false ->
  OutlierFixerStrategy.numeric_cols df = (pre ++ col :: post)%list ->
  ~ In col post ->
  get_col (fst (OutlierFixerStrategy.fix_columns config df)) col =
  get_col (fst (OutlierFixerStrategy.fix_column config
                  (OutlierFixerStrategy._find_groupby_key df)
                  (fold_left (OutlierFixerStrategy.fix_column config
                                (OutlierFixerStrategy._find_groupby_key df)) pre (df, 0%nat))
                  col)) col.
Proof.
  intros He Hcols Hpost. unfold OutlierFixerStrategy.fix_columns.
  rewrite He, Hcols, fold_left_app. simpl. now apply fix_columns_frame.
Qed.

Lemma _fix_global_outliers_bounds df col s k q1 q3 i v :
  get_col df col = Some s ->
  quantile_sorted (sort_values (number_values (cells s))) (1 # 4) = Num q1 ->
  quantile_sorted (sort_values (number_values (cells s))) (3 # 4) = Num q3 ->
  0 < q3 - q1 -> 0 <= k ->
  cell_at (fst (OutlierFixerStrategy._fix_global_outliers df col k)) col i = Some (Num v) ->
  q1 - k * (q3 - q1) <= v /\ v <= q3 + k * (q3 - q1).
Proof.
  intros Hs Hq1 Hq3 Hiqr Hk.
  unfold OutlierFixerStrategy._fix_global_outliers. rewrite Hs.
  unfold OutlierFixerStrategy._calculate_bounds. rewrite Hq1, Hq3.
  unfold OutlierFixerStrategy._calculate_bounds_cached.
  destruct (Qeq_bool (q3 - q1) 0) eqn:Ez; [apply Qeq_bool_iff in Ez; lra|].
  rewrite (_fix_outliers_with_bounds_cell df col s _ _ i Hs).
  destruct (nth_error (cells s) i) as [x|]; simpl; [|discriminate].
  unfold gtb_q, ltb_q. destruct x as [x| | |]; simpl; try discriminate.
  destruct (Qle_bool x (q3 + k * (q3 - q1))) eqn:E1; simpl.
  - destruct (Qle_bool (q1 - k * (q3 - q1)) x) eqn:E2; simpl; intros [= <-]; qbool.
    + split; assumption.
    + split; [lra|]. nra.
  - intros [= <-]. split; [nra|lra].
Qed.

(** C5, amended.  For a non-negative threshold [k] and a processed column
    [col], every non-null value that [OutlierFixerStrategy.fix] leaves in
    [col] lies within [Q1 - k*IQR, Q3 + k*IQR], where Q1, Q3 and IQR > 0 are
    taken on the column as it stands when the capping runs, that is after
    the group-consensus correction of that column; when no group-by key is
    found that column is the original one. *)
Theorem outlier_fixer_bounds
    (config : Config) (df : Table) (col : string) (pre post : list string)
    (s : Series) (q1 q3 : Q) (fix_count : nat) :
  let k := outlier_threshold config in
  let key := OutlierFixerStrategy._find_groupby_key df in
  let before :=
    fst (fold_left (OutlierFixerStrategy.fix_column config key) pre (df, 0%nat)) in
  let corrected := fst (OutlierFixerStrategy.group_stage config key before col) in
  wf_table df = true ->
  OutlierFixerStrategy.numeric_cols df = (pre ++ col :: post)%list ->
  ~ In col pre -> ~ In col post ->
  OutlierFixerStrategy._should_skip_column col before (current_dataset config) = false ->
  get_col corrected col = Some s ->
  quantile_sorted (sort_values (number_values (cells s))) (1 # 4) = Num q1 ->
  quantile_sorted (sort_values (number_values (cells s))) (3 # 4) = Num q3 ->
  0 < q3 - q1 ->
  0 <= k ->
  (forall i v,
     cell_at (fst (fix_ (OutlierFixerStrategy.strategy config) df fix_count)) col i
     = Some (Num v) ->
     q1 - k * (q3 - q1) <= v /\ v <= q3 + k * (q3 - q1)) /\
  (key = None -> get_col df col = Some s).
Proof.
  cbv zeta. intros Hwf Hcols Hpre Hpost Hskip Hs Hq1 Hq3 Hiqr Hk. split.
  - intros i v. unfold fix_. simpl _fix. destruct (empty df) eqn:He.
    + simpl. now rewrite (wf_table_empty_cell_at df) by assumption.
    + unfold OutlierFixerStrategy._fix.
      destruct (OutlierFixerStrategy.fix_columns config df) as [final fixes] eqn:Efinal.
      simpl. unfold cell_at.
      replace final with (fst (OutlierFixerStrategy.fix_columns config df))
        by now rewrite Efinal.
      rewrite (fix_columns_column config df col pre post He Hcols Hpost).
      rewrite (fix_column_processed config _ _ col Hskip).
      apply (_fix_global_outliers_bounds _ col s _ q1 q3 i v); assumption.
  - intros Hkey. rewrite Hkey in Hs. simpl in Hs.
    now rewrite fix_columns_frame in Hs.
Qed.

Lemma outlier_fixer_bounds_witness :
  exists v,
    cell_at (fst (fix_ (OutlierFixerStrategy.strategy customer_config) income_table 0))
      "Income" 4 = Some (Num v) /\ v <= 10.
Proof.
  edestruct (fun s q1 q3 =>
    outlier_fixer_bounds customer_config income_table "Income" [] [] s q1 q3 0%nat)
    as [H _].
  - reflexivity.
  - reflexivity.
  - simpl. tauto.
  - simpl. tauto.
  - reflexivity.
  - reflexivity.
  - vm_compute. reflexivity.
  - vm_compute. reflexivity.
  - vm_compute. reflexivity.
  - vm_compute. discriminate.
  - eexists. split; [vm_compute; reflexivity|].
    eapply Qle_trans; [apply (H 4%nat); vm_compute; reflexivity|].
    vm_compute. discriminate.
Defined.

(** ** [DomainMarketFixerStrategy] *)

(** C4, at a failing input.  Every row of [market_table] has complete and
    consistent prices.  STEP 2 caps each price column on its own quartiles:
    the last row's high is capped to 10 and its low to 15, STEP 3 then moves
    open and close to 15, and the final check only logs.  The fixed table
    keeps a row with HighestValue < LowestValue and OpenValue, CloseValue
    above HighestValue. *)
Theorem market_fixer_leaves_inverted_row (now : Z) (to_datetime : Series -> option Series) :
  let df' := fst (fix_ (DomainMarketFixerStrategy.strategy now to_datetime) market_table 0) in
  exists o c h l,
    cell_at df' "OpenValue" 4 = Some (Num o) /\
    cell_at df' "CloseValue" 4 = Some (Num c) /\
    cell_at df' "HighestValue" 4 = Some (Num h) /\
    cell_at df' "LowestValue" 4 = Some (Num l) /\
    h < l /\ h < o /\ h < c.
Proof.
  cbv zeta. eexists _, _, _, _.
  split; [vm_compute; reflexivity|]. split; [vm_compute; reflexivity|].
  split; [vm_compute; reflexivity|]. split; [vm_compute; reflexivity|].
  repeat split; vm_compute; reflexivity.
Qed.

(* ================================================================== *)
(** * Further properties of the code *)
(* ================================================================== *)

(** ** [CacheManager]: clearing, tiers, keys *)

Lemma prefix_app_same a b c : String.prefix (a ++ b) (a ++ c) = String.prefix b c.
Proof.
  induction a as [|x a IH]; simpl; [reflexivity|].
  destruct (Ascii.ascii_dec x x) as [_|H]; [exact IH|congruence].
Qed.

Lemma string_app_assoc (a b c : string) : ((a ++ b) ++ c = a ++ (b ++ c))%string.
Proof.
  induction a as [|x a IH]; [reflexivity|].
  change (String x ((a ++ b) ++ c) = String x (a ++ (b ++ c)))%string. now rewrite IH.
Qed.

Lemma key_of_dataset_own_key X step : key_of_dataset X (cache_key X step) = true.
Proof.
  unfold key_of_dataset, cache_key. rewrite prefix_app_same. simpl.
  destruct step; reflexivity.
Qed.



(** X2.  With caching enabled, [clear_cache()] and also [clear_cache("")]
    (the empty name is falsy) drop every entry of every dataset: nothing
    can be read back afterwards. *)
Theorem clear_cache_without_name_drops_everything
    (cm : CacheManager) (name : option string) (dataset step : string) :
  _enabled cm = true ->
  name = None \/ name = Some "" ->
  _memory_cache (clear_cache cm name) = ∅ /\
  disk_cache (clear_cache cm name) = ∅ /\
  fst (get_from_cache (clear_cache cm name) dataset step) = None.
Proof.
  intros Hen [-> | ->]; unfold clear_cache, get_from_cache; rewrite Hen;
    cbn [negb _enabled _memory_cache disk_cache]; rewrite !lookup_empty; auto.
Qed.

Lemma clear_cache_without_name_drops_everything_witness :
  fst (get_from_cache (clear_cache warm_cache (Some "")) "Loan" "DataCleaning") = None.
Proof.
  apply (clear_cache_without_name_drops_everything warm_cache (Some "") "Loan" "DataCleaning");
    [reflexivity|now right].
Defined.

(** X3.  The two tiers.  An entry held in memory is what a read returns,
    whatever the disk holds, and the read changes nothing.  An entry found
    only on disk is returned and copied into memory, the disk is left as it
    is, and the next read is served from memory. *)
Theorem get_from_cache_tiers (cm : CacheManager) (dataset step : string) (df : Table) :
  _enabled cm = true ->
  (_memory_cache cm !! cache_key dataset step = Some df ->
   get_from_cache cm dataset step = (Some df, cm)) /\
  (_memory_cache cm !! cache_key dataset step = None ->
   disk_cache cm !! cache_key dataset step = Some df ->
   let cm' := snd (get_from_cache cm dataset step) in
   fst (get_from_cache cm dataset step) = Some df /\
   _memory_cache cm' !! cache_key dataset step = Some df /\
   disk_cache cm' = disk_cache cm /\
   get_from_cache cm' dataset step = (Some df, cm')).
Proof.
  intros Hen. split.
  - intros Hm. unfold get_from_cache. now rewrite Hen, Hm.
  - intros Hm Hd. cbv zeta. unfold get_from_cache. rewrite Hen, Hm, Hd.
    cbn [negb fst snd _enabled _memory_cache disk_cache]. rewrite lookup_insert_eq. auto.
Qed.

Lemma get_from_cache_tiers_witness :
  fst (get_from_cache disk_only_cache "Loan" "DataCleaning") = Some loan_table /\
  get_from_cache warm_cache "Loan" "DataCleaning" = (Some loan_table, warm_cache).
Proof.
  split.
  - apply (proj2 (get_from_cache_tiers disk_only_cache "Loan" "DataCleaning" loan_table
                    eq_refl)); reflexivity.
  - apply (proj1 (get_from_cache_tiers warm_cache "Loan" "DataCleaning" loan_table
                    eq_refl)). apply lookup_insert_eq.
Defined.

(** X4.  Keys are the plain concatenation [dataset_step].  Saving under one
    key leaves what is read under any other key unchanged; but two
    different (dataset, step) pairs can share a key: what is saved for
    dataset ["a_b"], step ["c"] is read back for dataset ["a"], step
    ["b_c"]. *)
Theorem cache_keys_frame_and_collision
    (cm : CacheManager) (df : Table) (dataset step dataset' step' a b c : string) :
  _enabled cm = true ->
  empty df = false ->
  (cache_key dataset step <> cache_key dataset' step' ->
   fst (get_from_cache (save_to_cache cm df dataset step) dataset' step')
   = fst (get_from_cache cm dataset' step')) /\
  fst (get_from_cache (save_to_cache cm df (a ++ "_" ++ b) c) a (b ++ "_" ++ c)) = Some df.
Proof.
  intros Hen Hdf. split.
  - intros Hne. unfold save_to_cache, get_from_cache. rewrite Hen, Hdf.
    cbn [negb orb fst snd _enabled _memory_cache disk_cache disk_writable].
    rewrite lookup_insert_ne by assumption.
    destruct (_memory_cache cm !! cache_key dataset' step'); [reflexivity|].
    destruct (disk_writable cm).
    + rewrite lookup_insert_ne by assumption.
      destruct (disk_cache cm !! cache_key dataset' step'); reflexivity.
    + destruct (disk_cache cm !! cache_key dataset' step'); reflexivity.
  - assert (Hk : cache_key (a ++ "_" ++ b) c = cache_key a (b ++ "_" ++ c)).
    { unfold cache_key. now rewrite string_app_assoc. }
    unfold save_to_cache, get_from_cache. rewrite Hen, Hdf.
    cbn [negb orb fst snd _enabled _memory_cache disk_cache disk_writable].
    now rewrite <- Hk, lookup_insert_eq.
Qed.

Lemma cache_keys_frame_and_collision_witness :
  fst (get_from_cache (save_to_cache empty_cache one_cell_table "Loan_2024" "Fix")
         "Loan" "2024_Fix") = Some one_cell_table.
Proof.
  apply (proj2 (cache_keys_frame_and_collision empty_cache one_cell_table
                  "x" "y" "x" "y" "Loan" "2024" "Fix" eq_refl eq_refl)).
Defined.

(** ** [PipelineExecutor.execute] *)

Lemma get_from_cache_disabled cm d s :
  _enabled cm = false -> get_from_cache cm d s = (None, cm).
Proof. intros H. unfold get_from_cache. now rewrite H. Qed.

Lemma save_to_cache_disabled cm df d s :
  _enabled cm = false -> save_to_cache cm df d s = cm.
Proof. intros H. unfold save_to_cache. now rewrite H. Qed.

Lemma run_steps_completed_nonempty save config dn out steps :
  forall df cm counts last d st cm' counts' last',
    run_steps save config dn out steps df cm counts last
    = (Completed d, st, cm', counts', last') ->
    empty df = false -> empty d = false.
Proof.
  induction steps as [|step rest IH]; intros df cm counts last d st cm' counts' last' H Hdf.
  - cbn [run_steps] in H. congruence.
  - cbn [run_steps] in H.
    destruct (get_from_cache cm dn (pipeline_step_name step)) as [[cached|] cm1].
    + destruct (empty cached) eqn:E; [discriminate|].
      destruct (run_steps save config dn out rest cached cm1 counts _)
        as [[[[e r] c] k] l] eqn:R.
      injection H as -> _ _ _ _. eapply IH; eauto.
    + destruct step as [v|n exec].
      * destruct (DataValidationStep_execute v _ df) as [[df' v'] m].
        destruct (empty df') eqn:E; [discriminate|].
        destruct (run_steps save config dn out rest df' _ _ _)
          as [[[[e r] c] k] l] eqn:R.
        injection H as -> _ _ _ _. eapply IH; eauto.
      * destruct (exec df) as [df'|]; [|discriminate].
        destruct (empty df') eqn:E; [discriminate|].
        destruct (run_steps save config dn out rest df' _ _ _)
          as [[[[e r] c] k] l] eqn:R.
        injection H as -> _ _ _ _. eapply IH; eauto.
Qed.

(** X5.  [execute] reports success only for a table that is not empty and
    that the saver accepted at [output_path]; that table is the
    [final_df] it returns, and the loaded input was not empty either. *)
Theorem execute_success_means_saved_nonempty
    (load : string -> Table) (save : Table -> string -> bool) (config : Config)
    (ex : PipelineExecutor) (input_path output_path : string)
    (final_df : option Table) (results : option ValidationResults) :
  fst (execute load save config ex input_path output_path)
  = ReturnTuple true final_df results ->
  exists df, final_df = Some df /\ empty df = false /\ save df output_path = true /\
             empty (load input_path) = false.
Proof.
  unfold execute. destruct (empty (load input_path)) eqn:Hload; [discriminate|].
  destruct (run_steps _ _ _ _ _ _ _ _ _) as [[[[exit steps] cm] counts] last] eqn:R.
  destruct exit as [d| |]; cbn [fst]; try discriminate.
  intros H. injection H as Hs <- _. exists d. repeat split; auto.
  eapply run_steps_completed_nonempty; eauto.
Qed.

Lemma execute_success_means_saved_nonempty_witness :
  exists df, Some loan_table = Some df /\ empty df = false /\
             (fun (_ : Table) (_ : string) => true) df "Loan_cooked.csv" = true /\
             empty ((fun _ : string => loan_table) "Loan.csv") = false.
Proof.
  apply (execute_success_means_saved_nonempty (fun _ => loan_table) (fun _ _ => true)
           fraud_config (passthrough_executor empty_cache) "Loan.csv" "Loan_cooked.csv"
           (Some loan_table) None).
  reflexivity.
Defined.

Lemma run_steps_disabled save config dn out steps :
  forall df cm counts last,
    _enabled cm = false ->
    exists e st c l,
      run_steps save config dn out steps df cm counts last = (e, st, cm, c, l) /\
      forall cm2, _enabled cm2 = false ->
                  run_steps save config dn out steps df cm2 counts last = (e, st, cm2, c, l).
Proof.
  induction steps as [|step rest IH]; intros df cm counts last Hen.
  - do 4 eexists. split; [reflexivity|]. intros; reflexivity.
  - cbn [run_steps]. rewrite get_from_cache_disabled by assumption.
    destruct step as [v|n exec].
    + destruct (DataValidationStep_execute v _ df) as [[df' v'] m] eqn:Ev.
      rewrite save_to_cache_disabled by assumption.
      destruct (empty df') eqn:E.
      * do 4 eexists. split; [reflexivity|]. intros cm2 H2.
        rewrite get_from_cache_disabled by assumption.
        rewrite save_to_cache_disabled by assumption. rewrite E. reflexivity.
      * destruct (IH df' cm (<[pipeline_id (_validator v) := m]> counts)
                    (_last_validation_results v') Hen) as (e & st & c & l & H1 & H2).
        rewrite H1. do 4 eexists. split; [reflexivity|]. intros cm2 Hen2.
        rewrite get_from_cache_disabled by assumption.
        rewrite save_to_cache_disabled by assumption. rewrite E.
        now rewrite (H2 cm2 Hen2).
    + destruct (exec df) as [df'|] eqn:Ex.
      * rewrite save_to_cache_disabled by assumption.
        destruct (empty df') eqn:E.
        -- do 4 eexists. split; [reflexivity|]. intros cm2 H2.
           rewrite get_from_cache_disabled by assumption.
           rewrite save_to_cache_disabled by assumption. rewrite E. reflexivity.
        -- destruct (IH df' cm counts last Hen) as (e & st & c & l & H1 & H2).
           rewrite H1. do 4 eexists. split; [reflexivity|]. intros cm2 Hen2.
           rewrite get_from_cache_disabled by assumption.
           rewrite save_to_cache_disabled by assumption. rewrite E.
           now rewrite (H2 cm2 Hen2).
      * do 4 eexists. split; [reflexivity|]. intros cm2 H2.
        rewrite get_from_cache_disabled by assumption. reflexivity.
Qed.

(** X6.  With caching disabled, a run leaves the cache manager as it was,
    and what [execute] returns does not depend on what the cache holds. *)
Theorem execute_with_caching_disabled
    (load : string -> Table) (save : Table -> string -> bool) (config : Config)
    (steps : list PipelineStep) (cm cm2 : CacheManager) (dataset : string)
    (counts : gmap nat nat) (input_path output_path : string) :
  _enabled cm = false ->
  _enabled cm2 = false ->
  _cache_manager (snd (execute load save config
                         (mkPipelineExecutor steps cm dataset counts) input_path output_path))
  = cm /\
  fst (execute load save config
         (mkPipelineExecutor steps cm dataset counts) input_path output_path)
  = fst (execute load save config
           (mkPipelineExecutor steps cm2 dataset counts) input_path output_path).
Proof.
  intros Hen Hen2. unfold execute. cbn [_steps _cache_manager _dataset_name validation_counts].
  destruct (empty (load input_path)); [split; reflexivity|].
  destruct (run_steps_disabled save config dataset output_path steps (load input_path)
              cm counts None Hen) as (e & st & c & l & H1 & H2).
  rewrite H1, (H2 cm2 Hen2). destruct e; split; reflexivity.
Qed.

Lemma execute_with_caching_disabled_witness :
  fst (execute (fun _ => loan_table) (fun _ _ => true) fraud_config
         (mkPipelineExecutor (_steps (passthrough_executor disabled_cache))
            (mkCacheManager (_memory_cache warm_cache) ∅ true false) "Loan" ∅)
         "Loan.csv" "Loan_cooked.csv")
  = fst (execute (fun _ => loan_table) (fun _ _ => true) fraud_config
           (mkPipelineExecutor (_steps (passthrough_executor disabled_cache))
              disabled_cache "Loan" ∅) "Loan.csv" "Loan_cooked.csv").
Proof.
  apply (execute_with_caching_disabled (fun _ => loan_table) (fun _ _ => true) fraud_config
           _ (mkCacheManager (_memory_cache warm_cache) ∅ true false) disabled_cache "Loan" ∅
           "Loan.csv" "Loan_cooked.csv"); reflexivity.
Defined.

Lemma run_steps_all_cached save config dn out cm counts :
  _enabled cm = true ->
  forall steps df last,
    (forall s, In s steps ->
       exists t, _memory_cache cm !! cache_key dn (pipeline_step_name s) = Some t /\
                 empty t = false) ->
    exists d l,
      run_steps save config dn out steps df cm counts last
      = (Completed d, steps, cm, counts, l) /\
      (forall front s, steps = (front ++ [s])%list ->
         _memory_cache cm !! cache_key dn (pipeline_step_name s) = Some d) /\
      ((forall v, In (ValidationStep v) steps -> _last_validation_results v = None) ->
       last = None -> l = None).
Proof.
  intros Hen. induction steps as [|step rest IH]; intros df last Hall.
  - exists df, last. split; [reflexivity|]. split; [|auto].
    intros front s H. now destruct front.
  - destruct (Hall step (or_introl eq_refl)) as (t & Ht & Hne).
    cbn [run_steps]. unfold get_from_cache at 1. rewrite Hen, Ht. cbn [negb]. rewrite Hne.
    set (last1 := match step with
                  | ValidationStep v => _last_validation_results v
                  | OtherStep _ _ => last
                  end).
    destruct (IH t last1 (fun s Hs => Hall s (or_intror Hs))) as (d & l & R & Hlast & Hnone).
    rewrite R. exists d, l. split; [reflexivity|]. split.
    + intros front s Hfs. destruct rest as [|s' rest'].
      * cbn [run_steps] in R. injection R as <- _.
        destruct front as [|x [|y front]]; simpl in Hfs; try discriminate.
        injection Hfs as <-. exact Ht.
      * destruct front as [|x front]; [discriminate|]. simpl in Hfs.
        injection Hfs as _ Hfs. eapply Hlast; eauto.
    + intros Hv Hl. apply Hnone.
      * intros v Hin. apply Hv. now right.
      * subst last1. destruct step as [v|n e]; [|exact Hl]. apply Hv. now left.
Qed.

(** X7.  A run whose every step finds a non-empty table in the memory cache
    executes no step at all: it saves and returns the table cached for the
    last step, whatever was loaded and whatever the steps would compute,
    and leaves the executor as it was.  Validation steps are skipped too, so
    with freshly built steps the run returns no validation results. *)
Theorem execute_fully_cached
    (load : string -> Table) (save : Table -> string -> bool) (config : Config)
    (ex : PipelineExecutor) (input_path output_path : string)
    (front : list PipelineStep) (last_step : PipelineStep) (d : Table) :
  _enabled (_cache_manager ex) = true ->
  empty (load input_path) = false ->
  _steps ex = (front ++ [last_step])%list ->
  (forall s, In s (_steps ex) ->
     exists t, _memory_cache (_cache_manager ex)
                 !! cache_key (_dataset_name ex) (pipeline_step_name s) = Some t /\
               empty t = false) ->
  _memory_cache (_cache_manager ex)
    !! cache_key (_dataset_name ex) (pipeline_step_name last_step) = Some d ->
  exists results,
    execute load save config ex input_path output_path
    = (ReturnTuple (save d output_path) (Some d) results, ex) /\
    ((forall v, In (ValidationStep v) (_steps ex) -> _last_validation_results v = None) ->
     results = None).
Proof.
  intros Hen Hload Hsteps Hall Hd. unfold execute. rewrite Hload.
  destruct (run_steps_all_cached save config (_dataset_name ex) output_path
              (_cache_manager ex) (validation_counts ex) Hen (_steps ex)
              (load input_path) None Hall) as (d' & l & R & Hlast & Hnone).
  rewrite R. specialize (Hlast front last_step Hsteps). rewrite Hd in Hlast.
  injection Hlast as <-. exists l. split; [|auto]. now destruct ex.
Qed.

Lemma execute_fully_cached_witness :
  exists results,
    execute (fun _ => one_cell_table) (fun _ _ => true) fraud_config
      (passthrough_executor warm_cache) "Loan.csv" "Loan_cooked.csv"
    = (ReturnTuple ((fun (_ : Table) (_ : string) => true) credit_score_table "Loan_cooked.csv")
         (Some credit_score_table) results, passthrough_executor warm_cache) /\
    ((forall v, In (ValidationStep v) (_steps (passthrough_executor warm_cache)) ->
                _last_validation_results v = None) -> results = None).
Proof.
  apply (execute_fully_cached (fun _ => one_cell_table) (fun _ _ => true) fraud_config
           (passthrough_executor warm_cache) "Loan.csv" "Loan_cooked.csv"
           [OtherStep "DataCleaning" (fun df => Some df)]
           (OtherStep "Transformation" (fun df => Some df)) credit_score_table);
    try reflexivity.
  intros s [<-|[<-|[]]]; eexists; split; reflexivity.
Defined.

Lemma cache_key_inj dn a b : cache_key dn a = cache_key dn b -> a = b.
Proof.
  unfold cache_key. induction dn as [|x dn IH]; intros H.
  - now injection H.
  - apply IH. now injection H.
Qed.

Lemma save_to_cache_enabled cm df d s : _enabled (save_to_cache cm df d s) = _enabled cm.
Proof. unfold save_to_cache. now destruct (negb (_enabled cm) || empty df). Qed.

Lemma save_to_cache_other cm df d s k :
  k <> cache_key d s ->
  _memory_cache (save_to_cache cm df d s) !! k = _memory_cache cm !! k /\
  disk_cache (save_to_cache cm df d s) !! k = disk_cache cm !! k.
Proof.
  intros Hk. unfold save_to_cache. destruct (negb (_enabled cm) || empty df); [auto|].
  cbn [_memory_cache disk_cache]. rewrite lookup_insert_ne by congruence.
  destruct (disk_writable cm); [rewrite lookup_insert_ne by congruence|]; auto.
Qed.

Lemma get_from_cache_miss cm d s :
  _memory_cache cm !! cache_key d s = None ->
  disk_cache cm !! cache_key d s = None ->
  get_from_cache cm d s = (None, cm).
Proof.
  intros Hm Hd. unfold get_from_cache. rewrite Hm, Hd. now destruct (negb (_enabled cm)).
Qed.

Lemma run_steps_cold save config dn out cm0 :
  _enabled cm0 = false ->
  forall steps df cm counts last,
    List.NoDup (map pipeline_step_name steps) ->
    (forall s, In s steps ->
       _memory_cache cm !! cache_key dn (pipeline_step_name s) = None /\
       disk_cache cm !! cache_key dn (pipeline_step_name s) = None) ->
    exists e st cm' c l,
      run_steps save config dn out steps df cm counts last = (e, st, cm', c, l) /\
      run_steps save config dn out steps df cm0 counts last = (e, st, cm0, c, l).
Proof.
  intros Hen0. induction steps as [|step rest IH]; intros df cm counts last Hnd Hmiss.
  - do 5 eexists. split; reflexivity.
  - assert (Hrest : forall df', forall s, In s rest ->
       _memory_cache (save_to_cache cm df' dn (pipeline_step_name step))
         !! cache_key dn (pipeline_step_name s) = None /\
       disk_cache (save_to_cache cm df' dn (pipeline_step_name step))
         !! cache_key dn (pipeline_step_name s) = None).
    { intros df' s Hs. destruct (Hmiss s (or_intror Hs)) as [Hm Hd].
      assert (Hne : cache_key dn (pipeline_step_name s)
                    <> cache_key dn (pipeline_step_name step)).
      { intros Hk. apply cache_key_inj in Hk. inversion Hnd as [|? ? Hnotin _]; subst.
        apply Hnotin. rewrite <- Hk. now apply in_map. }
      destruct (save_to_cache_other cm df' dn (pipeline_step_name step) _ Hne) as [-> ->].
      auto. }
    destruct (Hmiss step (or_introl eq_refl)) as [Hm Hd].
    assert (Hnd' : List.NoDup (map pipeline_step_name rest)) by now inversion Hnd.
    cbn [run_steps]. rewrite (get_from_cache_miss _ _ _ Hm Hd).
    rewrite get_from_cache_disabled by assumption.
    destruct step as [v|n exec].
    + destruct (DataValidationStep_execute v _ df) as [[df' v'] m] eqn:Ev.
      rewrite (save_to_cache_disabled cm0) by assumption.
      destruct (empty df') eqn:E; [do 5 eexists; split; reflexivity|].
      destruct (IH df' (save_to_cache cm df' dn (pipeline_step_name (ValidationStep v)))
                  (<[pipeline_id (_validator v) := m]> counts)
                  (_last_validation_results v') Hnd' (Hrest df'))
        as (e & st & cm' & c & l & H1 & H2).
      rewrite H1, H2. do 5 eexists; split; reflexivity.
    + destruct (exec df) as [df'|] eqn:Ex; [|do 5 eexists; split; reflexivity].
      rewrite (save_to_cache_disabled cm0) by assumption.
      destruct (empty df') eqn:E; [do 5 eexists; split; reflexivity|].
      destruct (IH df' (save_to_cache cm df' dn (pipeline_step_name (OtherStep n exec)))
                  counts last Hnd' (Hrest df'))
        as (e & st & cm' & c & l & H1 & H2).
      rewrite H1, H2. do 5 eexists; split; reflexivity.
Qed.

(** X8.  When the steps have pairwise different names and the cache holds
    nothing under the keys of these steps, caching does not change the
    outcome: [execute] returns what it returns with caching disabled. *)
Theorem execute_cold_cache_equals_no_cache
    (load : string -> Table) (save : Table -> string -> bool) (config : Config)
    (steps : list PipelineStep) (cm cm0 : CacheManager) (dataset : string)
    (counts : gmap nat nat) (input_path output_path : string) :
  _enabled cm0 = false ->
  List.NoDup (map pipeline_step_name steps) ->
  (forall s, In s steps ->
     _memory_cache cm !! cache_key dataset (pipeline_step_name s) = None /\
     disk_cache cm !! cache_key dataset (pipeline_step_name s) = None) ->
  fst (execute load save config
         (mkPipelineExecutor steps cm dataset counts) input_path output_path)
  = fst (execute load save config
           (mkPipelineExecutor steps cm0 dataset counts) input_path output_path).
Proof.
  intros Hen0 Hnd Hmiss. unfold execute.
  cbn [_steps _cache_manager _dataset_name validation_counts].
  destruct (empty (load input_path)); [reflexivity|].
  destruct (run_steps_cold save config dataset output_path cm0 Hen0 steps
              (load input_path) cm counts None Hnd Hmiss)
    as (e & st & cm' & c & l & H1 & H2).
  rewrite H1, H2. now destruct e.
Qed.

Lemma execute_cold_cache_equals_no_cache_witness :
  fst (execute (fun _ => loan_table) (fun _ _ => true) fraud_config
         (mkPipelineExecutor (_steps (passthrough_executor empty_cache)) empty_cache "Loan" ∅)
         "Loan.csv" "Loan_cooked.csv")
  = fst (execute (fun _ => loan_table) (fun _ _ => true) fraud_config
           (mkPipelineExecutor (_steps (passthrough_executor empty_cache)) disabled_cache
              "Loan" ∅) "Loan.csv" "Loan_cooked.csv").
Proof.
  apply execute_cold_cache_equals_no_cache.
  - reflexivity.
  - repeat constructor; simpl; intuition discriminate.
  - intros s _. split; apply lookup_empty.
Defined.

(** ** [ValidationPipeline.process] *)

Local Abbreviation step_failed df :=
  (fun s : ValidationStrategy => String.eqb (status (validate s df)) "failed").
Local Abbreviation step_warning df :=
  (fun s : ValidationStrategy => String.eqb (status (validate s df)) "warning").

Lemma l_status_process_step df acc s :
  l_status (process_step df acc s) =
  if step_failed df s then "failed"
  else if step_warning df s && negb (String.eqb (l_status acc) "failed") then "warning"
  else l_status acc.
Proof.
  unfold process_step. destruct (issues (validate s df)); [reflexivity|].
  now destruct (count_severities _ _ _).
Qed.

Lemma l_status_fold df steps :
  forall acc,
    l_status (fold_left (process_step df) steps acc) =
    if existsb (step_failed df) steps then "failed"
    else if existsb (step_warning df) steps && negb (String.eqb (l_status acc) "failed")
    then "warning"
    else l_status acc.
Proof.
  induction steps as [|s steps IH]; intros acc; [reflexivity|].
  cbn [fold_left existsb]. rewrite IH, l_status_process_step.
  destruct (String.eqb (status (validate s df)) "failed") eqn:Ef.
  - cbn [orb]. destruct (existsb (step_failed df) steps); [reflexivity|].
    cbn [String.eqb negb]. change (String.eqb "failed" "failed") with true.
    cbn [negb]. now rewrite andb_false_r.
  - cbn [orb]. destruct (existsb (step_failed df) steps); [reflexivity|].
    destruct (String.eqb (status (validate s df)) "warning") eqn:Ew; cbn [orb andb].
    + destruct (String.eqb (l_status acc) "failed") eqn:Ea; cbn [negb andb].
      * rewrite Ea. cbn [negb]. now rewrite andb_false_r.
      * change (String.eqb "warning" "failed") with false. cbn [negb].
        rewrite andb_true_r. now destruct (existsb (step_warning df) steps).
    + reflexivity.
Qed.

Lemma validate_status_failed s df :
  status (validate s df) = "failed" <->
  exists l n, _validate_impl s df = inr (l, n) /\ existsb (has_severity "critical") l = true.
Proof.
  unfold validate. destruct (_validate_impl s df) as [e|[l n]]; cbn [status].
  - split; [discriminate|]. intros (l & n & H & _). discriminate.
  - destruct (existsb (has_severity "critical") l) eqn:Ec.
    + split; [eauto|reflexivity].
    + split.
      * destruct (existsb (has_severity "warning") l); discriminate.
      * intros (l' & n' & H & Hc). injection H as <- <-. congruence.
Qed.

Lemma validate_status_warning s df :
  status (validate s df) = "warning" <->
  exists l n, _validate_impl s df = inr (l, n) /\
              existsb (has_severity "critical") l = false /\
              existsb (has_severity "warning") l = true.
Proof.
  unfold validate. destruct (_validate_impl s df) as [e|[l n]]; cbn [status].
  - split; [discriminate|]. intros (l & n & H & _). discriminate.
  - destruct (existsb (has_severity "critical") l) eqn:Ec.
    + split; [discriminate|]. intros (l' & n' & H & Hc & _). injection H as <- <-.
      congruence.
    + destruct (existsb (has_severity "warning") l) eqn:Ew.
      * split; [eauto|reflexivity].
      * split; [discriminate|]. intros (l' & n' & H & _ & Hw). injection H as <- <-.
        congruence.
Qed.

(** X9.  The status of a validation run on a non-empty table.  It is
    ["failed"] exactly when some strategy returned a critical issue,
    ["warning"] exactly when none did and some strategy returned a warning
    issue, and ["passed"] otherwise.  A strategy that raised does not
    count: its status is ["error"], which the pipeline ignores. *)
Theorem process_status_aggregation
    (steps : list ValidationStrategy) (n : nat) (df : Table) :
  empty df = false ->
  let r := fst (process steps n df) in
  let returns_ (sev : string) (s : ValidationStrategy) :=
    exists l m, _validate_impl s df = inr (l, m) /\ existsb (has_severity sev) l = true in
  (v_status r = "failed" <-> exists s, In s steps /\ returns_ "critical" s) /\
  (v_status r = "warning" <->
     (forall s, In s steps -> ~ returns_ "critical" s) /\
     exists s, In s steps /\ returns_ "warning" s) /\
  (v_status r = "passed" <->
     forall s, In s steps -> ~ returns_ "critical" s /\ ~ returns_ "warning" s).
Proof.
  intros He. cbv zeta. unfold process. rewrite He. cbn [fst v_status].
  rewrite l_status_fold. cbn [l_status].
  change (String.eqb "passed" "failed") with false. cbn [negb]. rewrite andb_true_r.
  assert (Hf : existsb (step_failed df) steps = true <->
               exists s, In s steps /\
                 exists l m, _validate_impl s df = inr (l, m) /\
                             existsb (has_severity "critical") l = true).
  { rewrite existsb_exists. split; intros (s & Hin & H); exists s; split; auto.
    - apply validate_status_failed. now apply String.eqb_eq.
    - apply String.eqb_eq. now apply validate_status_failed. }
  assert (Hw : existsb (step_failed df) steps = false ->
               (existsb (step_warning df) steps = true <->
                exists s, In s steps /\
                  exists l m, _validate_impl s df = inr (l, m) /\
                              existsb (has_severity "warning") l = true)).
  { intros Hnf. rewrite existsb_exists. split; intros (s & Hin & H); exists s; split; auto.
    - apply String.eqb_eq, validate_status_warning in H.
      destruct H as (l & m & H & _ & Hw). eauto.
    - apply String.eqb_eq, validate_status_warning.
      destruct H as (l & m & H & Hw). exists l, m. repeat split; auto.
      destruct (existsb (has_severity "critical") l) eqn:Ec; [|reflexivity].
      assert (existsb (step_failed df) steps = true) by (apply Hf; eauto 6). congruence. }
  destruct (existsb (step_failed df) steps) eqn:Ef.
  - destruct (proj1 Hf eq_refl) as (s & Hin & Hs).
    split; [split; eauto|]. split; (split; [discriminate|]).
    + intros [Hno _]. exfalso. eapply Hno; eauto.
    + intros Hno. exfalso. eapply (proj1 (Hno s Hin)); eauto.
  - assert (Hno : forall s, In s steps ->
              ~ exists l m, _validate_impl s df = inr (l, m) /\
                            existsb (has_severity "critical") l = true).
    { intros s Hin Hs. assert (false = true) by (apply Hf; eauto). discriminate. }
    specialize (Hw eq_refl).
    destruct (existsb (step_warning df) steps) eqn:Ew.
    + destruct (proj1 Hw eq_refl) as (s & Hin & Hs).
      split; [split; [discriminate|]|].
      { intros H. apply Hf in H. discriminate. }
      split; [split; eauto|]. split; [discriminate|].
      intros Hall. exfalso. eapply (proj2 (Hall s Hin)); eauto.
    + split; [split; [discriminate|]|].
      { intros H. apply Hf in H. discriminate. }
      split; [split; [discriminate|]|].
      { intros [_ H]. apply Hw in H. discriminate. }
      split; [|reflexivity]. intros _ s Hin. split; [now apply Hno|].
      intros Hs. assert (false = true) by (apply Hw; eauto). discriminate.
Qed.

Lemma process_status_aggregation_witness :
  v_status (fst (process [failing_strategy; passing_strategy] 0 one_cell_table)) = "passed".
Proof.
  apply (process_status_aggregation [failing_strategy; passing_strategy] 0 one_cell_table
           eq_refl).
  intros s [<-|[<-|[]]]; split; intros (l & m & H & Hs); try discriminate.
  - injection H as <- <-. discriminate.
  - injection H as <- <-. discriminate.
Defined.

Lemma process_score (steps : list ValidationStrategy) (n : nat) (df : Table) :
  empty df = false ->
  dataset_quality_score (fst (process steps n df))
  = Z.max 0 (100 - 10 * count_severity "critical" (flat_map (fun s => issues (validate s df)) steps)
                 - 2 * count_severity "warning" (flat_map (fun s => issues (validate s df)) steps)) /\
  v_issues (fst (process steps n df)) = flat_map (fun s => issues (validate s df)) steps.
Proof.
  intros He. unfold process, count_severity. rewrite He. cbn [fst dataset_quality_score v_issues].
  assert (Hinit : loop_inv (mkProcessLoop "passed" [] [] 0 0)) by (split; reflexivity).
  destruct (process_loop_spec df steps _ Hinit) as [[Hc Hw] Hall].
  simpl in Hall. rewrite <- Hall.
  set (acc := fold_left (process_step df) steps _) in *.
  rewrite <- Hc, <- Hw. split; [|reflexivity].
  destruct (all_issues acc) eqn:E.
  - simpl in Hc, Hw. rewrite Hc, Hw. lia.
  - lia.
Qed.

(** X10.  A strategy that raises is recorded as one critical issue of type
    ["exception"]: it lowers the quality score by 10 (not below 0) and adds
    one to the issue count, but the status of the run is what it is
    without that strategy. *)
Theorem process_raising_strategy
    (before after : list ValidationStrategy) (s : ValidationStrategy) (e : string)
    (n : nat) (df : Table) :
  empty df = false ->
  _validate_impl s df = inl e ->
  let r := fst (process (before ++ s :: after) n df) in
  let r0 := fst (process (before ++ after) n df) in
  v_status r = v_status r0 /\
  dataset_quality_score r = Z.max 0 (dataset_quality_score r0 - 10) /\
  length (v_issues r) = S (length (v_issues r0)) /\
  In (mkIssue "exception" e "critical" None) (v_issues r).
Proof.
  intros He Hs. cbv zeta.
  assert (Hiss : issues (validate s df) = [mkIssue "exception" e "critical" None])
    by (unfold validate; now rewrite Hs).
  assert (Hst : status (validate s df) = "error") by (unfold validate; now rewrite Hs).
  destruct (process_score (before ++ s :: after) n df He) as [Hsc Hall].
  destruct (process_score (before ++ after) n df He) as [Hsc0 Hall0].
  rewrite Hsc, Hsc0, Hall, Hall0. clear Hsc Hsc0 Hall Hall0.
  rewrite !flat_map_app. cbn [flat_map]. rewrite Hiss.
  unfold count_severity. rewrite !List.filter_app, !length_app. cbn [List.filter app].
  change (has_severity "critical" (mkIssue "exception" e "critical" None)) with true.
  change (has_severity "warning" (mkIssue "exception" e "critical" None)) with false.
  cbn [length]. repeat split.
  - unfold process. rewrite He. cbn [fst v_status]. rewrite !l_status_fold.
    rewrite !existsb_app. cbn [existsb]. rewrite Hst.
    change (String.eqb "error" "failed") with false.
    change (String.eqb "error" "warning") with false. reflexivity.
  - lia.
  - rewrite ?length_app. cbn [length]. lia.
  - apply in_or_app. right. now left.
Qed.

Lemma process_raising_strategy_witness :
  v_status (fst (process ([two_issue_strategy] ++ failing_strategy :: [passing_strategy])
                   0 one_cell_table))
  = v_status (fst (process ([two_issue_strategy] ++ [passing_strategy]) 0 one_cell_table)).
Proof.
  apply (process_raising_strategy [two_issue_strategy] [passing_strategy] failing_strategy
           "boom" 0 one_cell_table eq_refl eq_refl).
Defined.

Lemma l_steps_fold df steps :
  forall acc,
    l_steps (fold_left (process_step df) steps acc) =
    (l_steps acc ++
     map (fun s => mkStepSummary (vname s) (status (validate s df))
                     (length (issues (validate s df)))) steps)%list.
Proof.
  induction steps as [|s steps IH]; intros acc; cbn [fold_left map].
  - now rewrite app_nil_r.
  - rewrite IH.
    assert (H : l_steps (process_step df acc s)
                = (l_steps acc ++ [mkStepSummary (vname s) (status (validate s df))
                                     (length (issues (validate s df)))])%list).
    { unfold process_step.
      destruct (issues (validate s df)) eqn:E; [|destruct (count_severities _ _ _)];
        reflexivity. }
    rewrite H, <- app_assoc. reflexivity.
Qed.

(** X11.  The bookkeeping of a validation run.  Each call increments the
    pipeline's pass counter and reports the new value.  On a non-empty
    table the run has one summary per strategy, in order and under the
    strategy's name; the per-step issue counts add up to the total;
    [issues_count] is that total; and a strategy reports as many failed
    tests as it lists issues. *)
Theorem process_bookkeeping (steps : list ValidationStrategy) (n : nat) (df : Table) :
  let r := fst (process steps n df) in
  validation_pass r = S n /\
  snd (process steps n df) = S n /\
  report_generated r = false /\
  (empty df = false ->
   map step_name (v_steps r) = map vname steps /\
   map step_status (v_steps r) = map (fun s => status (validate s df)) steps /\
   fold_right Nat.add 0%nat (map step_issues_count (v_steps r)) = length (v_issues r) /\
   issues_count r = Some (length (v_issues r)) /\
   forall s, tests_failed (validate s df) = length (issues (validate s df))).
Proof.
  cbv zeta. unfold process. destruct (empty df) eqn:He; cbn [fst snd validation_pass report_generated].
  - repeat split; discriminate.
  - repeat split.
    + cbn [v_steps]. rewrite l_steps_fold. cbn [l_steps app]. rewrite map_map. reflexivity.
    + cbn [v_steps]. rewrite l_steps_fold. cbn [l_steps app]. rewrite map_map. reflexivity.
    + cbn [v_steps v_issues]. rewrite l_steps_fold. cbn [l_steps app]. rewrite map_map.
      cbn [step_issues_count].
      assert (Hinit : loop_inv (mkProcessLoop "passed" [] [] 0 0)) by (split; reflexivity).
      destruct (process_loop_spec df steps _ Hinit) as [_ ->]. cbn [all_issues app].
      clear. induction steps as [|s steps IH]; [reflexivity|].
      cbn [map fold_right flat_map]. rewrite length_app, IH. reflexivity.
    + intros s. unfold validate. now destruct (_validate_impl s df) as [e|[l m]].
Qed.

Lemma process_bookkeeping_witness :
  map step_name (v_steps (fst (process [two_issue_strategy; failing_strategy] 0 one_cell_table)))
  = map vname [two_issue_strategy; failing_strategy].
Proof.
  apply (proj2 (proj2 (proj2
           (process_bookkeeping [two_issue_strategy; failing_strategy] 0 one_cell_table)))).
  reflexivity.
Defined.

(** ** Numeric columns, in general *)

Lemma columns_numeric_get fields df c s :
  columns_numeric fields df = true -> get_col df c = Some s ->
  existsb (String.eqb c) fields = true ->
  numeric_series s = true.
Proof.
  unfold columns_numeric. induction df as [|[n s'] df IH]; simpl; [discriminate|].
  intros H. apply andb_true_iff in H as [H1 H2].
  destruct (String.eqb c n) eqn:E.
  - apply String.eqb_eq in E. subst n. intros [= ->] Hc. now rewrite Hc in H1.
  - auto.
Qed.

Lemma columns_numeric_set_col fields df c s :
  (existsb (String.eqb c) fields = true -> numeric_series s = true) ->
  columns_numeric fields df = true ->
  columns_numeric fields (set_col df c s) = true.
Proof.
  intros Hs. unfold columns_numeric.
  induction df as [|[n s'] df IH]; simpl.
  - intros _. destruct (existsb (String.eqb c) fields); simpl; [|reflexivity].
    now rewrite Hs.
  - intros H. apply andb_true_iff in H as [H1 H2].
    destruct (String.eqb c n) eqn:En; simpl.
    + apply String.eqb_eq in En. subst n. rewrite H2, andb_true_r.
      destruct (existsb (String.eqb c) fields); simpl; [auto|reflexivity].
    + now rewrite H1, (IH H2).
Qed.

Lemma columns_numeric_map_col_to fields df c d g :
  numeric_preserving g -> retyped (col_dtype df c) d ->
  columns_numeric fields df = true ->
  columns_numeric fields (map_col_to df c d g) = true.
Proof.
  intros Hg Hd H. unfold map_col_to. destruct (get_col df c) as [s|] eqn:E; [|exact H].
  apply columns_numeric_set_col; [|exact H]. intros Hc.
  rewrite (col_dtype_get _ _ _ E) in Hd.
  apply numeric_series_map; [exact Hg| |exact Hd]. eapply columns_numeric_get; eauto.
Qed.

Lemma for_each_cons c cs body df n :
  DomainLoanFixerStrategy.for_each (c :: cs) body df n
  = match body df c n with
    | (Some df', n') => DomainLoanFixerStrategy.for_each cs body df' n'
    | (None, n') => (None, n')
    end.
Proof. reflexivity. Qed.

Lemma numeric_preserving_abs_lt d : numeric_preserving (when_lt 0 (cell_abs d)).
Proof.
  intros x Hx. apply numeric_preserving_when_lt; [apply numeric_preserving_abs|exact Hx].
Qed.

Lemma abs_cell_num d r :
  abs_overflows d r = false -> when_lt 0 (cell_abs d) (Num r) = Num (Qabs r).
Proof.
  intros Ho. unfold when_lt, ltb_q, cell_abs. rewrite Ho.
  destruct (Qle_bool 0 r) eqn:E; simpl; [|reflexivity].
  apply Qle_bool_iff in E. destruct r as [a b]. unfold Qle in E. simpl in E.
  simpl. rewrite Z.abs_eq by lia. reflexivity.
Qed.

Lemma abs_cell_overflow d r :
  abs_overflows d r = true -> when_lt 0 (cell_abs d) (Num r) = Num r.
Proof.
  intros Ho. unfold when_lt, ltb_q, cell_abs. rewrite Ho.
  now destruct (negb (Qle_bool 0 r)).
Qed.

Lemma abs_overflows_int64 d r : abs_overflows d r = true -> d = int64.
Proof. destruct d; simpl; congruence. Qed.

(** ** Date columns *)

Lemma loc_set_map_datetime df s c (p : cell -> bool) f :
  get_col df c = Some s -> dt s = datetime ->
  loc_set df (map p (cells s)) c f
  = map_col_to df c datetime (fun x => if p x then f x else x).
Proof.
  intros E Hd. destruct (loc_set_map df s c p f E) as (d & Hr & ->).
  rewrite (retyped_not_int64 _ _ Hr) by (rewrite Hd; discriminate). now rewrite Hd.
Qed.

Lemma gt_timestamp_naive s t :
  dt s = datetime -> gt_timestamp s t = Some (map (after t) (cells s)).
Proof. intros H. unfold gt_timestamp, cmp_timestamp. now rewrite H. Qed.

Lemma lt_timestamp_naive s t :
  dt s = datetime -> lt_timestamp s t = Some (map (before t) (cells s)).
Proof. intros H. unfold lt_timestamp, cmp_timestamp. now rewrite H. Qed.

Lemma fix_future_run df c s today (K : Table -> FixM Table) n :
  get_col df c = Some s -> dt s = datetime ->
  exists n',
    bind (col df c) (fun dates => bind (lift (gt_timestamp dates today))
      (fun m => bind (fix_where df m c (fun _ => Date today)) K)) n
    = K (map_col_to df c datetime (fun x => if after today x then Date today else x)) n'.
Proof.
  intros E Hd. unfold bind at 1 2, col, lift. rewrite E, (gt_timestamp_naive s today Hd).
  unfold bind.
  destruct (fix_where_run df (map (after today) (cells s)) c (fun _ => Date today) n)
    as [n' ->].
  rewrite (loc_set_map_datetime df s) by assumption. eauto.
Qed.

Lemma fix_future_last df c s today n :
  get_col df c = Some s -> dt s = datetime ->
  exists n',
    bind (col df c) (fun dates => bind (lift (gt_timestamp dates today))
      (fun m => fix_where df m c (fun _ => Date today))) n
    = (Some (map_col_to df c datetime (fun x => if after today x then Date today else x)),
       n').
Proof.
  intros E Hd. unfold bind at 1 2, col, lift. rewrite E, (gt_timestamp_naive s today Hd).
  destruct (fix_where_run df (map (after today) (cells s)) c (fun _ => Date today) n)
    as [n' ->].
  rewrite (loc_set_map_datetime df s) by assumption. eauto.
Qed.

Lemma fix_old_last df c s t n :
  get_col df c = Some s -> dt s = datetime ->
  exists n',
    bind (col df c) (fun dates => bind (lift (lt_timestamp dates t))
      (fun m => fix_where df m c (fun _ => Date t))) n
    = (Some (map_col_to df c datetime (fun x => if before t x then Date t else x)), n').
Proof.
  intros E Hd. unfold bind at 1 2, col, lift. rewrite E, (lt_timestamp_naive s t Hd).
  destruct (fix_where_run df (map (before t) (cells s)) c (fun _ => Date t) n)
    as [n' ->].
  rewrite (loc_set_map_datetime df s) by assumption. eauto.
Qed.

(** The conversion at the head of the date fixers, on a date column that
    [naive_dates] accepts: either [pd.to_datetime] raised on a column that
    is not of a datetime dtype, or the column is a tz-naive datetime column
    afterwards. *)
Lemma dates_converted (to_datetime : Series -> option Series) df c s :
  naive_dates to_datetime df c = true -> get_col df c = Some s ->
  let converted :=
    if is_datetime64_any_dtype s then Some df
    else option_map (set_col df c) (to_datetime s) in
  (converted = None /\ dt s <> datetime) \/
  (exists d s1, converted = Some d /\ get_col d c = Some s1 /\ dt s1 = datetime /\
                (forall c', c' <> c -> get_col d c' = get_col df c') /\
                (dt s = datetime -> d = df /\ s1 = s)).
Proof.
  intros Hn E. unfold naive_dates in Hn. rewrite E in Hn. cbv zeta.
  unfold is_datetime64_any_dtype.
  destruct (dt s) eqn:Ed; try discriminate.
  1, 2, 4:
    (destruct (to_datetime s) as [s1|]; cbn [option_map];
     [right; exists (set_col df c s1), s1; split; [reflexivity|];
      split; [apply get_set_col_eq; eauto using get_col_has_col|];
      split; [now destruct (dt s1)|];
      split; [intros c' Hc; apply get_set_col_ne; congruence|discriminate]
     |left; split; [reflexivity|discriminate]]).
  right. exists df, s. repeat split; auto.
Qed.

(** ** [DomainMacroFixerStrategy] *)

Section MacroFixer.
Variable now : Z.
Variable to_datetime : Series -> option Series.

Local Abbreviation macro_fix := (DomainMacroFixerStrategy._fix now to_datetime).

Lemma macro_ratio_step_run df c n :
  contains "inflation" (lower c) = false ->
  (forall s, get_col df c = Some s -> numeric_series s = true) ->
  exists d n', retyped (col_dtype df c) d /\
    whenM (has_col df c) (fun df => DomainMacroFixerStrategy._fix_ratio_values df c) df n
    = (Some (map_col_to df c d
               (ratio_cell (col_dtype df c) (DomainMacroFixerStrategy.cap_of c))), n').
Proof.
  intros Hc Hnum. apply whenM_run. intros s E. rewrite (col_dtype_get _ _ _ E).
  unfold DomainMacroFixerStrategy._fix_ratio_values. rewrite Hc.
  apply (abs_then_cap_run df c s (DomainMacroFixerStrategy.cap_of c) n E (Hnum s E)).
Qed.

Lemma macro_abs_step_run df c n :
  (forall s, get_col df c = Some s -> numeric_series s = true) ->
  exists d n', retyped (col_dtype df c) d /\
    whenM (has_col df c) (fun df => DomainMacroFixerStrategy._fix_index_values df c) df n
    = (Some (map_col_to df c d (when_lt 0 (cell_abs (col_dtype df c)))), n').
Proof.
  intros Hnum. apply whenM_run. intros s E. rewrite (col_dtype_get _ _ _ E).
  unfold DomainMacroFixerStrategy._fix_index_values.
  apply (fix_abs_last df c s n E (Hnum s E)).
Qed.

Lemma macro_report_dates_run df n :
  naive_dates to_datetime df "ReportDate" = true ->
  exists df' n',
    whenM (has_col df "ReportDate")
      (DomainMacroFixerStrategy._fix_report_dates now to_datetime) df n = (Some df', n') /\
    (forall c, c <> "ReportDate" -> get_col df' c = get_col df c) /\
    (forall s, get_col df "ReportDate" = Some s -> dt s = datetime ->
       get_col df' "ReportDate"
       = Some (mkSeries datetime
                 (map (fun x => if after now x then Date now else x) (cells s)))).
Proof.
  intros Hn. unfold whenM. destruct (has_col df "ReportDate") eqn:Eh.
  - destruct (has_col_get_col _ _ Eh) as [s E].
    unfold DomainMacroFixerStrategy._fix_report_dates.
    unfold bind at 1, col at 1, lift at 1. rewrite E. cbv zeta.
    destruct (dates_converted to_datetime df "ReportDate" s Hn E)
      as [[-> Hd]|(d & s1 & -> & E1 & Hd1 & Hfr & Hsame)].
    + unfold ret. do 2 eexists. split; [reflexivity|]. split; [auto|].
      intros s0 E0 Hd0. congruence.
    + destruct (fix_future_last d "ReportDate" s1 now n E1 Hd1) as [n' ->].
      do 2 eexists. split; [reflexivity|]. split.
      * intros c Hc. rewrite get_col_map_col_to_ne by congruence. apply Hfr. congruence.
      * intros s0 E0 Hd0. assert (s0 = s) by congruence. subst s0.
        destruct (Hsame Hd0) as [-> ->].
        now rewrite (get_col_map_col_to_eq _ _ _ _ _ E).
  - unfold ret. do 2 eexists. split; [reflexivity|]. split; [auto|].
    intros s E. apply get_col_has_col in E. congruence.
Qed.

Lemma macro_fix_run df n :
  empty df = false -> columns_numeric macro_fields df = true ->
  naive_dates to_datetime df "ReportDate" = true ->
  exists df' n' ds,
    macro_fix df n = (Some df', n') /\
    columns_numeric macro_fields (macro_columns df ds) = true /\
    (forall c, c <> "ReportDate" -> get_col df' c = get_col (macro_columns df ds) c) /\
    (forall s, get_col df "ReportDate" = Some s -> dt s = datetime ->
       get_col df' "ReportDate"
       = Some (mkSeries datetime
                 (map (fun x => if after now x then Date now else x) (cells s)))).
Proof.
  intros He Hnum Hdates0. unfold DomainMacroFixerStrategy._fix. rewrite He.
  (* the ratios *)
  destruct (macro_ratio_step_run df "UnemploymentRate" n eq_refl) as (d1 & n1 & Hd1 & H1).
  { intros s E. eapply columns_numeric_get; eauto. }
  change (DomainMacroFixerStrategy.cap_of "UnemploymentRate") with 50 in H1.
  set (df1 := map_col_to df "UnemploymentRate" d1 _) in H1.
  assert (Hnum1 : columns_numeric macro_fields df1 = true)
    by (apply columns_numeric_map_col_to; auto using numeric_preserving_abs_cap).
  destruct (macro_ratio_step_run df1 "DebtRatio" n1 eq_refl) as (d2 & n2 & Hd2 & H2).
  { intros s E. eapply columns_numeric_get; eauto. }
  change (DomainMacroFixerStrategy.cap_of "DebtRatio") with 200 in H2.
  set (df2 := map_col_to df1 "DebtRatio" d2 _) in H2.
  assert (Hnum2 : columns_numeric macro_fields df2 = true)
    by (apply columns_numeric_map_col_to; auto using numeric_preserving_abs_cap).
  destruct (macro_ratio_step_run df2 "DeficitRatio" n2 eq_refl) as (d3 & n3 & Hd3 & H3).
  { intros s E. eapply columns_numeric_get; eauto. }
  change (DomainMacroFixerStrategy.cap_of "DeficitRatio") with 200 in H3.
  set (df3 := map_col_to df2 "DeficitRatio" d3 _) in H3.
  assert (Hnum3 : columns_numeric macro_fields df3 = true)
    by (apply columns_numeric_map_col_to; auto using numeric_preserving_abs_cap).
  assert (Hinfl : forall d m,
            whenM (has_col d "InflationRate")
              (fun df => DomainMacroFixerStrategy._fix_ratio_values df "InflationRate") d m
            = (Some d, m)).
  { intros d m. unfold whenM. now destruct (has_col d "InflationRate"). }
  (* GDP and the indexes *)
  destruct (macro_abs_step_run df3 "GDP" n3) as (d4 & n4 & Hd4 & H4).
  { intros s E. eapply columns_numeric_get; eauto. }
  set (df4 := map_col_to df3 "GDP" d4 _) in H4.
  assert (Hnum4 : columns_numeric macro_fields df4 = true)
    by (apply columns_numeric_map_col_to; auto using numeric_preserving_abs_lt).
  destruct (macro_abs_step_run df4 "ConsumerPriceIndex" n4) as (d5 & n5 & Hd5 & H5).
  { intros s E. eapply columns_numeric_get; eauto. }
  set (df5 := map_col_to df4 "ConsumerPriceIndex" d5 _) in H5.
  assert (Hnum5 : columns_numeric macro_fields df5 = true)
    by (apply columns_numeric_map_col_to; auto using numeric_preserving_abs_lt).
  destruct (macro_abs_step_run df5 "HousePriceIndex" n5) as (d6 & n6 & Hd6 & H6).
  { intros s E. eapply columns_numeric_get; eauto. }
  set (df6 := map_col_to df5 "HousePriceIndex" d6 _) in H6.
  assert (Hnum6 : columns_numeric macro_fields df6 = true)
    by (apply columns_numeric_map_col_to; auto using numeric_preserving_abs_lt).
  assert (Hsame : get_col df6 "ReportDate" = get_col df "ReportDate").
  { subst df6 df5 df4 df3 df2 df1. now rewrite !get_col_map_col_to_ne by discriminate. }
  assert (Heq : df6 = macro_columns df [d1; d2; d3; d4; d5; d6]).
  { subst df6 df5 df4 df3 df2 df1. unfold macro_columns. cbn [nth].
    now rewrite !col_dtype_map_col_to_ne by discriminate. }
  destruct (macro_report_dates_run df6 n6) as (df' & n' & H7 & Hframe & Hdates).
  { unfold naive_dates. rewrite Hsame. exact Hdates0. }
  exists df', n', [d1; d2; d3; d4; d5; d6]. rewrite <- Heq.
  split; [|split; [exact Hnum6|split]].
  - erewrite bind_run; cycle 1.
    { rewrite for_each_cons. cbv beta. rewrite H1.
      rewrite for_each_cons. cbv beta. rewrite Hinfl.
      rewrite for_each_cons. cbv beta. rewrite H2.
      rewrite for_each_cons. cbv beta. rewrite H3. reflexivity. }
    erewrite bind_run; cycle 1.
    { exact H4. }
    erewrite bind_run; cycle 1.
    { rewrite for_each_cons. cbv beta. rewrite H5.
      rewrite for_each_cons. cbv beta. rewrite H6. reflexivity. }
    exact H7.
  - intros c Hc. now rewrite Hframe.
  - intros s E Hd. apply Hdates; [|exact Hd]. now rewrite Hsame.
Qed.

End MacroFixer.

Lemma ratio_cell_range d cap r :
  0 <= cap -> abs_overflows d r = false ->
  exists r', ratio_cell d cap (Num r) = Num r' /\ 0 <= r' /\ r' <= cap.
Proof.
  intros Hcap Ho. destruct (abs_cap_cell_range d cap r Hcap Ho) as (r' & H & H1 & H2 & _).
  exists r'. auto.
Qed.

(** One cell of a column of [macro_columns]. *)
Lemma cell_at_macro_columns df ds c i :
  cell_at (macro_columns df ds) c i
  = option_map
      (if String.eqb c "UnemploymentRate" then ratio_cell (col_dtype df c) 50
       else if (String.eqb c "DebtRatio" || String.eqb c "DeficitRatio")%bool
            then ratio_cell (col_dtype df c) 200
       else if (String.eqb c "GDP" || String.eqb c "ConsumerPriceIndex"
                || String.eqb c "HousePriceIndex")%bool
            then when_lt 0 (cell_abs (col_dtype df c))
       else fun x => x)
      (cell_at df c i).
Proof.
  unfold macro_columns.
  destruct (String.eqb_spec c "HousePriceIndex") as [->|N6].
  { cbn. rewrite cell_at_map_col_to_eq. now rewrite !cell_at_map_col_to_ne by discriminate. }
  rewrite cell_at_map_col_to_ne by congruence.
  destruct (String.eqb_spec c "ConsumerPriceIndex") as [->|N5].
  { cbn. rewrite cell_at_map_col_to_eq. now rewrite !cell_at_map_col_to_ne by discriminate. }
  rewrite cell_at_map_col_to_ne by congruence.
  destruct (String.eqb_spec c "GDP") as [->|N4].
  { cbn. rewrite cell_at_map_col_to_eq. now rewrite !cell_at_map_col_to_ne by discriminate. }
  rewrite cell_at_map_col_to_ne by congruence.
  destruct (String.eqb_spec c "DeficitRatio") as [->|N3].
  { cbn. rewrite cell_at_map_col_to_eq. now rewrite !cell_at_map_col_to_ne by discriminate. }
  rewrite cell_at_map_col_to_ne by congruence.
  destruct (String.eqb_spec c "DebtRatio") as [->|N2].
  { cbn. rewrite cell_at_map_col_to_eq. now rewrite !cell_at_map_col_to_ne by discriminate. }
  rewrite cell_at_map_col_to_ne by congruence.
  destruct (String.eqb_spec c "UnemploymentRate") as [->|N1].
  { cbn. now rewrite cell_at_map_col_to_eq. }
  rewrite cell_at_map_col_to_ne by congruence. cbn.
  now destruct (cell_at df c i).
Qed.



(** ** [DomainFraudFixerStrategy] *)

Section FraudFixer.
Variable now day : Z.
Variable to_datetime : Series -> option Series.
Variable float_ge_half : string -> option bool.

Local Abbreviation fraud_fix :=
  (DomainFraudFixerStrategy._fix now day to_datetime float_ge_half).
Local Abbreviation ten_years_ago := (now - 365 * 10 * day)%Z.

Lemma apply_where_numeric mask l :
  forallb numeric_cell l = true ->
  DomainFraudFixerStrategy.apply_where mask
    (DomainFraudFixerStrategy.to_indicator float_ge_half) l
  = Some (assign mask indicator_cell l).
Proof.
  revert mask. induction l as [|x l IH]; intros [|m mask] H; try reflexivity.
  cbn [forallb] in H. apply andb_true_iff in H as [Hx Hl].
  cbn [DomainFraudFixerStrategy.apply_where assign]. rewrite (IH mask Hl).
  destruct m; [|reflexivity]. destruct x; try discriminate; reflexivity.
Qed.

Lemma numeric_preserving_binary_cell : numeric_preserving binary_cell.
Proof.
  intros x Hx. unfold binary_cell, indicator_cell.
  destruct x as [q| | |]; try discriminate; cbn [is_na negb andb].
  - destruct (negb (DomainFraudFixerStrategy.isin_0_1 (Num q))); cbn [andb];
      [destruct (negb (Qeq_bool q 0) && Qle_bool (1 # 2) q)|]; reflexivity.
  - rewrite andb_false_r. reflexivity.
Qed.

Lemma fraud_binary_step_run df c n :
  (forall s, get_col df c = Some s -> numeric_series s = true) ->
  exists d n', retyped (col_dtype df c) d /\
    whenM (has_col df c)
      (fun df => DomainFraudFixerStrategy._fix_binary_indicators float_ge_half df c) df n
    = (Some (map_col_to df c d binary_cell), n').
Proof.
  intros Hnum. apply whenM_run. intros s E.
  unfold DomainFraudFixerStrategy._fix_binary_indicators, col, lift.
  unfold bind at 1. rewrite E.
  set (p := fun x => negb (DomainFraudFixerStrategy.isin_0_1 x) && negb (is_na x)).
  set (h1 := fun x => if p x then indicator_cell x else x).
  assert (Hs : forallb numeric_cell (cells s) = true)
    by (apply numeric_series_cells; auto).
  assert (H1 : exists n1,
    (if Nat.ltb 0 (mask_sum (map p (cells s)))
     then bind (fun n0 => (DomainFraudFixerStrategy.apply_where (map p (cells s))
                             (DomainFraudFixerStrategy.to_indicator float_ge_half)
                             (cells s), n0))
            (fun fixed => bind (_log_fixes (mask_sum (map p (cells s))))
               (fun _ => ret (set_col df c (mkSeries (dt s) fixed))))
     else ret df) n = (Some (map_col_to df c (dt s) h1), n1)).
  { assert (Hm : map_col_to df c (dt s) h1
                 = set_col df c (mkSeries (dt s) (assign (map p (cells s))
                                     indicator_cell (cells s)))).
    { unfold map_col_to. rewrite E. now rewrite assign_map. }
    destruct (Nat.ltb 0 (mask_sum (map p (cells s)))) eqn:Em.
    - unfold bind at 1. rewrite (apply_where_numeric _ _ Hs).
      unfold bind, _log_fixes, ret. rewrite Hm. eauto.
    - unfold ret. exists n. f_equal. f_equal. rewrite Hm.
      apply Nat.ltb_ge in Em. rewrite assign_no_true by lia.
      destruct s as [d cs]. cbn [dt cells]. symmetry. now apply set_col_same. }
  destruct H1 as [n1 H1]. erewrite bind_run by exact H1.
  assert (E1 : get_col (map_col_to df c (dt s) h1) c
               = Some (mkSeries (dt s) (map h1 (cells s))))
    by (now apply get_col_map_col_to_eq).
  unfold bind at 1. rewrite E1. cbn [cells].
  destruct (fix_where_run (map_col_to df c (dt s) h1) (map is_na (map h1 (cells s))) c
              (fun _ => Num 0) n1) as [n2 ->].
  change (map is_na (map h1 (cells s)))
    with (map is_na (cells (mkSeries (dt s) (map h1 (cells s))))).
  destruct (loc_set_map _ _ _ is_na (fun _ => Num 0) E1) as (d & Hd & ->).
  rewrite map_col_to_map_col_to. exists d, n2. split; [exact Hd|reflexivity].
Qed.

Lemma fraud_distance_home_run df n :
  (forall s, get_col df "DistanceFromHome" = Some s -> numeric_series s = true) ->
  exists d n', retyped (col_dtype df "DistanceFromHome") d /\
    whenM (has_col df "DistanceFromHome")
      DomainFraudFixerStrategy._fix_distance_from_home df n
    = (Some (map_col_to df "DistanceFromHome" d
               (ratio_cell (col_dtype df "DistanceFromHome") 20000)), n').
Proof.
  intros Hnum. apply whenM_run. intros s E. rewrite (col_dtype_get _ _ _ E).
  unfold DomainFraudFixerStrategy._fix_distance_from_home.
  apply (abs_then_cap_run df "DistanceFromHome" s 20000 n E (Hnum s E)).
Qed.

Lemma fraud_distance_last_run df n :
  (forall s, get_col df "DistanceFromLastTransaction" = Some s -> numeric_series s = true) ->
  exists d n', retyped (col_dtype df "DistanceFromLastTransaction") d /\
    whenM (has_col df "DistanceFromLastTransaction")
      DomainFraudFixerStrategy._fix_distance_from_last df n
    = (Some (map_col_to df "DistanceFromLastTransaction" d
               (ratio_cell (col_dtype df "DistanceFromLastTransaction") 20000)), n').
Proof.
  intros Hnum. apply whenM_run. intros s E. rewrite (col_dtype_get _ _ _ E).
  unfold DomainFraudFixerStrategy._fix_distance_from_last.
  apply (abs_then_cap_run df "DistanceFromLastTransaction" s 20000 n E (Hnum s E)).
Qed.

Lemma fraud_dates_run df n :
  naive_dates to_datetime df "TransactionDate" = true ->
  exists df' n',
    whenM (has_col df "TransactionDate")
      (DomainFraudFixerStrategy._fix_transaction_dates now day to_datetime) df n
    = (Some df', n') /\
    (forall c, c <> "TransactionDate" -> get_col df' c = get_col df c) /\
    (forall s, get_col df "TransactionDate" = Some s -> dt s = datetime ->
       get_col df' "TransactionDate"
       = Some (mkSeries datetime (map (clamp_date ten_years_ago now) (cells s)))).
Proof.
  intros Hn. unfold whenM. destruct (has_col df "TransactionDate") eqn:Eh.
  - destruct (has_col_get_col _ _ Eh) as [s E].
    unfold DomainFraudFixerStrategy._fix_transaction_dates.
    unfold bind at 1, col at 1, lift at 1. rewrite E. cbv zeta.
    destruct (dates_converted to_datetime df "TransactionDate" s Hn E)
      as [[-> Hd]|(d & s1 & -> & E1 & Hd1 & Hfr & Hsame)].
    + unfold ret. do 2 eexists. split; [reflexivity|]. split; [auto|].
      intros s0 E0 Hd0. congruence.
    + destruct (fix_future_run d "TransactionDate" s1 now
                  (fun df0 => bind (col df0 "TransactionDate") (fun dates =>
                     bind (lift (lt_timestamp dates ten_years_ago)) (fun old_mask =>
                       fix_where df0 old_mask "TransactionDate"
                         (fun _ => Date ten_years_ago)))) n E1 Hd1) as [n1 ->].
      set (g1 := fun x => if after now x then Date now else x).
      assert (E2 : get_col (map_col_to d "TransactionDate" datetime g1) "TransactionDate"
                   = Some (mkSeries datetime (map g1 (cells s1))))
        by (now apply get_col_map_col_to_eq).
      destruct (fix_old_last _ "TransactionDate" _ ten_years_ago n1 E2 eq_refl) as [n2 ->].
      rewrite map_col_to_map_col_to.
      do 2 eexists. split; [reflexivity|]. split.
      * intros c Hc. rewrite get_col_map_col_to_ne by congruence. apply Hfr. congruence.
      * intros s0 E0 Hd0. assert (s0 = s) by congruence. subst s0.
        destruct (Hsame Hd0) as [-> ->].
        now rewrite (get_col_map_col_to_eq _ _ _ _ _ E).
  - unfold ret. do 2 eexists. split; [reflexivity|]. split; [auto|].
    intros s E. apply get_col_has_col in E. congruence.
Qed.

Lemma fraud_fix_run df n :
  empty df = false -> columns_numeric fraud_fields df = true ->
  naive_dates to_datetime df "TransactionDate" = true ->
  exists df' n' ds,
    fraud_fix df n = (Some df', n') /\
    columns_numeric fraud_fields (fraud_columns df ds) = true /\
    (forall c, c <> "TransactionDate" -> get_col df' c = get_col (fraud_columns df ds) c) /\
    (forall s, get_col df "TransactionDate" = Some s -> dt s = datetime ->
       get_col df' "TransactionDate"
       = Some (mkSeries datetime (map (clamp_date ten_years_ago now) (cells s)))).
Proof.
  intros He Hnum Hdates0. unfold DomainFraudFixerStrategy._fix. rewrite He.
  pose proof numeric_preserving_binary_cell as Hb.
  destruct (fraud_binary_step_run df "IsFraudulent" n) as (d1 & n1 & Hd1 & H1).
  { intros s E. eapply columns_numeric_get; eauto. }
  set (df1 := map_col_to df "IsFraudulent" d1 binary_cell) in *.
  assert (Hnum1 : columns_numeric fraud_fields df1 = true)
    by (now apply columns_numeric_map_col_to).
  destruct (fraud_binary_step_run df1 "IsOnlineTransaction" n1) as (d2 & n2 & Hd2 & H2).
  { intros s E. eapply columns_numeric_get; eauto. }
  set (df2 := map_col_to df1 "IsOnlineTransaction" d2 binary_cell) in *.
  assert (Hnum2 : columns_numeric fraud_fields df2 = true)
    by (now apply columns_numeric_map_col_to).
  destruct (fraud_binary_step_run df2 "IsUsedChip" n2) as (d3 & n3 & Hd3 & H3).
  { intros s E. eapply columns_numeric_get; eauto. }
  set (df3 := map_col_to df2 "IsUsedChip" d3 binary_cell) in *.
  assert (Hnum3 : columns_numeric fraud_fields df3 = true)
    by (now apply columns_numeric_map_col_to).
  destruct (fraud_binary_step_run df3 "IsUsedPIN" n3) as (d4 & n4 & Hd4 & H4).
  { intros s E. eapply columns_numeric_get; eauto. }
  set (df4 := map_col_to df3 "IsUsedPIN" d4 binary_cell) in *.
  assert (Hnum4 : columns_numeric fraud_fields df4 = true)
    by (now apply columns_numeric_map_col_to).
  destruct (fraud_distance_home_run df4 n4) as (d5 & n5 & Hd5 & H5).
  { intros s E. eapply columns_numeric_get; eauto. }
  set (df5 := map_col_to df4 "DistanceFromHome" d5 _) in H5.
  assert (Hnum5 : columns_numeric fraud_fields df5 = true)
    by (apply columns_numeric_map_col_to; auto using numeric_preserving_abs_cap).
  destruct (fraud_distance_last_run df5 n5) as (d6 & n6 & Hd6 & H6).
  { intros s E. eapply columns_numeric_get; eauto. }
  set (df6 := map_col_to df5 "DistanceFromLastTransaction" d6 _) in H6.
  assert (Hnum6 : columns_numeric fraud_fields df6 = true)
    by (apply columns_numeric_map_col_to; auto using numeric_preserving_abs_cap).
  assert (Hsame : get_col df6 "TransactionDate" = get_col df "TransactionDate").
  { subst df6 df5 df4 df3 df2 df1. now rewrite !get_col_map_col_to_ne by discriminate. }
  assert (Heq : df6 = fraud_columns df [d1; d2; d3; d4; d5; d6]).
  { subst df6 df5 df4 df3 df2 df1. unfold fraud_columns. cbn [nth].
    now rewrite !col_dtype_map_col_to_ne by discriminate. }
  destruct (fraud_dates_run df6 n6) as (df' & n' & H7 & Hframe & Hdates).
  { unfold naive_dates. rewrite Hsame. exact Hdates0. }
  exists df', n', [d1; d2; d3; d4; d5; d6]. rewrite <- Heq.
  split; [|split; [exact Hnum6|split]].
  - erewrite bind_run; cycle 1.
    { unfold DomainFraudFixerStrategy.binary_columns.
      rewrite for_each_cons. cbv beta. rewrite H1.
      rewrite for_each_cons. cbv beta. rewrite H2.
      rewrite for_each_cons. cbv beta. rewrite H3.
      rewrite for_each_cons. cbv beta. rewrite H4. reflexivity. }
    erewrite bind_run by exact H5.
    erewrite bind_run by exact H6.
    exact H7.
  - intros c Hc. now rewrite Hframe.
  - intros s E Hd. apply Hdates; [|exact Hd]. now rewrite Hsame.
Qed.

End FraudFixer.

Lemma binary_cell_spec x :
  numeric_cell x = true ->
  DomainFraudFixerStrategy.isin_0_1 (binary_cell x) = true /\
  (DomainFraudFixerStrategy.isin_0_1 x = true -> binary_cell x = x) /\
  (forall q, x = Num q ->
     cell_eq_q (if Qle_bool (1 # 2) q then 1 else 0) (binary_cell x) = true).
Proof.
  intros Hx. destruct x as [q| | |]; try discriminate.
  - unfold binary_cell, indicator_cell. cbn [is_na negb andb].
    rewrite andb_true_r.
    destruct (DomainFraudFixerStrategy.isin_0_1 (Num q)) eqn:E; cbn [negb].
    + split; [exact E|]. split; [reflexivity|]. intros q' [= <-].
      unfold DomainFraudFixerStrategy.isin_0_1 in E. cbn [cell_eq_q] in *.
      apply orb_true_iff in E as [E|E]; apply Qeq_bool_iff in E.
      * assert (Qle_bool (1 # 2) q = false) as ->.
        { destruct (Qle_bool (1 # 2) q) eqn:X; [|reflexivity]. qbool. lra. }
        apply Qeq_bool_iff. exact E.
      * assert (Qle_bool (1 # 2) q = true) as -> by (apply Qle_bool_iff; lra).
        apply Qeq_bool_iff. exact E.
    + unfold DomainFraudFixerStrategy.isin_0_1 in E. cbn [cell_eq_q] in E.
      apply orb_false_iff in E as [E0 E1]. rewrite E0. cbn [negb andb].
      split; [destruct (Qle_bool (1 # 2) q); reflexivity|].
      split; [discriminate|]. intros q' [= <-].
      destruct (Qle_bool (1 # 2) q); reflexivity.
  - unfold binary_cell. cbn. split; [reflexivity|]. split; discriminate.
Qed.

(** One cell of a column of [fraud_columns]. *)
Lemma cell_at_fraud_columns df ds c i :
  cell_at (fraud_columns df ds) c i
  = option_map
      (if existsb (String.eqb c) DomainFraudFixerStrategy.binary_columns then binary_cell
       else if (String.eqb c "DistanceFromHome"
                || String.eqb c "DistanceFromLastTransaction")%bool
            then ratio_cell (col_dtype df c) 20000
       else fun x => x)
      (cell_at df c i).
Proof.
  unfold fraud_columns, DomainFraudFixerStrategy.binary_columns. cbn [existsb].
  destruct (String.eqb_spec c "DistanceFromLastTransaction") as [->|N6].
  { cbn. rewrite cell_at_map_col_to_eq. now rewrite !cell_at_map_col_to_ne by discriminate. }
  rewrite cell_at_map_col_to_ne by congruence.
  destruct (String.eqb_spec c "DistanceFromHome") as [->|N5].
  { cbn. rewrite cell_at_map_col_to_eq. now rewrite !cell_at_map_col_to_ne by discriminate. }
  rewrite cell_at_map_col_to_ne by congruence.
  destruct (String.eqb_spec c "IsUsedPIN") as [->|N4].
  { cbn. rewrite cell_at_map_col_to_eq. now rewrite !cell_at_map_col_to_ne by discriminate. }
  rewrite cell_at_map_col_to_ne by congruence.
  destruct (String.eqb_spec c "IsUsedChip") as [->|N3].
  { cbn. rewrite cell_at_map_col_to_eq. now rewrite !cell_at_map_col_to_ne by discriminate. }
  rewrite cell_at_map_col_to_ne by congruence.
  destruct (String.eqb_spec c "IsOnlineTransaction") as [->|N2].
  { cbn. rewrite cell_at_map_col_to_eq. now rewrite !cell_at_map_col_to_ne by discriminate. }
  rewrite cell_at_map_col_to_ne by congruence.
  destruct (String.eqb_spec c "IsFraudulent") as [->|N1].
  { cbn. now rewrite cell_at_map_col_to_eq. }
  rewrite cell_at_map_col_to_ne by congruence.
  cbn. now destruct (cell_at df c i).
Qed.

Lemma clamp_date_spec lo hi t :
  clamp_date lo hi (Date t) = Date (Z.max (Z.min t hi) lo).
Proof.
  unfold clamp_date. cbn [after].
  destruct (Z.ltb_spec hi t); cbn [before].
  - rewrite (Z.min_r t hi) by lia.
    destruct (Z.ltb_spec hi lo).
    + now rewrite Z.max_r by lia.
    + now rewrite Z.max_l by lia.
  - rewrite (Z.min_l t hi) by lia.
    destruct (Z.ltb_spec t lo).
    + now rewrite Z.max_r by lia.
    + now rewrite Z.max_l by lia.
Qed.





(** ** [DomainMarketFixerStrategy]: prices and rates *)

Lemma bind_inv {A B} (m : FixM A) (k : A -> FixM B) n y n' :
  bind m k n = (Some y, n') ->
  exists x n1, m n = (Some x, n1) /\ k x n1 = (Some y, n').
Proof.
  unfold bind. destruct (m n) as [[x|] n1]; [eauto|discriminate].
Qed.

Lemma lt_scalar_Some_map s q m :
  lt_scalar s q = Some m -> m = map (ltb_q q) (cells s).
Proof.
  unfold lt_scalar.
  assert (H : forall l m', mapM (cell_lt_q q) l = Some m' -> m' = map (ltb_q q) l).
  { induction l as [|x l IH]; intros m' Hm; cbn [mapM] in Hm; [now injection Hm as <-|].
    destruct (cell_lt_q q x) eqn:Ex; [|discriminate].
    destruct (mapM (cell_lt_q q) l) eqn:El; [|discriminate].
    injection Hm as <-. cbn [map]. rewrite (IH _ eq_refl). f_equal.
    destruct x; cbn in Ex |- *; congruence. }
  destruct (dt s); try discriminate; apply H.
Qed.

Lemma gt_scalar_Some_map s q m :
  gt_scalar s q = Some m -> m = map (gtb_q q) (cells s).
Proof.
  unfold gt_scalar.
  assert (H : forall l m', mapM (cell_gt_q q) l = Some m' -> m' = map (gtb_q q) l).
  { induction l as [|x l IH]; intros m' Hm; cbn [mapM] in Hm; [now injection Hm as <-|].
    destruct (cell_gt_q q x) eqn:Ex; [|discriminate].
    destruct (mapM (cell_gt_q q) l) eqn:El; [|discriminate].
    injection Hm as <-. cbn [map]. rewrite (IH _ eq_refl). f_equal.
    destruct x; cbn in Ex |- *; congruence. }
  destruct (dt s); try discriminate; apply H.
Qed.

(** A store under a comparison with a number, whenever it completes. *)
Lemma fix_lt_inv df c s q f (K : Table -> FixM Table) n d' n' :
  get_col df c = Some s ->
  bind (col df c) (fun x => bind (lift (lt_scalar x q))
    (fun m => bind (fix_where df m c f) K)) n = (Some d', n') ->
  exists d n1, K (map_col_to df c d (when_lt q f)) n1 = (Some d', n').
Proof.
  intros E H. apply bind_inv in H as (s0 & n0 & Hs0 & H).
  unfold col, lift in Hs0. rewrite E in Hs0. injection Hs0 as <- <-.
  apply bind_inv in H as (m & n1 & Hm & H). unfold lift in Hm. injection Hm as Hm <-.
  apply lt_scalar_Some_map in Hm as ->.
  apply bind_inv in H as (dA & n2 & HA & H).
  destruct (fix_where_run df (map (ltb_q q) (cells s)) c f n) as [n3 H3].
  rewrite H3 in HA. injection HA as <- <-.
  destruct (loc_set_map df s c (ltb_q q) f E) as (d & _ & Hl). rewrite Hl in H. eauto.
Qed.

Lemma fix_gt_inv df c s q f (K : Table -> FixM Table) n d' n' :
  get_col df c = Some s ->
  bind (col df c) (fun x => bind (lift (gt_scalar x q))
    (fun m => bind (fix_where df m c f) K)) n = (Some d', n') ->
  exists d n1, K (map_col_to df c d (when_gt q f)) n1 = (Some d', n').
Proof.
  intros E H. apply bind_inv in H as (s0 & n0 & Hs0 & H).
  unfold col, lift in Hs0. rewrite E in Hs0. injection Hs0 as <- <-.
  apply bind_inv in H as (m & n1 & Hm & H). unfold lift in Hm. injection Hm as Hm <-.
  apply gt_scalar_Some_map in Hm as ->.
  apply bind_inv in H as (dA & n2 & HA & H).
  destruct (fix_where_run df (map (gtb_q q) (cells s)) c f n) as [n3 H3].
  rewrite H3 in HA. injection HA as <- <-.
  destruct (loc_set_map df s c (gtb_q q) f E) as (d & _ & Hl). rewrite Hl in H. eauto.
Qed.

Section MarketFixer.
Variable now : Z.
Variable to_datetime : Series -> option Series.

Lemma market_negative_step df c n d' n' :
  whenM (has_col df c) (fun df => DomainMarketFixerStrategy._fix_negative_prices df c) df n
  = (Some d', n') ->
  exists d, d' = map_col_to df c d (when_lt 0 (cell_abs (col_dtype df c))).
Proof.
  unfold whenM. destruct (has_col df c) eqn:Eh.
  - destruct (has_col_get_col _ _ Eh) as [s E].
    unfold DomainMarketFixerStrategy._fix_negative_prices. intros H.
    apply bind_inv in H as (s0 & n0 & Hs0 & H).
    unfold col, lift in Hs0. rewrite E in Hs0. injection Hs0 as <- <-.
    apply bind_inv in H as (m & n1 & Hm & H). unfold lift in Hm. injection Hm as Hm <-.
    apply lt_scalar_Some_map in Hm as ->.
    destruct (fix_where_run df (map (ltb_q 0) (cells s)) c (cell_abs (dt s)) n) as [n3 H3].
    rewrite H3 in H. injection H as <- _.
    destruct (loc_set_map df s c (ltb_q 0) (cell_abs (dt s)) E) as (d & _ & Hl).
    exists d. now rewrite (col_dtype_get _ _ _ E).
  - unfold ret. intros [= <- _]. exists number.
    now rewrite (map_col_to_absent _ _ _ _ (has_col_false_get_col _ _ Eh)).
Qed.

Lemma market_interest_step df n d' n' :
  whenM (has_col df "InterestRate") DomainMarketFixerStrategy._fix_interest_rates df n
  = (Some d', n') ->
  exists d, d' = map_col_to df "InterestRate" d
                   (fun x => when_gt 30 (fun _ => Num 30) (when_lt 0 (fun _ => Num 0) x)).
Proof.
  unfold whenM. destruct (has_col df "InterestRate") eqn:Eh.
  - destruct (has_col_get_col _ _ Eh) as [s E].
    unfold DomainMarketFixerStrategy._fix_interest_rates. intros H.
    apply (fix_lt_inv df "InterestRate" s 0 (fun _ => Num 0) _ n d' n' E) in H
      as (d1 & n1 & H).
    assert (E1 : get_col (map_col_to df "InterestRate" d1 (when_lt 0 (fun _ => Num 0)))
                   "InterestRate"
                 = Some (mkSeries d1 (map (when_lt 0 (fun _ => Num 0)) (cells s))))
      by (now apply get_col_map_col_to_eq).
    apply bind_inv in H as (s0 & n0 & Hs0 & H).
    unfold col, lift in Hs0. rewrite E1 in Hs0. injection Hs0 as <- <-.
    apply bind_inv in H as (m & n2 & Hm & H). unfold lift in Hm. injection Hm as Hm <-.
    apply gt_scalar_Some_map in Hm as ->.
    destruct (fix_where_run (map_col_to df "InterestRate" d1 (when_lt 0 (fun _ => Num 0)))
                (map (gtb_q 30) (cells (mkSeries d1 (map (when_lt 0 (fun _ => Num 0))
                                                       (cells s)))))
                "InterestRate" (fun _ => Num 30) n1) as [n3 H3].
    rewrite H3 in H. injection H as <- _.
    destruct (loc_set_map _ _ "InterestRate" (gtb_q 30) (fun _ => Num 30) E1)
      as (d2 & _ & Hl).
    cbn [cells] in Hl |- *. rewrite Hl, map_col_to_map_col_to. exists d2. reflexivity.
  - unfold ret. intros [= <- _]. exists number.
    now rewrite (map_col_to_absent _ _ _ _ (has_col_false_get_col _ _ Eh)).
Qed.

Lemma market_dates_frame df n d' n' c :
  whenM (has_col df "MarketDate")
    (DomainMarketFixerStrategy._fix_market_dates now to_datetime) df n = (Some d', n') ->
  c <> "MarketDate" -> get_col d' c = get_col df c.
Proof.
  unfold whenM. destruct (has_col df "MarketDate") eqn:Eh; [|unfold ret; congruence].
  unfold DomainMarketFixerStrategy._fix_market_dates. intros H Hc.
  apply bind_inv in H as (s & n1 & Hs & H). cbv zeta in H.
  assert (Hfix : forall d m,
            bind (col d "MarketDate")
              (fun dates => bind (lift (gt_timestamp dates now))
                 (fun future_mask => fix_where d future_mask "MarketDate"
                                       (fun _ => Date now))) m = (Some d', n') ->
            get_col d' c = get_col d c).
  { intros d m Hd. apply bind_inv in Hd as (s0 & n2 & Hs0 & Hd).
    apply bind_inv in Hd as (mask & n3 & _ & Hd).
    destruct (fix_where_run d mask "MarketDate" (fun _ => Date now) n3) as [n4 H4].
    rewrite H4 in Hd. injection Hd as <- _. apply get_col_loc_set_ne. congruence. }
  destruct (is_datetime64_any_dtype s).
  - apply (Hfix _ _ H).
  - destruct (to_datetime s) as [s1|]; cbn [option_map] in H.
    + rewrite (Hfix _ _ H). apply get_set_col_ne. congruence.
    + unfold ret in H. congruence.
Qed.

End MarketFixer.

Lemma market_fix_postcondition
    (now : Z) (to_datetime : Series -> option Series) (df df' : Table) (n n' i : nat) :
  empty df = false ->
  DomainMarketFixerStrategy._fix now to_datetime df n = (Some df', n') ->
  (forall c v, In c DomainMarketFixerStrategy.price_cols ->
     cell_at df' c i = Some (Num v) -> 0 <= v \/ v == inject_Z int64_min) /\
  (forall r, cell_at df' "InterestRate" i = Some (Num r) -> 0 <= r /\ r <= 30).
Proof.
  intros He H. unfold DomainMarketFixerStrategy._fix in H. rewrite He in H.
  apply bind_inv in H as (d1 & n1 & _ & H).
  apply bind_inv in H as (d2 & n2 & H2 & H).
  apply bind_inv in H as (d3 & n3 & H3 & H4).
  unfold DomainMarketFixerStrategy.price_cols in H2.
  cbn [DomainMarketFixerStrategy.for_each] in H2.
  apply bind_inv in H2 as (a1 & m1 & Ha1 & H2). apply market_negative_step in Ha1 as [t1 Ha1].
  apply bind_inv in H2 as (a2 & m2 & Ha2 & H2). apply market_negative_step in Ha2 as [t2 Ha2].
  apply bind_inv in H2 as (a3 & m3 & Ha3 & H2). apply market_negative_step in Ha3 as [t3 Ha3].
  apply bind_inv in H2 as (a4 & m4 & Ha4 & H2). apply market_negative_step in Ha4 as [t4 Ha4].
  unfold ret in H2. injection H2 as <- _.
  apply market_interest_step in H3 as [t5 H3].
  assert (Habs : forall d x v, when_lt 0 (cell_abs d) x = Num v ->
                               0 <= v \/ v == inject_Z int64_min).
  { intros d x v. unfold when_lt, ltb_q, cell_abs.
    destruct x as [r| | |]; try discriminate.
    destruct (Qle_bool 0 r) eqn:E; cbn [negb].
    - intros [= <-]. left. now apply Qle_bool_iff.
    - destruct (abs_overflows d r) eqn:Eo; intros [= <-].
      + right. destruct d; try discriminate. now apply Qeq_bool_iff.
      + left. apply Qabs_nonneg. }
  assert (Hcell : forall d c t g v,
            cell_at (map_col_to d c t g) c i = Some (Num v) -> exists x, g x = Num v).
  { intros d c t g v. rewrite cell_at_map_col_to_eq.
    destruct (cell_at d c i) as [x|]; [|discriminate]. cbn [option_map].
    intros [= Hx]. eauto. }
  split.
  - intros c v Hc Hv.
    rewrite (cell_at_of_get_col df' d3 c i) in Hv.
    2:{ eapply market_dates_frame; [exact H4|].
        destruct Hc as [<-|[<-|[<-|[<-|[]]]]]; discriminate. }
    subst d3. rewrite cell_at_map_col_to_ne in Hv
      by (destruct Hc as [<-|[<-|[<-|[<-|[]]]]]; discriminate).
    subst a4 a3 a2 a1.
    destruct Hc as [<-|[<-|[<-|[<-|[]]]]].
    + rewrite !cell_at_map_col_to_ne in Hv by discriminate.
      apply Hcell in Hv as [x Hx]. eapply Habs; eauto.
    + rewrite !cell_at_map_col_to_ne in Hv by discriminate.
      apply Hcell in Hv as [x Hx]. eapply Habs; eauto.
    + rewrite !cell_at_map_col_to_ne in Hv by discriminate.
      apply Hcell in Hv as [x Hx]. eapply Habs; eauto.
    + apply Hcell in Hv as [x Hx]. eapply Habs; eauto.
  - intros r Hr.
    rewrite (cell_at_of_get_col df' d3 "InterestRate" i) in Hr.
    2:{ eapply market_dates_frame; [exact H4|discriminate]. }
    subst d3. apply Hcell in Hr as [x Hx].
    unfold when_gt, when_lt, ltb_q, gtb_q in Hx.
    destruct x as [q| | |]; try discriminate.
    destruct (Qle_bool 0 q) eqn:E1; cbn [negb] in Hx.
    + destruct (Qle_bool q 30) eqn:E2; cbn [negb] in Hx; injection Hx as <-;
        qbool; lra.
    + change (Qle_bool 0 30) with true in Hx. cbn [negb] in Hx. injection Hx as <-. lra.
Qed.



(** ** [DataConsistencyFixerStrategy]: VIX and TED spread *)

Lemma assign_from_nth mask new old i :
  nth_error (assign_from mask new old) i =
  match nth_error old i with
  | None => None
  | Some o =>
      match nth_error mask i, nth_error new i with
      | Some true, Some x => Some x
      | _, _ => Some o
      end
  end.
Proof.
  revert new old i. induction mask as [|m mask IH]; intros new old i.
  - cbn [assign_from]. destruct (nth_error old i); [|reflexivity]. now destruct i.
  - destruct new as [|x new].
    + cbn [assign_from]. destruct (nth_error old i); [|reflexivity].
      destruct (nth_error (m :: mask) i) as [[|]|]; now destruct i.
    + destruct old as [|o old]; [now destruct i|].
      cbn [assign_from]. destruct i as [|i]; [now destruct m|]. cbn [nth_error]. apply IH.
Qed.

Lemma assign_from_no_true mask new old :
  mask_sum mask = 0%nat -> assign_from mask new old = old.
Proof.
  unfold mask_sum. revert new old.
  induction mask as [|m mask IH]; intros [|x new] [|o old] H; try reflexivity.
  cbn [assign_from]. destruct m; [discriminate|]. cbn in H. now rewrite IH.
Qed.

Lemma forallb_assign_from (P : cell -> bool) mask new old :
  forallb P new = true -> forallb P old = true ->
  forallb P (assign_from mask new old) = true.
Proof.
  revert new old. induction mask as [|m mask IH]; intros [|x new] [|o old] Hn Ho;
    try assumption; try reflexivity.
  cbn [assign_from forallb] in *.
  apply andb_true_iff in Hn as [Hx Hn]. apply andb_true_iff in Ho as [Ho1 Ho].
  rewrite (IH new old Hn Ho), andb_true_r. now destruct m.
Qed.

Lemma fix_where_from_run df mask c new n :
  exists n', fix_where_from df mask c new n = (Some (loc_set_from df mask c new), n').
Proof.
  unfold fix_where_from. destruct (Nat.ltb 0 (mask_sum mask)) eqn:E.
  - unfold bind, _log_fixes, ret. eauto.
  - apply Nat.ltb_ge in E. unfold ret, loc_set_from.
    destruct (get_col df c) as [s|] eqn:Es; [|eauto].
    rewrite assign_from_no_true, select_no_true, retype_nil by lia.
    destruct s as [d cs]. cbn [dt cells].
    rewrite set_col_same by assumption. eauto.
Qed.

Lemma cell_at_loc_set_from_eq df mask c new i :
  cell_at (loc_set_from df mask c new) c i =
  match cell_at df c i with
  | None => None
  | Some o =>
      match nth_error mask i, nth_error new i with
      | Some true, Some x => Some x
      | _, _ => Some o
      end
  end.
Proof.
  unfold loc_set_from, cell_at. destruct (get_col df c) as [s|] eqn:E.
  - rewrite get_set_col_eq by eauto using get_col_has_col. cbn [cells].
    apply assign_from_nth.
  - now rewrite E.
Qed.

Lemma get_col_loc_set_from_ne df mask c c' new :
  c <> c' -> get_col (loc_set_from df mask c new) c' = get_col df c'.
Proof.
  intros H. unfold loc_set_from. destruct (get_col df c); [|reflexivity].
  now apply get_set_col_ne.
Qed.

Lemma numeric_cell_affine a b x : numeric_cell x = true -> numeric_cell (cell_affine a b x) = true.
Proof. now destruct x. Qed.

Lemma numeric_cell_affine_int d a b x :
  numeric_cell x = true -> numeric_cell (cell_affine_int d a b x) = true.
Proof. destruct x; try discriminate; [now destruct d|reflexivity]. Qed.

Lemma numeric_series_retype s written cs :
  numeric_series s = true -> forallb numeric_cell cs = true ->
  numeric_series (mkSeries (retype (dt s) written) cs) = true.
Proof.
  unfold numeric_series, retype. cbn [dt cells]. intros Hs Hc.
  destruct (dt s); try discriminate; [exact Hc|].
  now destruct (forallb int64_cell written).
Qed.

Lemma wrap64_in_range z : (int64_min <= z <= int64_max)%Z -> wrap64 z = z.
Proof.
  unfold wrap64, int64_min, int64_max. intros H.
  rewrite Z.mod_small by lia. lia.
Qed.

Lemma market_indicator_run df n sv st :
  get_col df "VIX" = Some sv -> get_col df "TEDSpread" = Some st ->
  numeric_series sv = true -> numeric_series st = true ->
  exists df' n',
    _fix_market_indicator_consistency df n = (Some df', n') /\
    forall i,
      cell_at df' "VIX" i =
      match cell_at df "VIX" i, cell_at df "TEDSpread" i with
      | Some v, Some t => Some (vix_cell (dt st) v t)
      | o, _ => o
      end /\
      cell_at df' "TEDSpread" i =
      match cell_at df "TEDSpread" i, cell_at df' "VIX" i with
      | Some t, Some v => Some (ted_cell v t)
      | o, _ => o
      end.
Proof.
  intros Ev Et Hv Ht. unfold _fix_market_indicator_consistency, col, lift.
  unfold bind at 1. rewrite Ev. unfold bind at 1. rewrite (gt_scalar_numeric sv 50 Hv).
  unfold bind at 1. rewrite Et. unfold bind at 1. rewrite (lt_scalar_numeric st (1 # 2) Ht).
  set (mask1 := mask_and (map (gtb_q 50) (cells sv)) (map (ltb_q (1 # 2)) (cells st))).
  set (new1 := map (cell_affine_int (dt st) 30 40) (cells st)).
  destruct (fix_where_from_run df mask1 "VIX" new1 n) as [n1 H1].
  erewrite bind_run by exact H1.
  set (df1 := loc_set_from df mask1 "VIX" new1).
  assert (Et1 : get_col df1 "TEDSpread" = Some st).
  { unfold df1. rewrite get_col_loc_set_from_ne by discriminate. exact Et. }
  assert (Ev1 : get_col df1 "VIX"
                = Some (mkSeries (retype (dt sv) (select mask1 new1))
                          (assign_from mask1 new1 (cells sv)))).
  { unfold df1, loc_set_from. rewrite Ev. apply get_set_col_eq.
    eauto using get_col_has_col. }
  assert (Hv1 : numeric_series (mkSeries (retype (dt sv) (select mask1 new1))
                                  (assign_from mask1 new1 (cells sv))) = true).
  { apply numeric_series_retype; [exact Hv|].
    apply forallb_assign_from; [|now apply numeric_series_cells].
    unfold new1. rewrite forallb_forall. intros x Hx. apply in_map_iff in Hx.
    destruct Hx as (y & <- & Hy). apply numeric_cell_affine_int.
    pose proof (numeric_series_cells st Ht) as Hall.
    rewrite forallb_forall in Hall. now apply Hall. }
  unfold bind at 1. rewrite Et1. unfold bind at 1. rewrite (gt_scalar_numeric st 2 Ht).
  unfold bind at 1. rewrite Ev1. unfold bind at 1. rewrite (lt_scalar_numeric _ 20 Hv1).
  cbn [cells].
  set (mask2 := mask_and (map (gtb_q 2) (cells st))
                         (map (ltb_q 20) (assign_from mask1 new1 (cells sv)))).
  set (new2 := map (cell_affine (1 # 2) (1 # 40)) (assign_from mask1 new1 (cells sv))).
  destruct (fix_where_from_run df1 mask2 "TEDSpread" new2 n1) as [n2 H2].
  rewrite H2. do 2 eexists. split; [reflexivity|]. intros i.
  assert (Xv : cell_at df1 "VIX" i =
               match cell_at df "VIX" i, cell_at df "TEDSpread" i with
               | Some v, Some t => Some (vix_cell (dt st) v t)
               | o, _ => o
               end).
  { unfold df1. rewrite cell_at_loc_set_from_eq. unfold cell_at. rewrite Ev, Et.
    destruct (nth_error (cells sv) i) as [v|] eqn:Nv; [|reflexivity].
    unfold mask1, new1. rewrite mask_and_nth, !nth_error_map, Nv.
    destruct (nth_error (cells st) i) as [t|] eqn:Nt; cbn [option_map]; [|reflexivity].
    unfold vix_cell. now destruct (gtb_q 50 v && ltb_q (1 # 2) t). }
  assert (Xv' : cell_at (loc_set_from df1 mask2 "TEDSpread" new2) "VIX" i
                = cell_at df1 "VIX" i).
  { apply cell_at_of_get_col. apply get_col_loc_set_from_ne. discriminate. }
  split; [now rewrite Xv'|].
  rewrite Xv', cell_at_loc_set_from_eq.
  assert (Xt : cell_at df1 "TEDSpread" i = cell_at df "TEDSpread" i)
    by (apply cell_at_of_get_col; congruence).
  assert (Ct : cell_at df "TEDSpread" i = nth_error (cells st) i)
    by (unfold cell_at; now rewrite Et).
  assert (Cv : cell_at df1 "VIX" i = nth_error (assign_from mask1 new1 (cells sv)) i)
    by (unfold cell_at; now rewrite Ev1).
  rewrite Xt, Ct, Cv.
  destruct (nth_error (cells st) i) as [t|] eqn:Nt; [|reflexivity].
  unfold mask2, new2. rewrite mask_and_nth, !nth_error_map, Nt. cbn [option_map].
  destruct (nth_error (assign_from mask1 new1 (cells sv)) i) as [v|]; cbn [option_map];
    [|reflexivity].
  unfold ted_cell. now destruct (gtb_q 2 t && ltb_q 20 v).
Qed.

(** The VIX written by the first rule is at most 30: the TED spread beside
    it is below 0.5, and on an int64 column the product does not wrap. *)
Lemma cell_affine_int_low d b :
  b < 1 # 2 ->
  (d = int64 -> (int64_min <= Qfloor b * 40)%Z) ->
  exists a, cell_affine_int d 30 40 (Num b) = Num a /\ a <= 50.
Proof.
  intros Hb Hr. unfold cell_affine_int.
  assert (Hgen : inject_Z 30 + b * inject_Z 40 <= 50).
  { change (inject_Z 30) with 30. change (inject_Z 40) with 40. lra. }
  destruct d; try (eexists; split; [reflexivity|exact Hgen]).
  specialize (Hr eq_refl).
  assert (Hf : (Qfloor b <= 0)%Z).
  { destruct (Z_le_gt_dec (Qfloor b) 0) as [H|H]; [exact H|].
    exfalso. assert (H1 : (1 <= Qfloor b)%Z) by lia.
    pose proof (Qfloor_le b) as H2.
    assert (H3 : inject_Z 1 <= inject_Z (Qfloor b)) by (rewrite <- Zle_Qle; exact H1).
    change (inject_Z 1) with 1 in H3. lra. }
  assert (Hmin : (int64_min <= -2 ^ 62)%Z) by (unfold int64_min; lia).
  assert (Hmax : (int64_max = 2 ^ 63 - 1)%Z) by reflexivity.
  rewrite (wrap64_in_range (Qfloor b * 40)) by lia.
  assert (Hlo : (int64_min <= 30 + Qfloor b * 40)%Z) by lia.
  rewrite wrap64_in_range by lia.
  eexists. split; [reflexivity|].
  assert (H4 : inject_Z (30 + Qfloor b * 40) <= inject_Z 50) by (rewrite <- Zle_Qle; lia).
  exact H4.
Qed.



(** On an int64 TED spread column the product wraps around: a VIX of 60
    beside a TED spread of -230584300921369396 becomes 9223372036854775806,
    and the row still meets the first condition. *)
Example market_indicator_int64_wraps :
  let df := [("VIX", mkSeries int64 [Num 60]);
             ("TEDSpread", mkSeries int64 [Num (-230584300921369396)])] in
  cell_at (fst (fix_ (DataConsistencyFixerStrategy.strategy market_config ret
                        _fix_market_consistency) df 0)) "VIX" 0
  = Some (Num 9223372036854775806).
Proof. vm_compute. reflexivity. Qed.

(** ** [DomainLoanFixerStrategy]: amounts, income, number of loans *)

(** One cell of the six columns that [loan_fix_run_cols] describes. *)
Lemma cell_at_loan_columns df d1 d2 d3 d4 d5 d6 c i :
  cell_at
    (map_col_to (map_col_to (map_col_to (map_col_to (map_col_to (map_col_to df
       "Age" d1 (age_cell (median_or_na df "Age")))
       "LoanAmount" d2 (abs_cap_cell (col_dtype df "LoanAmount") 10000000))
       "InterestRate" d3 (abs_cap_cell (col_dtype df "InterestRate") 100))
       "CreditScore" d4 score_cell)
       "AnnualIncome" d5 (abs_cap_cell (col_dtype df "AnnualIncome") 100000000))
       "NumLoans" d6 (num_loans_cell (num_loans_q99 df))) c i
  = option_map
      (if String.eqb c "Age" then age_cell (median_or_na df "Age")
       else if String.eqb c "LoanAmount" then abs_cap_cell (col_dtype df c) 10000000
       else if String.eqb c "InterestRate" then abs_cap_cell (col_dtype df c) 100
       else if String.eqb c "CreditScore" then score_cell
       else if String.eqb c "AnnualIncome" then abs_cap_cell (col_dtype df c) 100000000
       else if String.eqb c "NumLoans" then num_loans_cell (num_loans_q99 df)
       else fun x => x)
      (cell_at df c i).
Proof.
  destruct (String.eqb_spec c "NumLoans") as [->|N6].
  { cbn. rewrite cell_at_map_col_to_eq. now rewrite !cell_at_map_col_to_ne by discriminate. }
  rewrite cell_at_map_col_to_ne by congruence.
  destruct (String.eqb_spec c "AnnualIncome") as [->|N5].
  { cbn. rewrite cell_at_map_col_to_eq. now rewrite !cell_at_map_col_to_ne by discriminate. }
  rewrite cell_at_map_col_to_ne by congruence.
  destruct (String.eqb_spec c "CreditScore") as [->|N4].
  { cbn. rewrite cell_at_map_col_to_eq. now rewrite !cell_at_map_col_to_ne by discriminate. }
  rewrite cell_at_map_col_to_ne by congruence.
  destruct (String.eqb_spec c "InterestRate") as [->|N3].
  { cbn. rewrite cell_at_map_col_to_eq. now rewrite !cell_at_map_col_to_ne by discriminate. }
  rewrite cell_at_map_col_to_ne by congruence.
  destruct (String.eqb_spec c "LoanAmount") as [->|N2].
  { cbn. rewrite cell_at_map_col_to_eq. now rewrite !cell_at_map_col_to_ne by discriminate. }
  rewrite cell_at_map_col_to_ne by congruence.
  destruct (String.eqb_spec c "Age") as [->|N1].
  { cbn. now rewrite cell_at_map_col_to_eq. }
  rewrite cell_at_map_col_to_ne by congruence.
  now destruct (cell_at df c i).
Qed.





(** ** [OutlierFixerStrategy]: what it leaves alone *)

Lemma should_skip_column_depends col d1 d2 ds :
  get_col d1 col = get_col d2 col ->
  OutlierFixerStrategy._should_skip_column col d1 ds
  = OutlierFixerStrategy._should_skip_column col d2 ds.
Proof. intros H. unfold OutlierFixerStrategy._should_skip_column. now rewrite H. Qed.

Lemma should_skip_domain_column col df ds cols :
  OutlierFixerStrategy.domain_specific_columns ds = Some cols -> In col cols ->
  OutlierFixerStrategy._should_skip_column col df ds = true.
Proof.
  intros Hd Hin. unfold OutlierFixerStrategy._should_skip_column.
  destruct (get_col df col) as [s|]; [|reflexivity].
  destruct (_ || _ || _); [reflexivity|]. rewrite Hd.
  apply existsb_exists. exists col. split; [exact Hin|apply String.eqb_refl].
Qed.

Lemma fix_columns_skipped config key df c cols : forall acc,
  OutlierFixerStrategy._should_skip_column c df (current_dataset config) = true ->
  get_col (fst acc) c = get_col df c ->
  get_col (fst (fold_left (OutlierFixerStrategy.fix_column config key) cols acc)) c
  = get_col df c.
Proof.
  induction cols as [|col cols IH]; intros acc Hskip Hacc; [exact Hacc|].
  cbn [fold_left]. apply IH; [exact Hskip|].
  destruct (String.eqb_spec col c) as [->|Hne].
  - unfold OutlierFixerStrategy.fix_column. destruct acc as [d total]. cbn [fst] in *.
    rewrite (should_skip_column_depends c d df _ Hacc), Hskip. exact Hacc.
  - rewrite fix_column_frame by assumption. exact Hacc.
Qed.

(** X19.  [OutlierFixerStrategy] returns unchanged every column that is
    not of a numeric dtype, and every numeric column that
    [_should_skip_column] skips on the input table: an ID column, a column
    with at most two distinct values or mostly missing, and the columns
    listed for the current dataset (for Loan: Age, AnnualIncome,
    CreditScore, InterestRate, LoanAmount and DebtToIncomeRatio). *)
Theorem outlier_fixer_skipped_columns
    (config : Config) (df : Table) (fix_count : nat) (c : string) :
  let df' := fst (fix_ (OutlierFixerStrategy.strategy config) df fix_count) in
  (~ In c (OutlierFixerStrategy.numeric_cols df) -> get_col df' c = get_col df c) /\
  (OutlierFixerStrategy._should_skip_column c df (current_dataset config) = true ->
   get_col df' c = get_col df c) /\
  (forall cols,
     OutlierFixerStrategy.domain_specific_columns (current_dataset config) = Some cols ->
     In c cols -> get_col df' c = get_col df c).
Proof.
  cbv zeta. unfold fix_. cbn [_fix OutlierFixerStrategy.strategy].
  unfold OutlierFixerStrategy._fix, OutlierFixerStrategy.fix_columns.
  destruct (empty df) eqn:He; [cbn [fst]; auto|].
  destruct (fold_left _ _ _) as [d fixes] eqn:Ef. cbn [fst].
  assert (Hd : d = fst (fold_left
                 (OutlierFixerStrategy.fix_column config
                    (OutlierFixerStrategy._find_groupby_key df))
                 (OutlierFixerStrategy.numeric_cols df) (df, 0%nat)))
    by (now rewrite Ef).
  assert (Hskip : OutlierFixerStrategy._should_skip_column c df (current_dataset config)
                  = true -> get_col d c = get_col df c).
  { intros Hs. rewrite Hd. now apply fix_columns_skipped. }
  split; [|split].
  - intros Hnot. rewrite Hd. now apply fix_columns_frame.
  - exact Hskip.
  - intros cols Hc Hin. apply Hskip. eapply should_skip_domain_column; eauto.
Qed.

Lemma outlier_fixer_skipped_columns_witness :
  get_col (fst (fix_ (OutlierFixerStrategy.strategy (mkConfig "Loan" 3 true false))
                  loan_amount_table 0)) "LoanAmount"
  = get_col loan_amount_table "LoanAmount".
Proof.
  apply (proj2 (proj2 (outlier_fixer_skipped_columns (mkConfig "Loan" 3 true false)
                         loan_amount_table 0 "LoanAmount"))
           ["Age"; "AnnualIncome"; "CreditScore"; "InterestRate"; "LoanAmount";
            "DebtToIncomeRatio"] eq_refl).
  cbn. tauto.
Defined.

(** ** [OutlierFixerStrategy._find_groupby_key] *)

Lemma string_leb_refl s : String.leb s s = true.
Proof. destruct (String.leb_total s s); assumption. Qed.

Lemma string_leb_trans s1 : forall s2 s3,
  String.leb s1 s2 = true -> String.leb s2 s3 = true -> String.leb s1 s3 = true.
Proof.
  unfold String.leb.
  induction s1 as [|c1 s1 IH]; intros [|c2 s2] [|c3 s3]; cbn [String.compare];
    try reflexivity; try discriminate.
  unfold Ascii.compare.
  destruct (N.compare_spec (N_of_ascii c1) (N_of_ascii c2)) as [E12|L12|G12];
    destruct (N.compare_spec (N_of_ascii c2) (N_of_ascii c3)) as [E23|L23|G23];
    destruct (N.compare_spec (N_of_ascii c1) (N_of_ascii c3)) as [E13|L13|G13];
    try reflexivity; try discriminate; try lia.
  apply IH.
Qed.

Lemma insert_string_In x y l : In y (insert_string x l) <-> y = x \/ In y l.
Proof.
  induction l as [|z l IH]; cbn [insert_string].
  - cbn. intuition.
  - destruct (String.leb x z); cbn [In]; [intuition|]. rewrite IH. intuition.
Qed.

Lemma sorted_strings_In y l : In y (sorted_strings l) <-> In y l.
Proof.
  unfold sorted_strings. induction l as [|x l IH]; cbn [fold_right]; [reflexivity|].
  rewrite insert_string_In, IH. cbn. intuition.
Qed.

Lemma insert_string_sorted x l : sorted_names l -> sorted_names (insert_string x l).
Proof.
  induction l as [|z l IH]; cbn [insert_string sorted_names].
  - intros _. split; [constructor|exact I].
  - intros [Hz Hl]. destruct (String.leb x z) eqn:E; cbn [sorted_names].
    + split; [|split; assumption]. constructor; [exact E|].
      rewrite List.Forall_forall in *. intros a Ha.
      eapply string_leb_trans; eauto.
    + split; [|now apply IH]. rewrite List.Forall_forall. intros a Ha.
      apply insert_string_In in Ha as [->|Ha].
      * destruct (String.leb_total x z); congruence.
      * rewrite List.Forall_forall in Hz. now apply Hz.
Qed.

Lemma sorted_strings_sorted l : sorted_names (sorted_strings l).
Proof.
  unfold sorted_strings. induction l as [|x l IH]; cbn [fold_right]; [exact I|].
  now apply insert_string_sorted.
Qed.

Lemma filter_sorted p l : sorted_names l -> sorted_names (List.filter p l).
Proof.
  induction l as [|x l IH]; cbn [List.filter sorted_names]; [auto|].
  intros [Hx Hl]. destruct (p x); cbn [sorted_names]; [|auto].
  split; [|auto]. rewrite List.Forall_forall in *. intros a Ha.
  apply filter_In in Ha as [Ha _]. auto.
Qed.

Lemma find_groupby_key_Some df k :
  OutlierFixerStrategy._find_groupby_key df = Some k ->
  In k (columns df) /\ is_id_column k = true /\
  forall c, In c (columns df) -> is_id_column c = true -> String.leb k c = true.
Proof.
  unfold OutlierFixerStrategy._find_groupby_key,
    OutlierFixerStrategy._find_groupby_key_cached.
  fold is_id_column.
  pose proof (filter_sorted is_id_column _ (sorted_strings_sorted (columns df))) as Hs.
  assert (Hin : forall c, In c (List.filter is_id_column (sorted_strings (columns df)))
                          <-> In c (columns df) /\ is_id_column c = true).
  { intros c. now rewrite filter_In, sorted_strings_In. }
  change (fun col : string =>
            existsb (String.eqb (lower col)) (map lower OutlierFixerStrategy.default_id_columns))
    with is_id_column.
  destruct (List.filter is_id_column (sorted_strings (columns df))) as [|k0 rest];
    [discriminate|].
  intros [= <-]. destruct (proj1 (Hin k0) (or_introl eq_refl)) as [H1 H2].
  split; [exact H1|]. split; [exact H2|]. intros c Hc Hid.
  destruct (proj2 (Hin c) (conj Hc Hid)) as [<-|Hr]; [apply string_leb_refl|].
  cbn [sorted_names] in Hs. destruct Hs as [Hs _]. rewrite List.Forall_forall in Hs. auto.
Qed.

Lemma find_groupby_key_None df :
  OutlierFixerStrategy._find_groupby_key df = None <->
  forall c, In c (columns df) -> is_id_column c = false.
Proof.
  unfold OutlierFixerStrategy._find_groupby_key,
    OutlierFixerStrategy._find_groupby_key_cached.
  change (fun col : string =>
            existsb (String.eqb (lower col)) (map lower OutlierFixerStrategy.default_id_columns))
    with is_id_column.
  assert (Hin : forall c, In c (List.filter is_id_column (sorted_strings (columns df)))
                          <-> In c (columns df) /\ is_id_column c = true).
  { intros c. now rewrite filter_In, sorted_strings_In. }
  destruct (List.filter is_id_column (sorted_strings (columns df))) as [|k0 rest].
  - split; [|reflexivity]. intros _ c Hc.
    destruct (is_id_column c) eqn:E; [|reflexivity].
    destruct (proj2 (Hin c) (conj Hc E)).
  - split; [discriminate|]. intros H.
    destruct (proj1 (Hin k0) (or_introl eq_refl)) as [H1 H2].
    rewrite (H k0 H1) in H2. discriminate.
Qed.

(** X20.  The group-by key of the outlier fixer.  It is a column of the
    table whose lower-cased name is one of customer_id, customerid, id,
    user_id, userid, username; among those columns it is the first in
    string order; there is none exactly when no column qualifies; and it
    depends only on which columns the table has, not on their order. *)
Theorem find_groupby_key_spec (df df' : Table) :
  (forall k, OutlierFixerStrategy._find_groupby_key df = Some k ->
     In k (columns df) /\ is_id_column k = true /\
     forall c, In c (columns df) -> is_id_column c = true -> String.leb k c = true) /\
  (OutlierFixerStrategy._find_groupby_key df = None <->
   forall c, In c (columns df) -> is_id_column c = false) /\
  ((forall c, In c (columns df) <-> In c (columns df')) ->
   OutlierFixerStrategy._find_groupby_key df = OutlierFixerStrategy._find_groupby_key df').
Proof.
  split; [apply find_groupby_key_Some|]. split; [apply find_groupby_key_None|].
  intros Hsame.
  destruct (OutlierFixerStrategy._find_groupby_key df) as [k|] eqn:E;
    destruct (OutlierFixerStrategy._find_groupby_key df') as [k'|] eqn:E'.
  - apply find_groupby_key_Some in E as (H1 & H2 & H3).
    apply find_groupby_key_Some in E' as (H1' & H2' & H3').
    f_equal. apply String.leb_antisym.
    + apply H3; [now apply Hsame|exact H2'].
    + apply H3'; [now apply Hsame|exact H2].
  - apply find_groupby_key_Some in E as (H1 & H2 & _).
    rewrite find_groupby_key_None in E'. rewrite (E' k) in H2 by now apply Hsame.
    discriminate.
  - apply find_groupby_key_Some in E' as (H1 & H2 & _).
    rewrite find_groupby_key_None in E. rewrite (E k') in H2 by now apply Hsame.
    discriminate.
  - reflexivity.
Qed.

Lemma find_groupby_key_spec_witness :
  OutlierFixerStrategy._find_groupby_key swapped_balance_table
  = OutlierFixerStrategy._find_groupby_key
      [("UserID", mkSeries number []); ("CustomerID", mkSeries number []);
       ("Balance", mkSeries number [])].
Proof.
  apply (proj2 (proj2 (find_groupby_key_spec swapped_balance_table
           [("UserID", mkSeries number []); ("CustomerID", mkSeries number []);
            ("Balance", mkSeries number [])]))).
  intros c. cbn. tauto.
Defined.

(* ================================================================== *)
(** * Fixers and the domain validation *)
(* ================================================================== *)

Lemma report_shape count issue :
  exists iss p, report count issue = Some (iss, p) /\ forall i, In i iss -> i = issue.
Proof.
  unfold report. destruct (Nat.ltb 0 count); do 2 eexists; (split; [reflexivity|]).
  - intros i [<-|[]]. reflexivity.
  - intros i [].
Qed.

Lemma report_zero issue : report 0 issue = Some ([], 1%nat).
Proof. reflexivity. Qed.

Lemma all_checks_Forall (P : Issue -> Prop) l :
  (forall c, In c l -> exists iss p, c = Some (iss, p) /\ forall i, In i iss -> P i) ->
  exists iss p, all_checks l = Some (iss, p) /\ forall i, In i iss -> P i.
Proof.
  induction l as [|c l IH]; intros H.
  - exists [], 0%nat. split; [reflexivity|]. intros i [].
  - destruct (H c (or_introl eq_refl)) as (iss1 & p1 & -> & H1).
    destruct (IH (fun c' Hc' => H c' (or_intror Hc'))) as (iss2 & p2 & E2 & H2).
    cbn [all_checks]. rewrite E2. exists (iss1 ++ iss2)%list, (p1 + p2)%nat.
    split; [reflexivity|]. intros i Hi. apply in_app_or in Hi as [Hi|Hi]; auto.
Qed.

Lemma no_check_Forall (P : Issue -> Prop) :
  exists iss p, no_check = Some (iss, p) /\ forall i, In i iss -> P i.
Proof. exists [], 0%nat. split; [reflexivity|]. intros i []. Qed.

Lemma validate_of_checks config error_message df (P : Issue -> Prop) :
  (exists iss p, DomainSpecificValidationStrategy.checks config df = Some (iss, p) /\
                forall i, In i iss -> P i) ->
  status (validate (DomainSpecificValidationStrategy.strategy config error_message) df)
  <> "error" /\
  forall i,
    In i (issues (validate (DomainSpecificValidationStrategy.strategy config error_message)
                    df)) -> P i.
Proof.
  intros (iss & p & E & H). unfold validate.
  cbn [_validate_impl DomainSpecificValidationStrategy.strategy].
  unfold DomainSpecificValidationStrategy._validate_impl. rewrite E. cbn [status issues].
  split; [|exact H].
  destruct (existsb (has_severity "critical") iss); [discriminate|].
  destruct (existsb (has_severity "warning") iss); discriminate.
Qed.

Lemma mask_or_all_false (f g : cell -> bool) l :
  (forall x, In x l -> f x = false /\ g x = false) ->
  mask_sum (mask_or (map f l) (map g l)) = 0%nat.
Proof.
  unfold mask_sum. induction l as [|x l IH]; intros H; [reflexivity|].
  cbn [map mask_or]. destruct (H x (or_introl eq_refl)) as [-> ->]. cbn.
  apply IH. intros y Hy. apply H. now right.
Qed.

Lemma range_count_numeric s lo hi :
  numeric_series s = true ->
  range_count s lo hi
  = Some (mask_sum (mask_or (map (ltb_q lo) (cells s)) (map (gtb_q hi) (cells s)))).
Proof.
  intros Hs. unfold range_count.
  now rewrite (lt_scalar_numeric s lo Hs), (gt_scalar_numeric s hi Hs).
Qed.

Lemma range_count_zero s lo hi :
  numeric_series s = true ->
  (forall x, In x (cells s) -> ltb_q lo x = false /\ gtb_q hi x = false) ->
  range_count s lo hi = Some 0%nat.
Proof.
  intros Hs H. rewrite (range_count_numeric s lo hi Hs). f_equal.
  now apply mask_or_all_false.
Qed.

Lemma ratio_cell_in_range d cap lo hi x :
  numeric_cell x = true -> (forall r, x = Num r -> abs_overflows d r = false) ->
  0 <= cap -> lo <= 0 -> cap <= hi ->
  ltb_q lo (ratio_cell d cap x) = false /\ gtb_q hi (ratio_cell d cap x) = false.
Proof.
  intros Hx Ho Hcap Hlo Hhi. destruct x as [r| | |]; try discriminate.
  - destruct (ratio_cell_range d cap r Hcap (Ho r eq_refl)) as (r' & -> & H0 & H1).
    unfold ltb_q, gtb_q.
    assert (Qle_bool lo r' = true) as -> by (apply Qle_bool_iff; lra).
    assert (Qle_bool r' hi = true) as -> by (apply Qle_bool_iff; lra).
    split; reflexivity.
  - split; reflexivity.
Qed.

Lemma lt_series_numeric a b :
  forallb numeric_cell (cells a) = true -> forallb numeric_cell (cells b) = true ->
  exists m, lt_series a b = Some m.
Proof.
  unfold lt_series. generalize (cells a) (cells b). clear a b.
  induction l as [|x l IH]; intros [|y l0] Hl Hl0; cbn [zipM]; eauto.
  cbn [forallb] in *. apply andb_true_iff in Hl as [Hx Hl].
  apply andb_true_iff in Hl0 as [Hy Hl0].
  destruct (IH l0 Hl Hl0) as [m ->].
  destruct x, y; try discriminate; cbn [cell_lt]; eauto.
Qed.

Lemma mul_scalar_numeric k s :
  numeric_series s = true ->
  mul_scalar k s = Some (mkSeries (dt s) (map (cell_scale (dt s) k) (cells s))).
Proof.
  intros Hs. unfold mul_scalar. rewrite (numeric_series_cells s Hs).
  now destruct (numeric_series_dtype s Hs) as [-> | ->].
Qed.

Lemma numeric_cell_scale d k x : numeric_cell x = true -> numeric_cell (cell_scale d k x) = true.
Proof. destruct x; try discriminate; [now destruct d|reflexivity]. Qed.

(** Cells of a column, by position. *)
Lemma cells_cell_at d c s x :
  get_col d c = Some s -> In x (cells s) -> exists i, cell_at d c i = Some x.
Proof.
  intros E Hin. apply In_nth_error in Hin as [i Hi]. exists i.
  unfold cell_at. now rewrite E.
Qed.

Lemma cell_at_In d c s i x :
  get_col d c = Some s -> cell_at d c i = Some x -> In x (cells s).
Proof.
  intros E H. unfold cell_at in H. rewrite E in H. eapply nth_error_In; eauto.
Qed.

Lemma cell_at_get_col d c i x : cell_at d c i = Some x -> exists s, get_col d c = Some s.
Proof. unfold cell_at. destruct (get_col d c); [eauto|discriminate]. Qed.

Lemma loan_cell_numeric df c i x :
  loan_columns_numeric df = true -> loan_field c = true ->
  cell_at df c i = Some x -> numeric_cell x = true.
Proof.
  intros Hnum Hc H. destruct (cell_at_get_col _ _ _ _ H) as [s E].
  pose proof (numeric_series_cells s (loan_columns_numeric_get df c s Hnum E Hc)) as Hall.
  rewrite forallb_forall in Hall. apply Hall. eapply cell_at_In; eauto.
Qed.

Lemma columns_cell_numeric fields df c i x :
  columns_numeric fields df = true -> existsb (String.eqb c) fields = true ->
  cell_at df c i = Some x -> numeric_cell x = true.
Proof.
  intros Hnum Hc H. destruct (cell_at_get_col _ _ _ _ H) as [s E].
  pose proof (numeric_series_cells s (columns_numeric_get fields df c s Hnum E Hc)) as Hall.
  rewrite forallb_forall in Hall. apply Hall. eapply cell_at_In; eauto.
Qed.

Lemma no_abs_overflow_cell df c i r :
  no_abs_overflow df c = true -> cell_at df c i = Some (Num r) ->
  abs_overflows (col_dtype df c) r = false.
Proof.
  intros Hno H. destruct (cell_at_get_col _ _ _ _ H) as [s E].
  unfold no_abs_overflow in Hno. rewrite E in Hno. rewrite (col_dtype_get _ _ _ E).
  rewrite forallb_forall in Hno. specialize (Hno _ (cell_at_In _ _ _ _ _ E H)).
  now apply negb_true_iff in Hno.
Qed.



Lemma le_scalar_numeric s q :
  numeric_series s = true -> exists m, le_scalar s q = Some m.
Proof.
  unfold numeric_series, le_scalar. intros H.
  assert (Hm : forall l, forallb numeric_cell l = true ->
                         exists m, mapM (cell_le_q q) l = Some m).
  { induction l as [|x l IH]; intros Hl; [cbn; eauto|]. cbn [forallb] in Hl.
    apply andb_true_iff in Hl as [Hx Hl]. destruct (IH Hl) as [m Em].
    cbn [mapM]. rewrite Em. destruct x; try discriminate; cbn [cell_le_q]; eauto. }
  destruct (dt s); try discriminate; now apply Hm.
Qed.

Lemma range_count_total s lo hi :
  numeric_series s = true -> exists n, range_count s lo hi = Some n.
Proof. intros Hs. rewrite (range_count_numeric s lo hi Hs). eauto. Qed.

Lemma columns_numeric_tail f fields df :
  columns_numeric (f :: fields) df = true -> columns_numeric fields df = true.
Proof.
  unfold columns_numeric. rewrite !forallb_forall. intros Hnum p Hp.
  specialize (Hnum p Hp). cbn [existsb] in Hnum.
  destruct (String.eqb (fst p) f); cbn [orb negb] in Hnum.
  - rewrite Hnum. apply orb_true_r.
  - exact Hnum.
Qed.





Lemma all_checks_Forall_partial (P : Issue -> Prop) l :
  (forall c iss p, In c l -> c = Some (iss, p) -> forall i, In i iss -> P i) ->
  forall iss p, all_checks l = Some (iss, p) -> forall i, In i iss -> P i.
Proof.
  induction l as [|c l IH]; intros H iss p E i Hi.
  - injection E as <- <-. destruct Hi.
  - cbn [all_checks] in E. unfold and_then in E.
    destruct c as [[iss1 p1]|]; [|discriminate]. cbn [mbind option_bind] in E.
    destruct (all_checks l) as [[iss2 p2]|] eqn:E2; [|discriminate].
    cbn [mbind option_bind] in E. injection E as <- <-.
    apply in_app_or in Hi as [Hi|Hi].
    + eapply (H _ iss1 p1 (or_introl eq_refl)); eauto.
    + eapply (IH (fun c' iss' p' Hc' => H c' iss' p' (or_intror Hc'))); eauto.
Qed.

Lemma report_inv count issue iss p i :
  report count issue = Some (iss, p) -> In i iss -> i = issue /\ (0 < count)%nat.
Proof.
  unfold report. destruct (Nat.ltb 0 count) eqn:E; intros [= <- <-] Hi.
  - destruct Hi as [<-|[]]. split; [reflexivity|]. now apply Nat.ltb_lt.
  - destruct Hi.
Qed.



(* ================================================================== *)
(** * Pipelines *)
(* ================================================================== *)

Lemma run_steps_other_disabled save config dn out cm0 n f rest df counts last :
  _enabled cm0 = false ->
  run_steps save config dn out (OtherStep n f :: rest) df cm0 counts last
  = match f df with
    | None => (Raised, OtherStep n f :: rest, cm0, counts, last)
    | Some df' =>
        if empty df' then (EmptyResult, OtherStep n f :: rest, cm0, counts, last)
        else let '(e, r, c, k, l) := run_steps save config dn out rest df' cm0 counts last in
             (e, OtherStep n f :: r, c, k, l)
    end.
Proof.
  intros Hen. cbn [run_steps]. rewrite get_from_cache_disabled by assumption.
  destruct (f df) as [df'|]; [|reflexivity].
  rewrite save_to_cache_disabled by assumption. reflexivity.
Qed.

Lemma process_count steps n df :
  snd (process steps n df) = S n /\ validation_pass (fst (process steps n df)) = S n.
Proof. unfold process. destruct (empty df); split; reflexivity. Qed.

Lemma run_steps_validation_disabled save config dn out cm0 v rest df counts last :
  _enabled cm0 = false -> empty df = false ->
  run_steps save config dn out (ValidationStep v :: rest) df cm0 counts last
  = let results := fst (process (pipeline_steps (_validator v))
                          (count_of counts (_validator v)) df) in
    let v' := mkDataValidationStep (_validator v) (_post_fixing v) (Some results) in
    let '(e, r, c, k, l) :=
      run_steps save config dn out rest df cm0
        (<[pipeline_id (_validator v) := S (count_of counts (_validator v))]> counts)
        (Some results) in
    (e, ValidationStep v' :: r, c, k, l).
Proof.
  intros Hen He. cbn [run_steps]. rewrite get_from_cache_disabled by assumption.
  unfold DataValidationStep_execute. rewrite He.
  destruct (process_count (pipeline_steps (_validator v)) (count_of counts (_validator v)) df)
    as [Hs _].
  destruct (process _ _ df) as [results m]. cbn [fst snd] in *. subst m.
  rewrite save_to_cache_disabled by assumption. rewrite He. reflexivity.
Qed.

Section FactoryRun.
Variable now day : Z.
Variable to_datetime : Series -> option Series.
Variable float_ge_half : string -> option bool.
Variable missing_value_fixer : Config -> FixerStrategy.
Variable _fix_loan_consistency : Config -> Table -> FixM Table.
Variable cleaning_process transformation_process : Config -> Table -> option Table.
Variable final_cleanup : Config -> Table -> Table.
Variable schema_validation data_quality : Config -> ValidationStrategy.
Variable error_message : Table -> string.
Variable disk : gmap string Table.
Variable writable : bool.
Variable load : string -> Table.
Variable save : Table -> string -> bool.
Variable config : Config.
Variable dataset_type input_path output_path : string.
Variable d1 d2 : Table.

Local Abbreviation config' := (set_current_dataset config dataset_type).
Local Abbreviation ex :=
  (fst (PipelineFactory.create_pipeline now day to_datetime float_ge_half
          missing_value_fixer _fix_loan_consistency cleaning_process
          transformation_process final_cleanup schema_validation data_quality
          error_message disk writable true config dataset_type)).
Local Abbreviation fixing :=
  (FixerPipeline_process
     (PipelineFactory._create_fixing_pipeline now day to_datetime float_ge_half
        missing_value_fixer _fix_loan_consistency config' dataset_type) d2).
Local Abbreviation vsteps :=
  [schema_validation config'; data_quality config';
   DomainSpecificValidationStrategy.strategy config' error_message].

Hypothesis Hcold : forall name,
  In name ["DataCleaning"; "Transformation"; "DataValidation_Pre"; "DataFixer";
           "DataValidation_Post"; "FinalCleanup"] ->
  disk !! cache_key (current_dataset config) name = None.
Hypothesis Hload : empty (load input_path) = false.
Hypothesis Hclean : cleaning_process config' (load input_path) = Some d1.
Hypothesis He1 : empty d1 = false.
Hypothesis Htrans : transformation_process config' d1 = Some d2.
Hypothesis He2 : empty d2 = false.

Lemma factory_run_completes fixed :
  fixing = Some fixed -> empty fixed = false ->
  empty (final_cleanup config' fixed) = false ->
  fst (execute load save config' ex input_path output_path)
  = ReturnTuple (save (final_cleanup config' fixed) output_path)
      (Some (final_cleanup config' fixed)) (Some (fst (process vsteps 1 fixed))).
Proof.
  intros Hfix Hefixed Hefinal.
  unfold PipelineFactory.create_pipeline. cbn [fst].
  unfold execute. cbn [_steps _cache_manager _dataset_name validation_counts].
  rewrite Hload.
  set (cm0 := mkCacheManager ∅ ∅ true false).
  match goal with
  | |- context [run_steps save ?cfg ?dn ?out ?steps ?df ?cm ?counts ?last] =>
      destruct (run_steps_cold save cfg dn out cm0 eq_refl steps df cm counts last)
        as (e & st & cm' & c & l & H1 & H2)
  end.
  { cbn. repeat constructor; cbn; intuition discriminate. }
  { intros s Hs. split; [apply lookup_empty|]. apply Hcold.
    cbn in Hs. decompose [or] Hs; subst; cbn; tauto. }
  rewrite H1. clear H1.
  cbn [app] in H2.
  unfold PipelineFactory.DataCleaningStep in H2.
  rewrite run_steps_other_disabled in H2 by reflexivity.
  rewrite Hload, Hclean, He1 in H2.
  unfold PipelineFactory.TransformationStep in H2.
  rewrite run_steps_other_disabled in H2 by reflexivity.
  rewrite He1, Htrans, He2 in H2.
  rewrite run_steps_validation_disabled in H2 by (reflexivity || assumption).
  cbv zeta in H2. cbn [_validator _post_fixing pipeline_id pipeline_steps
                       PipelineFactory._create_validation_pipeline] in H2.
  unfold count_of at 1 2 in H2. cbn [pipeline_id] in H2.
  rewrite lookup_insert_eq in H2. cbn [default] in H2.
  unfold PipelineFactory.DataFixerStep in H2.
  rewrite run_steps_other_disabled in H2 by reflexivity.
  rewrite He2, Hfix, Hefixed in H2.
  rewrite run_steps_validation_disabled in H2 by (reflexivity || assumption).
  cbv zeta in H2. cbn [_validator _post_fixing pipeline_id pipeline_steps
                       PipelineFactory._create_validation_pipeline] in H2.
  unfold count_of at 1 2 in H2. cbn [pipeline_id] in H2.
  rewrite lookup_insert_eq in H2. cbn [default] in H2.
  unfold PipelineFactory.FinalCustomStep in H2.
  rewrite run_steps_other_disabled in H2 by reflexivity.
  rewrite Hefixed, Hefinal in H2.
  cbn [run_steps] in H2. injection H2 as <- _ _ <-. reflexivity.
Qed.

Lemma factory_run_key_error :
  fixing = None ->
  fst (execute load save config' ex input_path output_path)
  = ReturnTuple false None (Some (fst (process vsteps 0 d2))).
Proof.
  intros Hfix.
  unfold PipelineFactory.create_pipeline. cbn [fst].
  unfold execute. cbn [_steps _cache_manager _dataset_name validation_counts].
  rewrite Hload.
  set (cm0 := mkCacheManager ∅ ∅ true false).
  match goal with
  | |- context [run_steps save ?cfg ?dn ?out ?steps ?df ?cm ?counts ?last] =>
      destruct (run_steps_cold save cfg dn out cm0 eq_refl steps df cm counts last)
        as (e & st & cm' & c & l & H1 & H2)
  end.
  { cbn. repeat constructor; cbn; intuition discriminate. }
  { intros s Hs. split; [apply lookup_empty|]. apply Hcold.
    cbn in Hs. decompose [or] Hs; subst; cbn; tauto. }
  rewrite H1. clear H1.
  cbn [app] in H2.
  unfold PipelineFactory.DataCleaningStep in H2.
  rewrite run_steps_other_disabled in H2 by reflexivity.
  rewrite Hload, Hclean, He1 in H2.
  unfold PipelineFactory.TransformationStep in H2.
  rewrite run_steps_other_disabled in H2 by reflexivity.
  rewrite He1, Htrans, He2 in H2.
  rewrite run_steps_validation_disabled in H2 by (reflexivity || assumption).
  cbv zeta in H2. cbn [_validator _post_fixing pipeline_id pipeline_steps
                       PipelineFactory._create_validation_pipeline] in H2.
  unfold count_of at 1 2 in H2. cbn [pipeline_id] in H2.
  rewrite lookup_insert_eq in H2. cbn [default] in H2.
  unfold PipelineFactory.DataFixerStep in H2.
  rewrite run_steps_other_disabled in H2 by reflexivity.
  rewrite He2, Hfix in H2.
  injection H2 as <- _ _ <-. reflexivity.
Qed.

End FactoryRun.

(** X25.  The pipeline that [PipelineFactory.create_pipeline] builds, with
    validation after fixing, run on a cache that holds nothing for its
    steps, when cleaning and transformation each leave a non-empty table.
    If the fixing pipeline, the fixed table and the final cleanup each
    leave a non-empty table, [execute] saves and returns the table of the
    final cleanup, and the validation results it returns are those of the
    second pass: the validation of the fixed table, numbered 2 because the
    pre-fix and the post-fix step share one validation pipeline.  If the
    fixing pipeline raises the KeyError of its count of changed columns (a
    step dropped a column of its input), [execute] returns
    [(False, None, results)] with the results of the pre-fix pass. *)
Theorem factory_pipeline_validation_passes
    (now day : Z) (to_datetime : Series -> option Series)
    (float_ge_half : string -> option bool)
    (missing_value_fixer : Config -> FixerStrategy)
    (_fix_loan_consistency : Config -> Table -> FixM Table)
    (cleaning_process transformation_process : Config -> Table -> option Table)
    (final_cleanup : Config -> Table -> Table)
    (schema_validation data_quality : Config -> ValidationStrategy)
    (error_message : Table -> string)
    (disk : gmap string Table) (writable : bool)
    (load : string -> Table) (save : Table -> string -> bool)
    (config : Config) (dataset_type input_path output_path : string) (d1 d2 : Table) :
  let config' := set_current_dataset config dataset_type in
  let ex := fst (PipelineFactory.create_pipeline now day to_datetime float_ge_half
                   missing_value_fixer _fix_loan_consistency cleaning_process
                   transformation_process final_cleanup schema_validation data_quality
                   error_message disk writable true config dataset_type) in
  let fixing := FixerPipeline_process
                  (PipelineFactory._create_fixing_pipeline now day to_datetime float_ge_half
                     missing_value_fixer _fix_loan_consistency config' dataset_type) d2 in
  let vsteps := [schema_validation config'; data_quality config';
                 DomainSpecificValidationStrategy.strategy config' error_message] in
  (forall name,
     In name ["DataCleaning"; "Transformation"; "DataValidation_Pre"; "DataFixer";
              "DataValidation_Post"; "FinalCleanup"] ->
     disk !! cache_key (current_dataset config) name = None) ->
  empty (load input_path) = false ->
  cleaning_process config' (load input_path) = Some d1 -> empty d1 = false ->
  transformation_process config' d1 = Some d2 -> empty d2 = false ->
  (forall fixed,
     fixing = Some fixed -> empty fixed = false ->
     empty (final_cleanup config' fixed) = false ->
     fst (execute load save config' ex input_path output_path)
     = ReturnTuple (save (final_cleanup config' fixed) output_path)
         (Some (final_cleanup config' fixed)) (Some (fst (process vsteps 1 fixed))) /\
     validation_pass (fst (process vsteps 1 fixed)) = 2%nat) /\
  (fixing = None ->
   fst (execute load save config' ex input_path output_path)
   = ReturnTuple false None (Some (fst (process vsteps 0 d2)))) /\
  validation_pass (fst (process vsteps 0 d2)) = 1%nat.
Proof.
  cbv zeta. intros Hcold Hload Hclean He1 Htrans He2.
  split; [|split; [|apply process_count]].
  - intros fixed Hfix Hef Hefin. split; [|apply process_count].
    now apply (factory_run_completes now day to_datetime float_ge_half missing_value_fixer
                 _fix_loan_consistency cleaning_process transformation_process
                 final_cleanup schema_validation data_quality error_message disk writable
                 load save config dataset_type input_path output_path d1 d2).
  - intros Hfix.
    now apply (factory_run_key_error now day to_datetime float_ge_half missing_value_fixer
                 _fix_loan_consistency cleaning_process transformation_process
                 final_cleanup schema_validation data_quality error_message disk writable
                 load save config dataset_type input_path output_path d1 d2).
Qed.

Lemma factory_pipeline_validation_passes_witness :
  exists final post,
    fst (execute (fun _ => loan_table) (fun _ _ => true)
           (set_current_dataset loan_config "Loan") loan_pipeline_executor
           "Loan.csv" "Loan_cooked.csv")
    = ReturnTuple true (Some final) (Some post) /\
    validation_pass post = 2%nat.
Proof.
  pose proof (factory_pipeline_validation_passes 19500 1 (fun _ => None) (fun _ => None)
                (fun _ => identity_fixer) (fun _ => ret) (fun _ df => Some df)
                (fun _ df => Some df) (fun _ df => df) (fun _ => passing_strategy)
                (fun _ => passing_strategy) (fun _ => "TypeError") ∅ true
                (fun _ => loan_table) (fun _ _ => true) loan_config "Loan"
                "Loan.csv" "Loan_cooked.csv" loan_table loan_table) as H.
  cbv zeta in H.
  specialize (H (fun _ _ => lookup_empty _) eq_refl eq_refl eq_refl eq_refl eq_refl).
  destruct H as (H & _ & _).
  destruct (H _ ltac:(vm_compute; reflexivity) ltac:(vm_compute; reflexivity)
              ltac:(vm_compute; reflexivity)) as (H1 & H2).
  do 2 eexists. split; [exact H1|exact H2].
Defined.

(** The pipeline of the Loan dataset on a table that already has a column
    [ExpectedPayment], with a consistency fixer that, as
    [_fix_payment_amount_consistency] does, overwrites and then drops that
    column: the count of changed columns raises. *)
Example fixer_pipeline_key_error :
  let df := [("LoanAmount", mkSeries number [Num 1000]);
             ("ExpectedPayment", mkSeries number [Num 10])] in
  let drop_expected : FixerStrategy :=
    mkFixer "DataConsistencyFixerStrategy"
      (fun df => ret (List.filter (fun p => negb (String.eqb (fst p) "ExpectedPayment")) df)) in
  FixerPipeline_process [DomainLoanFixerStrategy.strategy; drop_expected] df = None.
Proof. vm_compute. reflexivity. Qed.

(** ** [FixerPipeline.process] *)

Lemma fixer_steps_empty steps : forall df,
  empty df = true ->
  fold_left (fun result_df step => FixerPipelineStep_execute step result_df) steps df = df.
Proof.
  induction steps as [|s steps IH]; intros df He; [reflexivity|].
  cbn [fold_left]. unfold FixerPipelineStep_execute at 2, fix_. rewrite He. cbn [fst].
  now apply IH.
Qed.

Lemma fixer_pipeline_Some steps df r :
  FixerPipeline_process steps df = Some r ->
  r = fold_left (fun result_df step => FixerPipelineStep_execute step result_df) steps df /\
  forall c, has_col df c = true -> has_col r c = true.
Proof.
  unfold FixerPipeline_process. destruct (empty df) eqn:He.
  - intros [= <-]. split; [|auto]. symmetry. now apply fixer_steps_empty.
  - destruct (forallb _ (columns df)) eqn:Hall; [|discriminate]. intros [= <-].
    split; [reflexivity|]. intros c Hc. rewrite forallb_forall in Hall. apply Hall.
    unfold has_col in Hc. apply existsb_exists in Hc as (x & Hx & Hcx).
    apply String.eqb_eq in Hcx. now subst x.
Qed.

Lemma fixer_pipeline_of_fold steps df :
  (forall c, has_col df c = true ->
     has_col (fold_left (fun result_df step => FixerPipelineStep_execute step result_df)
                steps df) c = true) ->
  FixerPipeline_process steps df
  = Some (fold_left (fun result_df step => FixerPipelineStep_execute step result_df)
            steps df).
Proof.
  intros H. unfold FixerPipeline_process. destruct (empty df) eqn:He.
  - now rewrite fixer_steps_empty.
  - assert (forallb (has_col (fold_left
              (fun result_df step => FixerPipelineStep_execute step result_df) steps df))
              (columns df) = true) as ->; [|reflexivity].
    apply forallb_forall. intros c Hc. apply H. unfold has_col.
    apply existsb_exists. exists c. split; [exact Hc|apply String.eqb_refl].
Qed.



(** ** [OrchestrationService._process_dataset] *)

Lemma execute_success_inv load save config ex input_path output_path final_df results :
  fst (execute load save config ex input_path output_path)
  = ReturnTuple true final_df results ->
  exists df, final_df = Some df /\ empty df = false /\ save df output_path = true.
Proof.
  unfold execute. destruct (empty (load input_path)) eqn:Hload; [discriminate|].
  destruct (run_steps _ _ _ _ _ _ _ _ _) as [[[[exit steps] cm] counts] last] eqn:R.
  destruct exit as [d| |]; cbn [fst]; try discriminate.
  intros H. injection H as Hs <- _. exists d. repeat split; auto.
  eapply run_steps_completed_nonempty; eauto.
Qed.

Lemma result_of_success load save config ex input_path dataset_type output_path k :
  let r := OrchestrationService.result_of dataset_type output_path k
             (fst (execute load save config ex input_path output_path)) in
  (r_status r = "success" \/ r_status r = "error") /\
  (r_status r = "success" ->
   exists df, r_df r = Some df /\ empty df = false /\
              r_output_path r = Some output_path /\ save df output_path = true /\
              r_dataset r = Some dataset_type) /\
  (forall b, fst (execute load save config ex input_path output_path) = ReturnBool b ->
     r = mkDatasetResult "error" (Some dataset_type)
           (Some "cannot unpack non-iterable bool object") None None None None).
Proof.
  cbv zeta. unfold OrchestrationService.result_of.
  destruct (fst (execute load save config ex input_path output_path))
    as [success final_df results|b] eqn:E; cbn [unpack].
  - destruct success; cbn [r_status r_df r_output_path r_dataset].
    + split; [now left|]. split; [|discriminate]. intros _.
      destruct (execute_success_inv _ _ _ _ _ _ _ _ E) as (df & -> & He & Hs).
      exists df. auto.
    + split; [now right|]. split; discriminate.
  - cbn [r_status]. split; [now right|]. split; [discriminate|]. reflexivity.
Qed.

(** X27.  [_process_dataset] reports ["success"] only with a non-empty
    table that was saved as [<output_dir>/<dataset>_cooked.csv], and
    ["error"] otherwise.  The bare [False] that [execute] returns after a
    step left an empty table cannot be unpacked into three values: for a
    single file the TypeError ends in the handler, and the result is an
    error without table and without validation results. *)
Theorem process_dataset_outcome
    (load : string -> Table) (save : Table -> string -> bool)
    (load_saved : Table -> string -> Table)
    (create_pipeline : Config -> string -> PipelineExecutor * Config)
    (input_dir output_dir : string)
    (config : Config) (dataset_type : string) (files : list string) :
  let r := OrchestrationService._process_dataset load save load_saved create_pipeline
             input_dir output_dir config dataset_type files in
  let output_path := path_join output_dir (dataset_type ++ "_cooked.csv") in
  (r_status r = "success" \/ r_status r = "error") /\
  (r_status r = "success" ->
   exists df, r_df r = Some df /\ empty df = false /\
              r_output_path r = Some output_path /\ save df output_path = true /\
              r_dataset r = Some dataset_type) /\
  (forall file b,
     files = [file] ->
     fst (execute load save
            (snd (create_pipeline (set_current_dataset config dataset_type) dataset_type))
            (fst (create_pipeline (set_current_dataset config dataset_type) dataset_type))
            (path_join input_dir file) output_path) = ReturnBool b ->
     r = mkDatasetResult "error" (Some dataset_type)
           (Some "cannot unpack non-iterable bool object") None None None None).
Proof.
  cbv zeta. unfold OrchestrationService._process_dataset.
  destruct files as [|file [|file2 rest]].
  - cbn [r_status]. split; [now right|]. split; [discriminate|]. intros ? ? [=].
  - destruct (create_pipeline (set_current_dataset config dataset_type) dataset_type)
      as [pipeline config'] eqn:Ec. cbn [fst snd].
    destruct (result_of_success load save config' pipeline (path_join input_dir file)
                dataset_type (path_join output_dir (dataset_type ++ "_cooked.csv")) 1)
      as (H1 & H2 & H3).
    split; [exact H1|]. split; [exact H2|]. intros f b [= <-]. apply H3.
  - match goal with |- context [empty ?d] => destruct (empty d) end.
    + cbn [r_status]. split; [now right|]. split; [discriminate|]. intros ? ? [=].
    + destruct (create_pipeline (set_current_dataset config dataset_type) dataset_type)
        as [pipeline config'] eqn:Ec.
      match goal with |- context [execute ?l save config' pipeline ?i ?o] =>
        destruct (result_of_success l save config' pipeline i dataset_type o
                    (length (file :: file2 :: rest))) as (H1 & H2 & _)
      end.
      split; [exact H1|]. split; [exact H2|]. intros ? ? [=].
Qed.

Lemma process_dataset_outcome_witness :
  OrchestrationService._process_dataset (fun _ => one_cell_table) (fun _ _ => true)
    (fun df _ => df) (fun c _ => (filtering_executor, c)) "in" "out" loan_config "Loan"
    ["Loan.csv"]
  = mkDatasetResult "error" (Some "Loan")
      (Some "cannot unpack non-iterable bool object") None None None None.
Proof.
  apply (proj2 (proj2 (process_dataset_outcome (fun _ => one_cell_table) (fun _ _ => true)
                         (fun df _ => df) (fun c _ => (filtering_executor, c)) "in" "out"
                         loan_config "Loan" ["Loan.csv"])) "Loan.csv" false eq_refl).
  reflexivity.
Defined.

(** ** [OutlierFixerStrategy]: the shape of the table *)

Lemma same_layout_refl d : same_layout d d.
Proof.
  split; [reflexivity|]. intros c. destruct (get_col d c); [|exact I].
  split; [apply retyped_refl|reflexivity].
Qed.

Lemma same_layout_trans d1 d2 d3 :
  same_layout d1 d2 -> same_layout d2 d3 -> same_layout d1 d3.
Proof.
  intros [H1 H2] [H3 H4]. split; [congruence|]. intros c.
  specialize (H2 c). specialize (H4 c).
  destruct (get_col d3 c) as [s3|], (get_col d2 c) as [s2|], (get_col d1 c) as [s1|];
    try tauto.
  destruct H2 as [Ha Hb], H4 as [Hc Hd]. split; [|congruence].
  eapply retyped_trans; eassumption.
Qed.

Lemma same_layout_loc_set d mask c f : same_layout (loc_set d mask c f) d.
Proof.
  unfold loc_set. destruct (get_col d c) as [s|] eqn:E; [|apply same_layout_refl].
  pose proof (get_col_has_col _ _ _ E) as Hc. split.
  - now apply columns_set_col.
  - intros c'. destruct (String.eqb_spec c c') as [<-|Hne].
    + rewrite get_set_col_eq by assumption. rewrite E. cbn [dt cells]. split.
      * apply retype_retyped.
      * apply assign_length.
    + rewrite get_set_col_ne by assumption. destruct (get_col d c'); [|exact I].
      split; [apply retyped_refl|reflexivity].
Qed.

Lemma same_layout_nrows d1 d2 : same_layout d1 d2 -> nrows d1 = nrows d2.
Proof.
  intros [Hc Hs]. destruct d1 as [|[n1 s1] d1], d2 as [|[n2 s2] d2]; try discriminate;
    [reflexivity|].
  cbn in Hc. injection Hc as <- _. specialize (Hs n1). cbn [get_col] in Hs.
  rewrite String.eqb_refl in Hs. cbn. now destruct Hs.
Qed.

Lemma fix_group_shape col key key0 col0 acc g :
  same_layout (fst (OutlierFixerStrategy.fix_group col key key0 col0 acc g)) (fst acc).
Proof.
  destruct (fix_group_cases col key key0 col0 acc g) as [->|(e & top & rest & k & c & _ & _ & _ & ->)].
  - apply same_layout_refl.
  - apply same_layout_loc_set.
Qed.

Lemma fold_groups_shape col key key0 col0 gs : forall acc,
  same_layout (fst (fold_left (OutlierFixerStrategy.fix_group col key key0 col0) gs acc))
              (fst acc).
Proof.
  induction gs as [|g gs IH]; intros acc; [apply same_layout_refl|].
  cbn [fold_left]. eapply same_layout_trans; [apply IH|apply fix_group_shape].
Qed.

Lemma _fix_outliers_with_bounds_shape df c lo hi :
  same_layout (fst (OutlierFixerStrategy._fix_outliers_with_bounds df c lo hi)) df.
Proof.
  unfold OutlierFixerStrategy._fix_outliers_with_bounds.
  destruct (get_col df c) as [s|]; [|apply same_layout_refl].
  destruct (mask_any (map (ltb_q lo) (cells s))); destruct (mask_any (map (gtb_q hi) (cells s)));
    cbn [fst]; try apply same_layout_refl; try apply same_layout_loc_set.
  eapply same_layout_trans; apply same_layout_loc_set.
Qed.

Lemma _fix_global_outliers_shape df c k :
  same_layout (fst (OutlierFixerStrategy._fix_global_outliers df c k)) df.
Proof.
  unfold OutlierFixerStrategy._fix_global_outliers.
  destruct (get_col df c) as [s|]; [|apply same_layout_refl].
  destruct (OutlierFixerStrategy._calculate_bounds s k) as [[lo hi]|];
    [apply _fix_outliers_with_bounds_shape|apply same_layout_refl].
Qed.

Lemma fix_column_shape config key acc c :
  same_layout (fst (OutlierFixerStrategy.fix_column config key acc c)) (fst acc).
Proof.
  unfold OutlierFixerStrategy.fix_column. destruct acc as [df total]. cbn [fst].
  destruct (OutlierFixerStrategy._should_skip_column c df _); [apply same_layout_refl|].
  destruct (OutlierFixerStrategy.group_stage config key df c) as [d1 n1] eqn:Eg.
  destruct (OutlierFixerStrategy._fix_global_outliers d1 c _) as [d2 n2] eqn:E2.
  cbn [fst]. apply same_layout_trans with d1.
  - pose proof (_fix_global_outliers_shape d1 c (outlier_threshold config)) as H.
    now rewrite E2 in H.
  - assert (Hd1 : d1 = fst (OutlierFixerStrategy.group_stage config key df c))
      by (now rewrite Eg).
    rewrite Hd1. unfold OutlierFixerStrategy.group_stage.
    destruct key as [k|]; [|apply same_layout_refl].
    unfold OutlierFixerStrategy._fix_group_outliers.
    destruct (get_col df k) as [sk|]; [|apply same_layout_refl].
    destruct (get_col df c) as [sc|]; [|apply same_layout_refl].
    apply (fold_groups_shape c k (cells sk) (cells sc) _ (df, 0%nat)).
Qed.

Lemma fix_columns_shape config key cols : forall acc,
  same_layout (fst (fold_left (OutlierFixerStrategy.fix_column config key) cols acc))
              (fst acc).
Proof.
  induction cols as [|c cols IH]; intros acc; [apply same_layout_refl|].
  cbn [fold_left]. eapply same_layout_trans; [apply IH|apply fix_column_shape].
Qed.



(** An int64 column capped at a bound that is no integer comes back as
    float64. *)
Example outlier_fixer_upcasts_int64 :
  let df := [("Visits", mkSeries int64 [Num 1; Num 2; Num 3; Num 4; Num 5; Num 100])] in
  get_col (fst (fix_ (OutlierFixerStrategy.strategy customer_config) df 0)) "Visits"
  = Some (mkSeries number [Num 1; Num 2; Num 3; Num 4; Num 5; Num (784 # 64)]).
Proof. vm_compute. reflexivity. Qed.

(** ** Fixed dates and the data consistency check *)

Lemma consistency_check_no_future_dates now' df c :
  (forall s, get_col df c = Some s -> mask_sum (map (after now') (cells s)) = 0%nat) ->
  forall iss p,
    DataQualityValidationStrategy._check_data_consistency now' df = Some (iss, p) ->
    forall i, In i iss -> issue_type i = "future_dates" -> field i <> Some c.
Proof.
  intros Hzero iss p E.
  unfold DataQualityValidationStrategy._check_data_consistency in E.
  refine (all_checks_Forall_partial
            (fun i => issue_type i = "future_dates" -> field i <> Some c) _ _ iss p E).
  clear E iss p. intros chk iss p Hin Echk i Hi Hty.
  apply in_app_or in Hin as [Hin|Hin].
  - apply in_map_iff in Hin as (col & <- & _).
    unfold DataQualityValidationStrategy.check_future_dates in Echk.
    destruct (has_col df col); [|injection Echk as <- <-; destruct Hi].
    destruct (get_col df col) as [s|] eqn:Es; cbn [mbind option_bind] in Echk;
      [|discriminate].
    destruct (_ && is_datetime64_any_dtype s) eqn:Ec;
      [|injection Echk as <- <-; destruct Hi].
    apply andb_true_iff in Ec as [_ Hdt].
    destruct (gt_timestamp s now') as [future|] eqn:Eg; cbn [mbind option_bind] in Echk;
      [|discriminate].
    assert (Hf : future = map (after now') (cells s)).
    { unfold gt_timestamp, cmp_timestamp in Eg. unfold is_datetime64_any_dtype in Hdt.
      destruct (dt s); try discriminate. now injection Eg. }
    subst future.
    destruct (report_inv _ _ _ _ i Echk Hi) as [-> Hpos]. cbn [field]. intros [= ->].
    rewrite (Hzero s Es) in Hpos. lia.
  - destruct Hin as [<-|[]].
    destruct (has_col df "Age"); [|injection Echk as <- <-; destruct Hi].
    destruct (get_col df "Age") as [s|]; cbn [mbind option_bind] in Echk; [|discriminate].
    destruct (negb _); [|injection Echk as <- <-; destruct Hi].
    destruct (range_count s 18 100) as [k|]; cbn [mbind option_bind] in Echk;
      [|discriminate].
    destruct (report_inv _ _ _ _ i Echk Hi) as [-> _]. discriminate.
Qed.

Lemma wf_table_empty_cells df c s :
  wf_table df = true -> empty df = true -> get_col df c = Some s -> cells s = [].
Proof.
  intros Hwf He E. pose proof (wf_table_empty_cell_at df c 0 Hwf He) as H.
  unfold cell_at in H. rewrite E in H. now destruct (cells s).
Qed.

Lemma naive_dates_datetime to_datetime df c s :
  get_col df c = Some s -> dt s = datetime -> naive_dates to_datetime df c = true.
Proof. intros E Hd. unfold naive_dates. now rewrite E, Hd. Qed.



(** ** The dataset name: lower-cased by the factory, exact in the fixer *)

(** X30.  The fixing pipeline of [PipelineFactory] ends with the
    consistency fixer and picks the domain fixer by the lower-cased
    dataset type, while the consistency fixer compares [current_dataset]
    with "Loan", "Market" and "Fraud" exactly.  So for every other
    spelling (["fraud"], ["LOAN"], ...) and every other dataset the last
    step changes nothing, although for ["fraud"] the Fraud domain fixer
    is in the pipeline. *)
Theorem consistency_fixer_needs_exact_name
    (now day : Z) (to_datetime : Series -> option Series)
    (float_ge_half : string -> option bool)
    (missing_value_fixer : Config -> FixerStrategy)
    (_fix_loan_consistency : Config -> Table -> FixM Table)
    (config : Config) (dataset_type : string) (df : Table) :
  let config' := set_current_dataset config dataset_type in
  let steps := PipelineFactory._create_fixing_pipeline now day to_datetime float_ge_half
                 missing_value_fixer _fix_loan_consistency config' dataset_type in
  dataset_type <> "Loan" -> dataset_type <> "Market" -> dataset_type <> "Fraud" ->
  FixerPipeline_process steps df = FixerPipeline_process (removelast steps) df /\
  (lower dataset_type = "fraud" ->
   steps = [missing_value_fixer config'; OutlierFixerStrategy.strategy config';
            DomainFraudFixerStrategy.strategy now day to_datetime float_ge_half;
            DataConsistencyFixerStrategy.strategy config' (_fix_loan_consistency config')
              _fix_market_consistency]).
Proof.
  cbv zeta. intros HL HM HF. split.
  - unfold PipelineFactory._create_fixing_pipeline.
    rewrite !app_assoc, removelast_last.
    unfold FixerPipeline_process. destruct (empty df); [reflexivity|].
    rewrite (fold_left_app _ _ [_]). cbn [fold_left].
    set (x := fold_left _ _ df).
    assert (FixerPipelineStep_execute
              (DataConsistencyFixerStrategy.strategy (set_current_dataset config dataset_type)
                 (_fix_loan_consistency (set_current_dataset config dataset_type))
                 _fix_market_consistency) x = x) as ->; [|reflexivity].
    unfold FixerPipelineStep_execute, fix_. destruct (empty x) eqn:He; [reflexivity|].
    cbn [_fix DataConsistencyFixerStrategy.strategy].
    unfold DataConsistencyFixerStrategy._fix. rewrite He.
    cbn [current_dataset set_current_dataset].
    destruct (String.eqb_spec dataset_type "Loan"); [contradiction|].
    destruct (String.eqb_spec dataset_type "Market"); [contradiction|].
    destruct (String.eqb_spec dataset_type "Fraud"); [contradiction|].
    reflexivity.
  - intros Hl. unfold PipelineFactory._create_fixing_pipeline. rewrite Hl.
    destruct dataset_type; [discriminate|]. reflexivity.
Qed.

Lemma consistency_fixer_needs_exact_name_witness :
  FixerPipeline_process
    (PipelineFactory._create_fixing_pipeline 19500 1 (fun _ => None) (fun _ => None)
       (fun _ => identity_fixer) (fun _ => ret) (set_current_dataset fraud_config "fraud")
       "fraud") fraud_table
  = FixerPipeline_process
      (removelast
         (PipelineFactory._create_fixing_pipeline 19500 1 (fun _ => None) (fun _ => None)
            (fun _ => identity_fixer) (fun _ => ret)
            (set_current_dataset fraud_config "fraud") "fraud")) fraud_table.
Proof.
  apply (consistency_fixer_needs_exact_name 19500 1 (fun _ => None) (fun _ => None)
           (fun _ => identity_fixer) (fun _ => ret) fraud_config "fraud" fraud_table);
    discriminate.
Defined.
